(** * Residual-demand traffic assignment: a shallow embedding

    This development embeds the assignment engine of
    [modules/performREC/transportation.py]
    ([TransportationPerformance.system_performance] and its three nested
    functions [substep_assignment], [write_edge_vol], [write_final_vol] and
    [assignment]) and proves properties of it.

    Conventions of the embedding:
    - pandas columns of Python [int]s are [Z]; columns of Python [float]s are
      exact rationals [Q] (rounding error of binary floating point is not
      modelled, the explicit [round(2)] of the code is);
    - the [edge_str] index [f'{start_nid}-{end_nid}'] is the pair
      [(start_nid, end_nid)];
    - the dictionaries obtained with [to_dict()] are [gmap]s, the insertion
      ordered dictionary [trip_info], whose item order becomes the row order
      of a written table, is an association list;
    - [pandana] (shortest paths) and [numpy.random] (the process-wide
      generator) are libraries outside the repository: they enter as
      section variables;
    - a Python exception is a [Raise] result; files written before an
      exception stay written.

    A second part embeds [TransportationPerformance.__init__] and
    [system_state], with its nested [files_exist], over the values that
    [json.load] returns; [int] on strings, [os.path] and [get_graph_network]
    (which is [geopandas] and [momepy] throughout) enter as type classes. *)

From stdpp Require Import gmap list strings.
From Stdlib Require Import ZArith QArith Qround Qpower Lia Lqa Sorted.

Local Open Scope Z_scope.

(** ** Exceptions and results *)

Inductive error : Set :=
| KeyError
| UnboundLocalError
| AttributeError
| ZeroDivisionError
| ValueError.

Inductive result (A : Type) : Type :=
| Ok (a : A)
| Raise (e : error).

Arguments Ok {A} a.
Arguments Raise {A} e.

Definition rbind {A B} (r : result A) (k : A -> result B) : result B :=
  match r with
  | Ok a => k a
  | Raise e => Raise e
  end.

Definition of_option {A} (o : option A) (e : error) : result A :=
  match o with
  | Some a => Ok a
  | None => Raise e
  end.

Declare Scope result_scope.
Delimit Scope result_scope with res.
Notation "'let?' x ':=' r 'in' k" := (rbind r (fun x => k))
  (at level 10, x pattern, r at level 100, k at level 200) : result_scope.
Local Open Scope result_scope.

(** ** Rational comparisons and rounding *)

(** Python's [x < y] on numbers. *)
Definition Qltb (x y : Q) : bool := negb (Qle_bool y x).

(** [numpy.round(x, 0)] on an exact rational: nearest integer, ties to the
    even one. *)
Definition round_half_even (x : Q) : Z :=
  let n := Qnum x in
  let d := Zpos (Qden x) in
  let f := n / d in
  match (2 * (n mod d)) ?= d with
  | Lt => f
  | Gt => f + 1
  | Eq => if Z.even f then f else f + 1
  end.

(** [Series.round(2)]. *)
Definition round2 (x : Q) : Q := Qmake (round_half_even (x * 100)) 100.

(** The sentinel travel time of a closed edge. *)
Definition closed_time : Q := 36000.

(** ** Tables *)

(** One row of [edges_df].  The index [edge_str] is [(start_nid, end_nid)];
    the columns [u], [v] duplicate [start_nid], [end_nid], and [geometry],
    [length], [type], [lanes], [maxspeed] are carried along untouched by
    the engine: they are left out. *)
Record edge : Type := Edge {
  uniqueid : Z;
  start_nid : Z;
  end_nid : Z;
  fft : Q;
  capacity : Q;
  normal_fft : Q;
  normal_capacity : Q;
  vol_true : Z;
  vol_tot : Z;
  veh_current : Z;
  flow : Q;
  t_avg : Q
}.

(** [edges_df]: the column [flow] exists only in the frames returned by
    [substep_assignment]; [write_edge_vol] tests for it. *)
Record edges_table : Type := EdgesTable {
  has_flow : bool;
  rows : list edge
}.

Definition edge_str (e : edge) : Z * Z := (start_nid e, end_nid e).

(** One row of [od_all]. *)
Record od_row : Type := OdRow {
  od_agent_id : Z;
  od_origin_nid : Z;
  od_destin_nid : Z;
  od_hour : Z;
  od_quarter : Z
}.

(** [od_all]: the column [quarter] is optional in the input file. *)
Record od_table : Type := OdTable {
  has_quarter : bool;
  od_rows : list od_row
}.

(** One row of [od_quarter] / [od_ss] / [od_residual_list]. *)
Record agent : Type := Agent {
  agent_id : Z;
  origin_nid : Z;
  destin_nid : Z;
  current_nid : Z;
  current_link : option (Z * Z);
  current_link_time : Q
}.

Definition trip_key : Type := Z * Z * Z.

Definition agent_key (a : agent) : trip_key :=
  (agent_id a, origin_nid a, destin_nid a).

Definition od_key (od : od_row) : trip_key :=
  (od_agent_id od, od_origin_nid od, od_destin_nid od).

(** A value of [trip_info]: the Python list
    [[travel_time, travel_time_used, stop_nid, stop_hour, stop_quarter,
    stop_ssid, 0, 0]]; the two trailing zeros are never read. *)
Record trip_value : Type := TripValue {
  travel_time : Q;
  travel_time_used : Q;
  stop_nid : Z;
  stop_hour : Z;
  stop_quarter : Z;
  stop_ssid : Z
}.

(** One row of a written trip table; [None] is [np.nan]. *)
Record trip_row : Type := TripRow {
  row_agent_id : Z;
  row_origin_nid : Z;
  row_destin_nid : Z;
  row_travel_time : Q;
  row_travel_time_used : option Q;
  row_stop_nid : option Z;
  row_stop_hour : option Z;
  row_stop_quarter : option Z;
  row_stop_ssid : option Z
}.

Definition row_key (r : trip_row) : trip_key :=
  (row_agent_id r, row_origin_nid r, row_destin_nid r).

(** ** Insertion-ordered dictionaries *)

Module PyDict.
Section Dict.
Context {K V : Type} `{EqDecision K}.

Definition t : Type := list (K * V).

Fixpoint get (k : K) (d : t) : option V :=
  match d with
  | [] => None
  | (k', x) :: d' => if decide (k = k') then Some x else get k d'
  end.

(** [d[k] = x]: overwrite in place, or append a new item. *)
Fixpoint set (k : K) (x : V) (d : t) : t :=
  match d with
  | [] => [(k, x)]
  | (k', y) :: d' =>
      if decide (k = k') then (k', x) :: d' else (k', y) :: set k x d'
  end.

Definition keys (d : t) : list K := map fst d.

(** A dictionary comprehension [{key(x): val(x) for x in xs}]. *)
Definition comprehension {X} (key : X -> K) (val : X -> V) (xs : list X) : t :=
  foldl (fun d x => set (key x) (val x) d) [] xs.
End Dict.
Arguments t : clear implicits.
End PyDict.

(** ** The external libraries *)

(** What [pdna.Network(...)] is built from: the node ids and the directed
    edges with their weight. *)
Record network : Type := Network {
  net_nodes : list Z;
  net_edges : list (Z * Z * Q)
}.

(** [pandana]: [net.shortest_paths] and [net.shortest_path_lengths], one
    query per (origin, destination) pair.  An empty list is "no path". *)
Class Pandana : Type := {
  shortest_path : network -> Z -> Z -> list Z;
  shortest_path_length : network -> Z -> Z -> Q
}.

(** [numpy.random]: the state of the process-wide generator, and one draw
    of an index below a bound. *)
Class NumpyRandom : Type := {
  rng : Type;
  rng_draw : rng -> nat -> nat * rng
}.

(** ** Written files *)

(** One row of an [edge_vol_hr{hour}_qt{quarter}_{scen_nm}.csv] file. *)
Record vol_row : Type := VolRow {
  vr_uniqueid : Z;
  vr_start_nid : Z;
  vr_end_nid : Z;
  vr_capacity : Q;
  vr_veh_current : Z;
  vr_vol_true : Z;
  vr_vol_tot : Z;
  vr_flow : Q;
  vr_t_avg : Q
}.

(** One row of the [final_edge_vol_...csv] file. *)
Record final_vol_row : Type := FinalVolRow {
  fv_uniqueid : Z;
  fv_start_nid : Z;
  fv_end_nid : Z;
  fv_vol_tot : Z
}.

(** A [to_csv] call: which file, and its rows. *)
Inductive file : Type :=
| EdgeVolFile (hour quarter : Z) (content : list vol_row)
| FinalEdgeVolFile (hour quarter : Z) (content : list final_vol_row)
| TripInfoCheckpoint (hour : Z) (content : list trip_row)
| TripInfoFile (content : list trip_row).

(** The keyword arguments of [substep_assignment]; the pass-through
    argument [agents_path] is left out. *)
Module Substep.
Record args : Type := Args {
  nodes_df : list Z;
  weighted_edges_df : list edge;
  od_ss : list agent;
  quarter_demand : Z;
  assigned_demand : Z;
  quarter_counts : Z;
  trip_info : PyDict.t trip_key trip_value;
  agent_time_limit : option Q;
  sample_interval : Z;
  hour : Z;
  quarter : Z;
  ss_id : Z;
  alpha_f : Q;
  beta_f : Z
}.
End Substep.

(** The keyword arguments of [assignment] that it reads.  [quarter_counts]
    and [substep_counts] are overwritten before their first use,
    [cost_factor] and [agents_path] are unused, [simulation_outputs] and
    [scen_nm] only name the written files. *)
Module Assignment.
Record args : Type := Args {
  substep_size : Z;
  edges_df : edges_table;
  nodes_df : list Z;
  od_all : od_table;
  hour_list : list Z;
  quarter_list : option (list Z);
  closure_hours : option (list Z);
  closed_links : list Z;
  agent_time_limit : option Q;
  sample_interval : Z;
  alpha_f : Q;
  beta_f : Z
}.
End Assignment.

(** ** One substep: [substep_assignment] *)

(** The mutable locals of [substep_assignment] that the loop over the
    agents reads and writes.  [trip_stop] is [None] while the Python name
    is still unbound. *)
Record ss_vars : Type := SsVars {
  remaining_time : Q;
  used_time : Q;
  edge_quarter_vol : gmap (Z * Z) Z;
  edge_current_vehicles : gmap (Z * Z) Z;
  trip_stop : option Z;
  od_residual_ss_list : list agent;
  trip_info : PyDict.t trip_key trip_value
}.

(** [df[col].T.to_dict()]: for a repeated index label the last row wins. *)
Definition to_dict {V} (col : edge -> V) (df : list edge) : gmap (Z * Z) V :=
  list_to_map (reverse (map (fun e => (edge_str e, col e)) df)).

(** [zip(path, path[1:])] *)
Definition hops (path : list Z) : list (Z * Z) := zip path (tail path).

(** A left fold that stops at the first exception. *)
Fixpoint rfold {X S} (f : X -> S -> result S) (xs : list X) (s : S) : result S :=
  match xs with
  | [] => Ok s
  | x :: xs' => let? s' := f x s in rfold f xs' s'
  end.

(** The column [weight] of [weighted_edges_df] is a copy of [t_avg]
    (line 759). *)
Definition weight (e : edge) : Q := t_avg e.

(** [weighted_edges_df.loc[weighted_edges_df['fft'] < 36000]] *)
Definition open_edges (df : list edge) : list edge :=
  List.filter (fun e => Qltb (fft e) closed_time) df.

(** Lines 485-487. *)
Definition extrapolated_flow (quarter_demand assigned_demand quarter_counts : Z)
    (vol : Z) : Q :=
  ((inject_Z vol * inject_Z quarter_demand / inject_Z assigned_demand)
   * inject_Z quarter_counts)%Q.

(** Lines 488-492. *)
Definition bpr (alpha_f : Q) (beta_f : Z) (fft_ flow_ capacity_ : Q) : Q :=
  (fft_ * (1 + alpha_f * (flow_ / capacity_) ^ beta_f))%Q.

(** Lines 493-495: [np.where(t_avg > 36000, 36000, t_avg)]. *)
Definition clamp_closed (t : Q) : Q :=
  if Qltb closed_time t then closed_time else t.

(** Lines 480-496 for one row of [new_edges_df]. *)
Definition restrain (alpha_f : Q) (beta_f : Z)
    (quarter_demand assigned_demand quarter_counts : Z)
    (quarter_vol current_vehicles : gmap (Z * Z) Z) (e : edge) : edge :=
  let vol := default (vol_true e) (quarter_vol !! edge_str e) in
  let veh := default (veh_current e) (current_vehicles !! edge_str e) in
  let fl := extrapolated_flow quarter_demand assigned_demand quarter_counts vol in
  {| uniqueid := uniqueid e;
     start_nid := start_nid e;
     end_nid := end_nid e;
     fft := fft e;
     capacity := capacity e;
     normal_fft := normal_fft e;
     normal_capacity := normal_capacity e;
     vol_true := vol;
     vol_tot := vol_tot e;
     veh_current := veh;
     flow := fl;
     t_avg := round2 (clamp_closed (bpr alpha_f beta_f (fft e) fl (capacity e))) |}.

(** ** The walk along a path, as the specification words it *)

(** The edges an agent with time budget [budget] gets through: it goes on
    while the next edge is open (its time is below the sentinel) and takes
    strictly less than what is left of the budget. *)
Fixpoint traversed (times : gmap (Z * Z) Q) (budget : Q)
    (path_hops : list (Z * Z)) : list (Z * Z) :=
  match path_hops with
  | [] => []
  | e :: rest =>
      match times !! e with
      | Some t =>
          if Qltb t budget && Qltb t closed_time
          then e :: traversed times (budget - t)%Q rest
          else []
      | None => []
      end
  end.

Definition time_on (times : gmap (Z * Z) Q) (e : Z * Z) : Q :=
  default 0%Q (times !! e).

(** One more traversal of [e] counted in a volume dictionary. *)
Definition bump (step : Z) (m : gmap (Z * Z) Z) (e : Z * Z) : gmap (Z * Z) Z :=
  <[e := default 0 (m !! e) + 1 * step]> m.

(** The residual record of agent [a] stopped in front of [edge] with
    [left] seconds of budget. *)
Definition residual_at (a : agent) (edge : Z * Z) (left : Q) : agent :=
  {| agent_id := agent_id a;
     origin_nid := origin_nid a;
     destin_nid := destin_nid a;
     current_nid := fst edge;
     current_link := Some edge;
     current_link_time := left |}.

(** ** Column assignments on [edges_df] *)

Definition with_capacity_fft (c f : Q) (e : edge) : edge :=
  {| uniqueid := uniqueid e; start_nid := start_nid e; end_nid := end_nid e;
     fft := f; capacity := c;
     normal_fft := normal_fft e; normal_capacity := normal_capacity e;
     vol_true := vol_true e; vol_tot := vol_tot e;
     veh_current := veh_current e; flow := flow e; t_avg := t_avg e |}.

Definition with_vol_true (x : Z) (e : edge) : edge :=
  {| uniqueid := uniqueid e; start_nid := start_nid e; end_nid := end_nid e;
     fft := fft e; capacity := capacity e;
     normal_fft := normal_fft e; normal_capacity := normal_capacity e;
     vol_true := x; vol_tot := vol_tot e;
     veh_current := veh_current e; flow := flow e; t_avg := t_avg e |}.

Definition with_vol_tot (x : Z) (e : edge) : edge :=
  {| uniqueid := uniqueid e; start_nid := start_nid e; end_nid := end_nid e;
     fft := fft e; capacity := capacity e;
     normal_fft := normal_fft e; normal_capacity := normal_capacity e;
     vol_true := vol_true e; vol_tot := x;
     veh_current := veh_current e; flow := flow e; t_avg := t_avg e |}.

Definition with_veh_current (x : Z) (e : edge) : edge :=
  {| uniqueid := uniqueid e; start_nid := start_nid e; end_nid := end_nid e;
     fft := fft e; capacity := capacity e;
     normal_fft := normal_fft e; normal_capacity := normal_capacity e;
     vol_true := vol_true e; vol_tot := vol_tot e;
     veh_current := x; flow := flow e; t_avg := t_avg e |}.

(** [edges_df.loc[edges_df['uniqueid'] == uid, 'capacity'] = 1] followed by
    [edges_df.loc[edges_df['uniqueid'] == uid, 'fft'] = 36000]. *)
Definition close_link (uid : Z) (df : list edge) : list edge :=
  map (fun e => if decide (uniqueid e = uid)
                then with_capacity_fft 1 closed_time e else e) df.

(** [for row in closed_links.itertuples(): ...] (lines 642-648, 960-962). *)
Definition apply_closures (closed_links : list Z) (df : list edge) : list edge :=
  foldl (fun df' uid => close_link uid df') df closed_links.

(** Lines 650-651. *)
Definition restore_normal (df : list edge) : list edge :=
  map (fun e => with_capacity_fft (normal_capacity e) (normal_fft e) e) df.

(** [list(range(a, b))] and [list(range(n))] *)
Definition range_from (a b : Z) : list Z :=
  map (fun i => a + Z.of_nat i) (seq 0 (Z.to_nat (b - a))).

Definition range (n : Z) : list Z := range_from 0 n.

(** The rows of [trip_info_df] (lines 813-839 and 849-875). *)
Definition trip_rows (trip_info_ : PyDict.t trip_key trip_value) : list trip_row :=
  map (fun kv =>
         let '(a, o, d, x) := kv in
         {| row_agent_id := a;
            row_origin_nid := o;
            row_destin_nid := d;
            row_travel_time := travel_time x;
            row_travel_time_used := Some (travel_time_used x);
            row_stop_nid := Some (stop_nid x);
            row_stop_hour := Some (stop_hour x);
            row_stop_quarter := Some (stop_quarter x);
            row_stop_ssid := Some (stop_ssid x) |})
      trip_info_.

(** The rows of [trip_info_no_path] (lines 877-889). *)
Definition no_path_row (od : od_row) : trip_row :=
  {| row_agent_id := od_agent_id od;
     row_origin_nid := od_origin_nid od;
     row_destin_nid := od_destin_nid od;
     row_travel_time := 360000;
     row_travel_time_used := None;
     row_stop_nid := None;
     row_stop_hour := None;
     row_stop_quarter := None;
     row_stop_ssid := None |}.

(** Lines 607-620: the initial entry of a routable trip. *)
Definition initial_trip (od : od_row) : trip_value :=
  {| travel_time := 0;
     travel_time_used := 0;
     stop_nid := od_origin_nid od;
     stop_hour := 0;
     stop_quarter := od_hour od;
     stop_ssid := od_quarter od |}.

(** A row of [od_hour] restricted to the columns of [od_quarter], with
    [current_nid = origin_nid], [current_link = None] and
    [current_link_time = 0]. *)
Definition new_agent (od : od_row) : agent :=
  {| agent_id := od_agent_id od;
     origin_nid := od_origin_nid od;
     destin_nid := od_destin_nid od;
     current_nid := od_origin_nid od;
     current_link := None;
     current_link_time := 0 |}.

Definition with_quarter (od : od_row) (q : Z) : od_row :=
  {| od_agent_id := od_agent_id od;
     od_origin_nid := od_origin_nid od;
     od_destin_nid := od_destin_nid od;
     od_hour := od_hour od;
     od_quarter := q |}.

(** The variables that the nested loops of [assignment] assign.  [lv_hour]
    and [lv_quarter] are the loop variables [hour] and [quarter], unbound
    ([None]) until their loop has started once. *)
Record loop_vars : Type := LoopVars {
  lv_edges_df : edges_table;
  lv_trip_info : PyDict.t trip_key trip_value;
  lv_od_residual_list : list agent;
  lv_assigned_demand : Z;
  lv_hour : option Z;
  lv_quarter : option Z
}.

(** ** Loading the network (lines 918-979 of [system_performance]) *)

(** One row of the edge file, restricted to the columns the engine reads. *)
Record edge_csv : Type := EdgeCsv {
  csv_uniqueid : Z;
  csv_length : Q;
  csv_maxspeed : Q;
  csv_capacity : Q;
  csv_start_nid : Z;
  csv_end_nid : Z
}.

(** One row of the node file. *)
Record node_csv : Type := NodeCsv {
  node_id : Z;
  lon : Q;
  lat : Q
}.

(** Lines 940 and 949-954 for one row: [fft] in seconds from metres and
    miles per hour, the capacity default, the [normal_*] copies and the
    initial [t_avg].  The columns [vol_true], [vol_tot], [veh_current] and
    [flow] do not exist yet; they are assigned before they are read. *)
Definition edge_of_csv (r : edge_csv) : edge :=
  let fft_ := (csv_length r / csv_maxspeed r * 2.23694)%Q in
  let capacity_ := if Qltb (csv_capacity r) 1 then 950%Q else csv_capacity r in
  {| uniqueid := csv_uniqueid r;
     start_nid := csv_start_nid r;
     end_nid := csv_end_nid r;
     fft := fft_;
     capacity := capacity_;
     normal_fft := fft_;
     normal_capacity := capacity_;
     vol_true := 0;
     vol_tot := 0;
     veh_current := 0;
     flow := 0;
     t_avg := fft_ |}.

(** [sort_values(by='fft', ascending=False)], as a stable insertion sort. *)
Fixpoint insert_by_fft (e : edge) (l : list edge) : list edge :=
  match l with
  | [] => [e]
  | x :: l' =>
      if Qltb (fft e) (fft x) then x :: insert_by_fft e l' else e :: x :: l'
  end.

Definition sort_by_fft (l : list edge) : list edge := foldr insert_by_fft [] l.

(** [drop_duplicates(subset=['start_nid', 'end_nid'], keep='first')] *)
Fixpoint drop_duplicates (seen : list (Z * Z)) (l : list edge) : list edge :=
  match l with
  | [] => []
  | e :: l' =>
      if bool_decide (edge_str e ∈ seen) then drop_duplicates seen l'
      else e :: drop_duplicates (edge_str e :: seen) l'
  end.

(** The block has no [raise]: for every edge, node and closure file that
    parses it produces the two frames. *)
Definition load_network (edges : list edge_csv) (nodes : list node_csv)
    (closed_links : list Z) : result (edges_table * list Z) :=
  let edges_df := drop_duplicates [] (sort_by_fft (map edge_of_csv edges)) in
  Ok ({| has_flow := false; rows := apply_closures closed_links edges_df |},
      map node_id nodes).

Section Engine.

Context `{Pandana} `{NumpyRandom}.

Section SubstepAssignment.
Variable k : Substep.args.

Definition substep_net : network :=
  {| net_nodes := Substep.nodes_df k;
     net_edges :=
       map (fun e => (start_nid e, end_nid e, weight e))
           (open_edges (Substep.weighted_edges_df k)) |}.

Definition substep_paths : list (list Z) :=
  map (fun a => shortest_path substep_net (current_nid a) (destin_nid a))
      (Substep.od_ss k).

Definition substep_path_lengths : list Q :=
  map (fun a => shortest_path_length substep_net (current_nid a) (destin_nid a))
      (Substep.od_ss k).

(** Lines 385-394. *)
Definition remove_agent_list : list Z :=
  match Substep.agent_time_limit k with
  | None => []
  | Some trip_length_limit =>
      map (fun la => agent_id (snd la))
          (List.filter (fun la => Qltb (trip_length_limit + 0) (fst la))
                       (zip substep_path_lengths (Substep.od_ss k)))
  end.

Definition edge_travel_time_dict : gmap (Z * Z) Q :=
  to_dict t_avg (Substep.weighted_edges_df k).

(** Lines 416-448: the loop over the edges of one path.  Returning from
    the recursion is the [break]. *)
Fixpoint walk (a : agent) (path_hops : list (Z * Z)) (s : ss_vars)
    : result ss_vars :=
  match path_hops with
  | [] => Ok s
  | (edge_s, edge_e) :: rest =>
      let edge := (edge_s, edge_e) in
      let? edge_travel_time :=
        of_option (edge_travel_time_dict !! edge) KeyError in
      if Qltb edge_travel_time (remaining_time s)
         && Qltb edge_travel_time closed_time
      then
        let? vol := of_option (edge_quarter_vol s !! edge) KeyError in
        let? veh :=
          if decide (current_link a = Some edge)
          then let? n := of_option (edge_current_vehicles s !! edge) KeyError in
               Ok (<[edge := n - 1 * Substep.sample_interval k]>
                     (edge_current_vehicles s))
          else Ok (edge_current_vehicles s) in
        walk a rest
          {| remaining_time := (remaining_time s - edge_travel_time)%Q;
             used_time := (used_time s + edge_travel_time)%Q;
             edge_quarter_vol :=
               <[edge := vol + 1 * Substep.sample_interval k]>
                 (edge_quarter_vol s);
             edge_current_vehicles := veh;
             trip_stop := Some edge_e;
             od_residual_ss_list := od_residual_ss_list s;
             trip_info := trip_info s |}
      else
        let? veh :=
          if decide (current_link a = Some edge)
          then Ok (edge_current_vehicles s)
          else let? n := of_option (edge_current_vehicles s !! edge) KeyError in
               Ok (<[edge := n + 1 * Substep.sample_interval k]>
                     (edge_current_vehicles s)) in
        Ok {| remaining_time := remaining_time s;
              used_time := used_time s;
              edge_quarter_vol := edge_quarter_vol s;
              edge_current_vehicles := veh;
              trip_stop := Some edge_s;
              od_residual_ss_list :=
                od_residual_ss_list s ++
                [ {| agent_id := agent_id a;
                     origin_nid := origin_nid a;
                     destin_nid := destin_nid a;
                     current_nid := edge_s;
                     current_link := Some edge;
                     current_link_time := remaining_time s |} ];
              trip_info := trip_info s |}
  end.

(** Lines 449-456. *)
Definition update_trip_info (a : agent) (s : ss_vars) : result ss_vars :=
  let? old := of_option (PyDict.get (agent_key a) (trip_info s)) KeyError in
  let? stop := of_option (trip_stop s) UnboundLocalError in
  Ok {| remaining_time := remaining_time s;
        used_time := used_time s;
        edge_quarter_vol := edge_quarter_vol s;
        edge_current_vehicles := edge_current_vehicles s;
        trip_stop := trip_stop s;
        od_residual_ss_list := od_residual_ss_list s;
        trip_info :=
          PyDict.set (agent_key a)
            {| travel_time :=
                 (travel_time old + 3600 / inject_Z (Substep.quarter_counts k))%Q;
               travel_time_used := (travel_time_used old + used_time s)%Q;
               stop_nid := stop;
               stop_hour := Substep.hour k;
               stop_quarter := Substep.quarter k;
               stop_ssid := Substep.ss_id k |}
            (trip_info s) |}.

(** Lines 403-457: one iteration of [for path in paths]. *)
Definition route_agent (pa : list Z * agent) (s : ss_vars) : result ss_vars :=
  let '(path, a) := pa in
  if bool_decide (agent_id a ∈ remove_agent_list) then Ok s
  else if decide (Substep.quarter_counts k = 0) then Raise ZeroDivisionError
  else
    let? s' :=
      walk a (hops path)
        {| remaining_time :=
             (3600 / inject_Z (Substep.quarter_counts k)
              + current_link_time a)%Q;
           used_time := 0;
           edge_quarter_vol := edge_quarter_vol s;
           edge_current_vehicles := edge_current_vehicles s;
           trip_stop := trip_stop s;
           od_residual_ss_list := od_residual_ss_list s;
           trip_info := trip_info s |} in
    update_trip_info a s'.

Definition substep_init : ss_vars :=
  {| remaining_time := 0;
     used_time := 0;
     edge_quarter_vol := to_dict vol_true (Substep.weighted_edges_df k);
     edge_current_vehicles := to_dict veh_current (Substep.weighted_edges_df k);
     trip_stop := None;
     od_residual_ss_list := [];
     trip_info := Substep.trip_info k |}.

(** Lines 459-498: [new_edges_df] from the dictionaries the loop leaves. *)
Definition new_edges_df (s : ss_vars) : edges_table :=
  {| has_flow := true;
     rows :=
       map (restrain (Substep.alpha_f k) (Substep.beta_f k)
              (Substep.quarter_demand k) (Substep.assigned_demand k)
              (Substep.quarter_counts k)
              (edge_quarter_vol s) (edge_current_vehicles s))
           (Substep.weighted_edges_df k) |}.

Definition substep_assignment
    : result (edges_table * list agent * PyDict.t trip_key trip_value) :=
  let? s := rfold route_agent (zip substep_paths (Substep.od_ss k)) substep_init in
  Ok (new_edges_df s, od_residual_ss_list s, trip_info s).

End SubstepAssignment.

(** *** The world around [assignment]

    What a run of [assignment] reads and writes besides its arguments: the
    state of the process-wide [numpy.random] generator and the files
    written so far.  [calls] is a ghost history, not a variable of the
    code: the arguments of every invocation of [substep_assignment], in
    order. *)
Record world : Type := World {
  generator : rng;
  written : list file;
  calls : list Substep.args
}.

Definition M (A : Type) : Type := world -> result A * world.

Definition m_ret {A} (a : A) : M A := fun w => (Ok a, w).

Definition m_bind {A B} (m : M A) (f : A -> M B) : M B :=
  fun w =>
    match m w with
    | (Ok a, w') => f a w'
    | (Raise e, w') => (Raise e, w')
    end.

Definition m_lift {A} (r : result A) : M A := fun w => (r, w).

Definition m_write (f : file) : M unit :=
  fun w =>
    (Ok tt, {| generator := generator w;
               written := written w ++ [f];
               calls := calls w |}).

Definition m_called (c : Substep.args) : M unit :=
  fun w =>
    (Ok tt, {| generator := generator w;
               written := written w;
               calls := calls w ++ [c] |}).

Definition m_draw (bound : nat) : M nat :=
  fun w =>
    let '(i, g) := rng_draw (generator w) bound in
    (Ok (i mod bound)%nat,
     {| generator := g; written := written w; calls := calls w |}).

Notation "'let*' x ':=' m 'in' f" := (m_bind m (fun x => f))
  (at level 10, x pattern, m at level 100, f at level 200).

(** A [for] loop over [xs] threading the assigned variables [s]. *)
Fixpoint for_each {X S} (xs : list X) (body : X -> S -> M S) (s : S) : M S :=
  match xs with
  | [] => m_ret s
  | x :: xs' => let* s' := body x s in for_each xs' body s'
  end.

(** [triple P m Q E]: started in a world satisfying [P], the computation
    [m] either returns some [a] in a world satisfying [Q a], or raises in a
    world satisfying [E]. *)
Definition triple {A} (P : world -> Prop) (m : M A)
    (Q : A -> world -> Prop) (E : world -> Prop) : Prop :=
  forall w, P w ->
    match m w with
    | (Ok a, w') => Q a w'
    | (Raise _, w') => E w'
    end.

(** [np.random.choice(ids, size=size, p=[1/len(ids)]*len(ids))] *)
Fixpoint draws (ids : list Z) (size : nat) : M (list Z) :=
  match size with
  | O => m_ret []
  | S size' =>
      let* i := m_draw (length ids) in
      let* rest := draws ids size' in
      m_ret (nth i ids 0 :: rest)
  end.

Definition random_choice (ids : list Z) (size : nat) : M (list Z) :=
  match ids, size with
  | [], S _ => m_lift (Raise ValueError)
  | _, _ => draws ids size
  end.

(** *** [write_edge_vol] and [write_final_vol] *)

Definition to_vol_row (e : edge) : vol_row :=
  {| vr_uniqueid := uniqueid e;
     vr_start_nid := start_nid e;
     vr_end_nid := end_nid e;
     vr_capacity := capacity e;
     vr_veh_current := veh_current e;
     vr_vol_true := vol_true e;
     vr_vol_tot := vol_tot e;
     vr_flow := flow e;
     vr_t_avg := t_avg e |}.

Definition to_final_vol_row (e : edge) : final_vol_row :=
  {| fv_uniqueid := uniqueid e;
     fv_start_nid := start_nid e;
     fv_end_nid := end_nid e;
     fv_vol_tot := vol_tot e |}.

(** What [write_edge_vol] writes for a frame that has the column [flow]. *)
Definition edge_vol_content (edges_df : list edge) : list vol_row :=
  if (length edges_df <? 10)%nat then map to_vol_row edges_df
  else map to_vol_row (List.filter (fun e => 0 <? vol_true e) edges_df).

Definition write_edge_vol (edges_df : edges_table) (quarter hour : Z) : M unit :=
  if has_flow edges_df
  then m_write (EdgeVolFile hour quarter (edge_vol_content (rows edges_df)))
  else m_ret tt.

Definition final_vol_content (edges_df : list edge) : list final_vol_row :=
  map to_final_vol_row (List.filter (fun e => 0 <? vol_tot e) edges_df).

Definition write_final_vol (edges_df : edges_table) (quarter hour : Z) : M unit :=
  m_write (FinalEdgeVolFile hour quarter (final_vol_content (rows edges_df))).

(** *** [assignment] *)

Section AssignmentLoop.
Variable k : Assignment.args.

(** Lines 624-629. *)
Definition quarter_counts_of : Z :=
  match Assignment.quarter_list k with
  | None => 4
  | Some l => Z.of_nat (length l)
  end.

Definition quarter_ids : list Z := range quarter_counts_of.

(** Lines 669-671: [quarter_list], once [None] has been replaced. *)
Definition quarters : list Z :=
  match Assignment.quarter_list k with
  | None => quarter_ids
  | Some l => l
  end.

(** Lines 743-786: the arguments of the invocation in substep [ss_id]. *)
Definition substep_args (hour quarter quarter_demand : Z)
    (od_ss : list agent) (ss_id : Z) (s : loop_vars) : Substep.args :=
  {| Substep.nodes_df := Assignment.nodes_df k;
     Substep.weighted_edges_df := rows (lv_edges_df s);
     Substep.od_ss := od_ss;
     Substep.quarter_demand := quarter_demand;
     Substep.assigned_demand := lv_assigned_demand s;
     Substep.quarter_counts := quarter_counts_of;
     Substep.trip_info := lv_trip_info s;
     Substep.agent_time_limit := Assignment.agent_time_limit k;
     Substep.sample_interval := Assignment.sample_interval k;
     Substep.hour := hour;
     Substep.quarter := quarter;
     Substep.ss_id := ss_id;
     Substep.alpha_f := Assignment.alpha_f k;
     Substep.beta_f := Assignment.beta_f k |}.

(** The arguments that every invocation takes over from [assignment]. *)
Definition configured (c : Substep.args) : Prop :=
  Substep.nodes_df c = Assignment.nodes_df k
  /\ Substep.quarter_counts c = quarter_counts_of
  /\ Substep.agent_time_limit c = Assignment.agent_time_limit k
  /\ Substep.sample_interval c = Assignment.sample_interval k
  /\ Substep.alpha_f c = Assignment.alpha_f k
  /\ Substep.beta_f c = Assignment.beta_f k.

Definition with_assigned_demand (n : Z) (s : loop_vars) : loop_vars :=
  {| lv_edges_df := lv_edges_df s;
     lv_trip_info := lv_trip_info s;
     lv_od_residual_list := lv_od_residual_list s;
     lv_assigned_demand := n;
     lv_hour := lv_hour s;
     lv_quarter := lv_quarter s |}.

(** Lines 735-799: one iteration of [for ss_id in substep_ids]. *)
Definition substep_iteration (hour quarter quarter_demand : Z)
    (od_quarter : list (agent * Z)) (ss_id : Z) (s : loop_vars)
    : M loop_vars :=
  let od_ss :=
    map fst (List.filter (fun az => bool_decide (snd az = ss_id)) od_quarter) in
  let s :=
    with_assigned_demand (lv_assigned_demand s + Z.of_nat (length od_ss)) s in
  if decide (lv_assigned_demand s = 0) then m_ret s
  else
    let c := substep_args hour quarter quarter_demand od_ss ss_id s in
    let* _ := m_called c in
    let* out := m_lift (substep_assignment c) in
    let '(new_edges_df, od_residual_ss, trip_info') := out in
    m_ret {| lv_edges_df := new_edges_df;
             lv_trip_info := trip_info';
             lv_od_residual_list := lv_od_residual_list s ++ od_residual_ss;
             lv_assigned_demand := lv_assigned_demand s;
             lv_hour := lv_hour s;
             lv_quarter := lv_quarter s |}.

(** Lines 671-810: one iteration of [for quarter in quarter_list]. *)
Definition quarter_iteration (hour : Z) (od_hour : list od_row)
    (quarter : Z) (s : loop_vars) : M loop_vars :=
  let od_new :=
    map new_agent
        (List.filter (fun od => bool_decide (od_quarter od = quarter)) od_hour) in
  let od_quarter :=
    List.filter (fun a => negb (bool_decide (current_nid a = destin_nid a)))
                (od_new ++ lv_od_residual_list s) in
  let quarter_demand := Z.of_nat (length od_quarter) in
  if decide (Assignment.substep_size k = 0) then m_lift (Raise ZeroDivisionError)
  else
    let substep_counts :=
      Z.max 1 (quarter_demand / Assignment.substep_size k + 1) in
    let substep_ids := range substep_counts in
    let* od_substep_msk := random_choice substep_ids (length od_quarter) in
    let* s' :=
      for_each substep_ids
        (substep_iteration hour quarter quarter_demand
           (zip od_quarter od_substep_msk))
        {| lv_edges_df :=
             {| has_flow := has_flow (lv_edges_df s);
                rows := map (with_vol_true 0) (rows (lv_edges_df s)) |};
           lv_trip_info := lv_trip_info s;
           lv_od_residual_list := [];
           lv_assigned_demand := 0;
           lv_hour := lv_hour s;
           lv_quarter := Some quarter |} in
    let edges_df :=
      {| has_flow := has_flow (lv_edges_df s');
         rows := map (fun e => with_vol_tot (vol_tot e + vol_true e) e)
                     (rows (lv_edges_df s')) |} in
    let* _ := write_edge_vol edges_df quarter hour in
    m_ret {| lv_edges_df := edges_df;
             lv_trip_info := lv_trip_info s';
             lv_od_residual_list := lv_od_residual_list s';
             lv_assigned_demand := lv_assigned_demand s';
             lv_hour := lv_hour s';
             lv_quarter := lv_quarter s' |}.

(** Lines 641-651: closures in a closure hour, the normal values otherwise. *)
Definition hour_edges (hour : Z) (edges_df : edges_table) : edges_table :=
  {| has_flow := has_flow edges_df;
     rows := if bool_decide (hour ∈ default [] (Assignment.closure_hours k))
             then apply_closures (Assignment.closed_links k) (rows edges_df)
             else restore_normal (rows edges_df) |}.

(** Lines 639-845: one iteration of [for hour in hour_list]; [od_all] is
    the table already without the trips that have no path. *)
Definition hour_iteration (od_all : od_table) (hour : Z) (s : loop_vars)
    : M loop_vars :=
  let od_hour :=
    List.filter (fun od => bool_decide (od_hour od = hour)) (od_rows od_all) in
  let* od_hour :=
    if has_quarter od_all then m_ret od_hour
    else
      let* od_quarter_msk := random_choice quarter_ids (length od_hour) in
      m_ret (zip_with with_quarter od_hour od_quarter_msk) in
  let* s' :=
    for_each quarters (quarter_iteration hour od_hour)
      {| lv_edges_df := hour_edges hour (lv_edges_df s);
         lv_trip_info := lv_trip_info s;
         lv_od_residual_list := lv_od_residual_list s;
         lv_assigned_demand := lv_assigned_demand s;
         lv_hour := Some hour;
         lv_quarter := lv_quarter s |} in
  let* _ :=
    if decide (hour mod 3 = 0)
    then m_write (TripInfoCheckpoint hour (trip_rows (lv_trip_info s')))
    else m_ret tt in
  m_ret s'.

(** Lines 589-605: the initial routing on the free-flow network without
    the closed links. *)
Definition initial_net : network :=
  {| net_nodes := Assignment.nodes_df k;
     net_edges :=
       map (fun e => (start_nid e, end_nid e, fft e))
           (List.filter
              (fun e => negb (bool_decide (uniqueid e ∈ Assignment.closed_links k)))
              (rows (Assignment.edges_df k))) |}.

Definition initial_path (od : od_row) : list Z :=
  shortest_path initial_net (od_origin_nid od) (od_destin_nid od).

(** The rows of [od_all] paired with their path. *)
Definition initial_paths : list (list Z * od_row) :=
  map (fun od => (initial_path od, od)) (od_rows (Assignment.od_all k)).

Definition has_no_path (po : list Z * od_row) : bool :=
  (length (fst po) =? 0)%nat.

(** [od_all.iloc[no_path_ind]] *)
Definition od_no_path : list od_row :=
  map snd (List.filter has_no_path initial_paths).

(** [od_all.drop(no_path_ind)] *)
Definition od_with_path : od_table :=
  {| has_quarter := has_quarter (Assignment.od_all k);
     od_rows :=
       map snd (List.filter (fun po => negb (has_no_path po)) initial_paths) |}.

(** Lines 608-620.  The comprehension reads [od.quarter] of every row:
    without that column the first row raises. *)
Definition initial_trip_info (od_all : od_table)
    : result (PyDict.t trip_key trip_value) :=
  match has_quarter od_all, od_rows od_all with
  | false, _ :: _ => Raise AttributeError
  | _, l => Ok (PyDict.comprehension od_key initial_trip l)
  end.

(** Lines 631-635. *)
Definition initial_vars (trip_info0 : PyDict.t trip_key trip_value) : loop_vars :=
  {| lv_edges_df :=
       {| has_flow := has_flow (Assignment.edges_df k);
          rows := map (fun e => with_veh_current 0 (with_vol_tot 0 e))
                      (rows (Assignment.edges_df k)) |};
     lv_trip_info := trip_info0;
     lv_od_residual_list := [];
     lv_assigned_demand := 0;
     lv_hour := None;
     lv_quarter := None |}.

(** Lines 849-892: the final trip table. *)
Definition final_trip_table (trip_info_ : PyDict.t trip_key trip_value)
    : list trip_row :=
  trip_rows trip_info_ ++ map no_path_row od_no_path.

(** Lines 637-845: the loop over the hours. *)
Definition simulation (trip_info0 : PyDict.t trip_key trip_value) : M loop_vars :=
  for_each (Assignment.hour_list k) (hour_iteration od_with_path)
           (initial_vars trip_info0).

(** Lines 847-905: the trip table and the final volumes. *)
Definition write_results (s : loop_vars) : M unit :=
  let* _ := m_write (TripInfoFile (final_trip_table (lv_trip_info s))) in
  let* quarter := m_lift (of_option (lv_quarter s) UnboundLocalError) in
  let* hour := m_lift (of_option (lv_hour s) UnboundLocalError) in
  write_final_vol (lv_edges_df s) quarter hour.

Definition assignment : M unit :=
  let* trip_info0 := m_lift (initial_trip_info od_with_path) in
  let* s := simulation trip_info0 in
  write_results s.

End AssignmentLoop.

(** *** [system_performance] (lines 907-997) *)

Definition system_performance (network_edges : list edge_csv)
    (network_nodes : list node_csv) (closed_edges_file : list Z)
    (demand_file : od_table) : M unit :=
  let hour_list := range_from 6 9 in
  let quarter_list := [0; 1; 2; 3; 4; 5] in
  let closure_hours := hour_list in
  let* loaded :=
    m_lift (load_network network_edges network_nodes closed_edges_file) in
  let '(edges_df, nodes_df) := loaded in
  assignment {| Assignment.substep_size := 30000;
                Assignment.edges_df := edges_df;
                Assignment.nodes_df := nodes_df;
                Assignment.od_all := demand_file;
                Assignment.hour_list := hour_list;
                Assignment.quarter_list := Some quarter_list;
                Assignment.closure_hours := Some closure_hours;
                Assignment.closed_links := closed_edges_file;
                Assignment.agent_time_limit := None;
                Assignment.sample_interval := 1;
                Assignment.alpha_f := 0.3;
                Assignment.beta_f := 4 |}.

(** A run starts with nothing written. *)
Definition initial_world (g : rng) : world :=
  {| generator := g; written := []; calls := [] |}.

End Engine.


(** ** A small concrete instance of the external libraries *)

Module Toy.

(** A router for networks in which every wanted path is a single edge: the
    path [[o; d]] when the edge [o -> d] is in the network, no path
    otherwise. *)
Definition direct_path (net : network) (o d : Z) : list Z :=
  if bool_decide ((o, d) ∈ map fst (net_edges net)) then [o; d] else [].

Definition direct_length (net : network) (o d : Z) : Q :=
  match List.find (fun e => bool_decide (fst e = (o, d))) (net_edges net) with
  | Some e => snd e
  | None => 4294967.295
  end.

Definition router : Pandana :=
  {| shortest_path := direct_path; shortest_path_length := direct_length |}.

(** A generator whose state is the list of the draws to come (zero once
    the list is exhausted). *)
Definition tape_draw (g : list nat) (bound : nat) : nat * list nat :=
  match g with
  | [] => (O, [])
  | i :: g' => (i, g')
  end.

Definition tape : NumpyRandom := {| rng := list nat; rng_draw := tape_draw |}.

(** A network of one edge, 1 -> 2, driven at 22.3694 mph: a hundred
    metres take ten seconds. *)
Definition edges_file (metres : Q) : list edge_csv :=
  [ {| csv_uniqueid := 7; csv_length := metres; csv_maxspeed := 22.3694;
       csv_capacity := 1000; csv_start_nid := 1; csv_end_nid := 2 |} ].

Definition nodes_file : list node_csv :=
  [ {| node_id := 1; lon := 0; lat := 0 |};
    {| node_id := 2; lon := 1; lat := 0 |} ].

Definition loaded (metres : Q) : edges_table * list Z :=
  match load_network (edges_file metres) nodes_file [] with
  | Ok p => p
  | Raise _ => ({| has_flow := false; rows := [] |}, [])
  end.

Definition trip (agent hour : Z) : od_row :=
  {| od_agent_id := agent; od_origin_nid := 1; od_destin_nid := 2;
     od_hour := hour; od_quarter := 0 |}.

(** The arguments [system_performance] gives to [assignment] for this
    network, with the demand [od] and no closed link, but for
    [substep_size], which it leaves at 30000. *)
Definition run_args (substep_size : Z) (metres : Q) (od : list od_row)
    : Assignment.args :=
  {| Assignment.substep_size := substep_size;
     Assignment.edges_df := fst (loaded metres);
     Assignment.nodes_df := snd (loaded metres);
     Assignment.od_all := {| has_quarter := true; od_rows := od |};
     Assignment.hour_list := range_from 6 9;
     Assignment.quarter_list := Some [0; 1; 2; 3; 4; 5];
     Assignment.closure_hours := Some (range_from 6 9);
     Assignment.closed_links := [];
     Assignment.agent_time_limit := None;
     Assignment.sample_interval := 1;
     Assignment.alpha_f := 0.3;
     Assignment.beta_f := 4 |}.

(** An invocation of [substep_assignment] for one agent that the previous
    quarter left in front of the edge 1 -> 2, now of 700 seconds, with its
    600 seconds unused. *)
Definition waiting_agent : agent :=
  {| agent_id := 5; origin_nid := 1; destin_nid := 2; current_nid := 1;
     current_link := Some (1, 2); current_link_time := 600 |}.

Definition slow_edge : edge :=
  {| uniqueid := 7; start_nid := 1; end_nid := 2;
     fft := 700; capacity := 1000; normal_fft := 700; normal_capacity := 1000;
     vol_true := 0; vol_tot := 0; veh_current := 1; flow := 0; t_avg := 700 |}.

Definition second_quarter : Substep.args :=
  {| Substep.nodes_df := [1; 2];
     Substep.weighted_edges_df := [slow_edge];
     Substep.od_ss := [waiting_agent];
     Substep.quarter_demand := 1;
     Substep.assigned_demand := 1;
     Substep.quarter_counts := 6;
     Substep.trip_info :=
       [((5, 1, 2),
         {| travel_time := 600; travel_time_used := 0; stop_nid := 1;
            stop_hour := 6; stop_quarter := 0; stop_ssid := 0 |})];
     Substep.agent_time_limit := None;
     Substep.sample_interval := 1;
     Substep.hour := 6;
     Substep.quarter := 1;
     Substep.ss_id := 0;
     Substep.alpha_f := 0.3;
     Substep.beta_f := 4 |}.

(** Two states of the tape generator from which the same draws come. *)
Definition same_draws (g1 g2 : list nat) : Prop :=
  forall i, nth i g1 O = nth i g2 O.

Definition is_trip_file (f : file) : bool :=
  match f with
  | TripInfoFile _ => true
  | _ => false
  end.

(** A batch of two agents on the network 1 -> 2: the first goes from 1 to
    2, the second stands at 2 and wants to go to 1, which no open edge
    allows. *)
Definition mover : agent :=
  {| agent_id := 5; origin_nid := 1; destin_nid := 2; current_nid := 1;
     current_link := None; current_link_time := 0 |}.

Definition stuck : agent :=
  {| agent_id := 9; origin_nid := 3; destin_nid := 1; current_nid := 2;
     current_link := None; current_link_time := 0 |}.

Definition fast_edge : edge :=
  {| uniqueid := 7; start_nid := 1; end_nid := 2;
     fft := 10; capacity := 1000; normal_fft := 10; normal_capacity := 1000;
     vol_true := 0; vol_tot := 0; veh_current := 0; flow := 0; t_avg := 10 |}.

Definition batch (agents : list agent) : Substep.args :=
  {| Substep.nodes_df := [1; 2; 3];
     Substep.weighted_edges_df := [fast_edge];
     Substep.od_ss := agents;
     Substep.quarter_demand := 2;
     Substep.assigned_demand := 2;
     Substep.quarter_counts := 6;
     Substep.trip_info :=
       [((5, 1, 2),
         {| travel_time := 0; travel_time_used := 0; stop_nid := 1;
            stop_hour := 0; stop_quarter := 6; stop_ssid := 0 |});
        ((9, 3, 1),
         {| travel_time := 600; travel_time_used := 40; stop_nid := 2;
            stop_hour := 6; stop_quarter := 0; stop_ssid := 0 |})];
     Substep.agent_time_limit := None;
     Substep.sample_interval := 1;
     Substep.hour := 6;
     Substep.quarter := 1;
     Substep.ss_id := 0;
     Substep.alpha_f := 0.3;
     Substep.beta_f := 4 |}.

End Toy.

(** ** Trips without a path (claim C5) *)

(** The arguments [k] with the trips that have no path taken out of the
    demand table beforehand. *)
Definition without_no_path `{Pandana} (k : Assignment.args) : Assignment.args :=
  {| Assignment.substep_size := Assignment.substep_size k;
     Assignment.edges_df := Assignment.edges_df k;
     Assignment.nodes_df := Assignment.nodes_df k;
     Assignment.od_all := od_with_path k;
     Assignment.hour_list := Assignment.hour_list k;
     Assignment.quarter_list := Assignment.quarter_list k;
     Assignment.closure_hours := Assignment.closure_hours k;
     Assignment.closed_links := Assignment.closed_links k;
     Assignment.agent_time_limit := Assignment.agent_time_limit k;
     Assignment.sample_interval := Assignment.sample_interval k;
     Assignment.alpha_f := Assignment.alpha_f k;
     Assignment.beta_f := Assignment.beta_f k |}.

(** The written file [f] with the rows [extra] appended if it is the final
    trip table. *)
Definition append_rows (extra : list trip_row) (f : file) : file :=
  match f with
  | TripInfoFile content => TripInfoFile (content ++ extra)
  | _ => f
  end.

(** The final trip table [f] has the sentinel row of the trip [od]. *)
Definition has_sentinel_row (od : od_row) (f : file) : Prop :=
  match f with
  | TripInfoFile content =>
      {| row_agent_id := od_agent_id od;
         row_origin_nid := od_origin_nid od;
         row_destin_nid := od_destin_nid od;
         row_travel_time := 360000;
         row_travel_time_used := None;
         row_stop_nid := None;
         row_stop_hour := None;
         row_stop_quarter := None;
         row_stop_ssid := None |} ∈ content
  | _ => True
  end.

(** ** An agent whose path is empty (claim C8) *)

(** What [route_agent] returns for an agent [a] with an empty path, when
    [old] is the agent's entry of [trip_info]: nothing is walked, the
    residual list is untouched, the entry gets the quarter slice added and
    the value of [trip_stop] that the agents before left. *)
Definition empty_path_outcome (k : Substep.args) (a : agent) (s : ss_vars)
    (old : trip_value) : result ss_vars :=
  match trip_stop s with
  | None => Raise UnboundLocalError
  | Some stop =>
      Ok {| remaining_time :=
              (3600 / inject_Z (Substep.quarter_counts k)
               + current_link_time a)%Q;
            used_time := 0;
            edge_quarter_vol := edge_quarter_vol s;
            edge_current_vehicles := edge_current_vehicles s;
            trip_stop := Some stop;
            od_residual_ss_list := od_residual_ss_list s;
            trip_info :=
              PyDict.set (agent_key a)
                {| travel_time :=
                     (travel_time old
                      + 3600 / inject_Z (Substep.quarter_counts k))%Q;
                   travel_time_used := (travel_time_used old + 0)%Q;
                   stop_nid := stop;
                   stop_hour := Substep.hour k;
                   stop_quarter := Substep.quarter k;
                   stop_ssid := Substep.ss_id k |}
                (trip_info s) |}
  end.

(** ** The walk, as claim C1 is amended *)

(** What the walk of agent [a] along [path] makes of the variables [s],
    giving [s']: the agent gets through the edges [traversed] within the
    budget, each of them counted once more in the quarter volume, and, when
    that is not the whole path, is appended to the residual list in front
    of the next edge, with the budget it has left. *)
Definition walked `{Pandana} (k : Substep.args) (path : list Z) (a : agent)
    (s s' : ss_vars) : Prop :=
  let times := edge_travel_time_dict k in
  let budget :=
    (3600 / inject_Z (Substep.quarter_counts k) + current_link_time a)%Q in
  let done := traversed times budget (hops path) in
  (exists rest, hops path = done ++ rest)
  /\ (forall i e, done !! i = Some e ->
        exists t, times !! e = Some t
          /\ (t < foldl (fun r e' => r - time_on times e') budget (take i done))%Q
          /\ (t < closed_time)%Q)
  /\ used_time s' = foldl (fun r e => r + time_on times e)%Q 0%Q done
  /\ remaining_time s' = foldl (fun r e => r - time_on times e)%Q budget done
  /\ (forall e,
        edge_quarter_vol s' !! e =
        (fun x => x + Z.of_nat (length (filter (fun e' => e' = e) done))
                      * Substep.sample_interval k)
          <$> edge_quarter_vol s !! e)
  /\ match drop (length done) (hops path) with
     | [] => od_residual_ss_list s' = od_residual_ss_list s
     | edge :: _ =>
         od_residual_ss_list s' =
           od_residual_ss_list s ++ [residual_at a edge (remaining_time s')]
         /\ exists t, edge_travel_time_dict k !! edge = Some t
              /\ ~ ((t < remaining_time s')%Q /\ (t < closed_time)%Q)
     end.


(** ** What the claims say, as predicates *)

(** The columns that only the closures and their removal assign. *)
Definition static (e : edge) : Z * Q * Q * Q * Q :=
  (uniqueid e, fft e, capacity e, normal_fft e, normal_capacity e).

(** What the closure policy of [assignment] asks of a frame in hour
    [hour]. *)
Definition closure_state (k : Assignment.args) (hour : Z) (df : list edge) : Prop :=
  if bool_decide (hour ∈ default [] (Assignment.closure_hours k))
  then Forall (fun e => uniqueid e ∈ Assignment.closed_links k ->
                        capacity e = 1%Q /\ fft e = closed_time) df
  else Forall (fun e => capacity e = normal_capacity e /\ fft e = normal_fft e) df.

(** What claim C10 says of a written file, for a network of [n] edges. *)
Definition volumes_filtered (n : nat) (f : file) : Prop :=
  match f with
  | EdgeVolFile _ _ content =>
      (10 <= n)%nat -> Forall (fun r => 0 < vr_vol_true r) content
  | FinalEdgeVolFile _ _ content => Forall (fun r => 0 < fv_vol_tot r) content
  | _ => True
  end.

(** An edge as the engine expects it. *)
Definition well_formed (e : edge) : Prop :=
  (1 <= capacity e)%Q /\ (1 <= normal_capacity e)%Q
  /\ (0 <= fft e)%Q /\ (0 <= normal_fft e)%Q /\ 0 <= vol_true e.

(** What claim C2 says of a row [r] of the frame that an invocation with
    the arguments [c] returns; the travel time is the rounded one. *)
Definition restrained (c : Substep.args) (r : edge) : Prop :=
  flow r = extrapolated_flow (Substep.quarter_demand c) (Substep.assigned_demand c)
             (Substep.quarter_counts c) (vol_true r)
  /\ t_avg r = round2 (clamp_closed (bpr (Substep.alpha_f c) (Substep.beta_f c)
                                         (fft r) (flow r) (capacity r)))
  /\ (1 <= capacity r)%Q
  /\ (0 <= t_avg r)%Q /\ (t_avg r <= closed_time)%Q.

(** The agent goes with a trip of the demand that has a path. *)
Definition of_routable_trip `{Pandana} (k : Assignment.args) (a : agent) : Prop :=
  exists od, od ∈ od_rows (od_with_path k) /\ agent_key a = od_key od.

(** The final trip table is the rows of [trip_info] followed by the
    sentinel rows. *)
Definition trip_table_shape `{Pandana} (k : Assignment.args) (f : file) : Prop :=
  match f with
  | TripInfoFile content => exists ti, content = final_trip_table k ti
  | _ => True
  end.

(** The keys of [trip_info] are the distinct keys of the trips with a
    path. *)
Definition keyed_by_trips `{Pandana} (k : Assignment.args)
    (ti : PyDict.t trip_key trip_value) : Prop :=
  NoDup (PyDict.keys ti)
  /\ forall key, key ∈ PyDict.keys ti <-> key ∈ map od_key (od_rows (od_with_path k)).

(** How many rows of a written final trip table have the key [key]: one if
    some trip with a path has that key, and one more for every trip
    without a path that has it. *)
Definition rows_per_key `{Pandana} (k : Assignment.args) (f : file) : Prop :=
  match f with
  | TripInfoFile content =>
      forall key,
        length (filter (fun r => row_key r = key) content)
        = ((if decide (key ∈ map od_key (od_rows (od_with_path k))) then 1 else 0)
           + length (filter (fun od => od_key od = key) (od_no_path k)))%nat
  | _ => True
  end.

(** The invariants of a run.  [calls_and_files_ok CallOk FileOk]: every
    invocation of [substep_assignment] made so far satisfies [CallOk] and
    every file written so far satisfies [FileOk].  [loop_vars_ok EI TI RI]:
    the edge frame satisfies [EI] for the current hour, [trip_info]
    satisfies [TI] and every residual agent satisfies [RI]. *)
Definition calls_and_files_ok `{NumpyRandom} (CallOk : Substep.args -> Prop)
    (FileOk : file -> Prop) (w : world) : Prop :=
  Forall CallOk (calls w) /\ Forall FileOk (written w).

Definition loop_vars_ok (EI : option Z -> edges_table -> Prop)
    (TI : PyDict.t trip_key trip_value -> Prop) (RI : agent -> Prop)
    (s : loop_vars) : Prop :=
  EI (lv_hour s) (lv_edges_df s)
  /\ TI (lv_trip_info s)
  /\ Forall RI (lv_od_residual_list s).

(** Two worlds with the same files and invocations, and generator states
    related by [R]; two computations that return or raise alike and keep
    such worlds so. *)
Definition same_world (G1 G2 : NumpyRandom) (R : @rng G1 -> @rng G2 -> Prop)
    (w1 : @world G1) (w2 : @world G2) : Prop :=
  R (generator w1) (generator w2)
  /\ written w1 = written w2
  /\ calls w1 = calls w2.

Definition related (G1 G2 : NumpyRandom) (R : @rng G1 -> @rng G2 -> Prop)
    {A} (m1 : @M G1 A) (m2 : @M G2 A) : Prop :=
  forall w1 w2, same_world G1 G2 R w1 w2 ->
    fst (m1 w1) = fst (m2 w2) /\ same_world G1 G2 R (snd (m1 w1)) (snd (m2 w2)).

(** * Further definitions

    What the statements about the engine, about the loading of the network
    and about the damage states are written with. *)

(** ** The engine *)

(** The agents of [od_quarter] whose substep is [ss_id]
    ([od_quarter[od_quarter['ss_id'] == ss_id]], line 743). *)
Definition batch_of (od_quarter : list (agent * Z)) (ss_id : Z) : list agent :=
  map fst (List.filter (fun az => bool_decide (snd az = ss_id)) od_quarter).

(** [od_quarter] of lines 673-707: the trips of the hour that start in
    [quarter], then the agents in flight, without those that stand at their
    destination. *)
Definition quarter_agents (od_hour : list od_row) (quarter : Z)
    (od_residual_list : list agent) : list agent :=
  List.filter (fun a => negb (bool_decide (current_nid a = destin_nid a)))
    (map new_agent
         (List.filter (fun od => bool_decide (od_quarter od = quarter)) od_hour)
     ++ od_residual_list).

(** An agent that [assignment] hands to [substep_assignment] is away from
    its destination. *)
Definition en_route (a : agent) : Prop := current_nid a <> destin_nid a.

(** The order of a frame sorted by [fft], largest first (line 948). *)
Definition slower_first (a b : edge) : Prop := (fft b <= fft a)%Q.

(** An agent with a link to wait for and time in hand. *)
Definition waiting (a : agent) : Prop :=
  (0 < current_link_time a)%Q
  /\ exists edge, current_link a = Some edge /\ current_nid a = fst edge.

(** An agent as [assignment] hands it to [substep_assignment]: a trip that
    starts, with no current link and no time carried over, or an agent left
    in front of its current link with time in hand. *)
Definition carries_time (a : agent) : Prop :=
  match current_link a with
  | None => current_link_time a = 0%Q
  | Some edge => (0 < current_link_time a)%Q /\ current_nid a = fst edge
  end.

(** The columns that identify an edge. *)
Definition edge_ident (e : edge) : Z * Z * Z := (uniqueid e, start_nid e, end_nid e).

(** A per-quarter volume file with one row for every edge of the frame
    [df], in the order of the frame. *)
Definition lists_every_edge (df : list edge) (f : file) : Prop :=
  match f with
  | EdgeVolFile _ _ content =>
      map (fun r => (vr_uniqueid r, vr_start_nid r, vr_end_nid r)) content
      = map edge_ident df
  | _ => True
  end.

(** The row of a trip with a path that no substep has routed: the entry
    that lines 608-620 make for it, read with the column names of lines
    828-838; the hour of the trip is under [stop_quarter] and its quarter
    under [stop_ssid]. *)
Definition initial_row (od : od_row) : trip_row :=
  {| row_agent_id := od_agent_id od;
     row_origin_nid := od_origin_nid od;
     row_destin_nid := od_destin_nid od;
     row_travel_time := 0;
     row_travel_time_used := Some 0%Q;
     row_stop_nid := Some (od_origin_nid od);
     row_stop_hour := Some 0;
     row_stop_quarter := Some (od_hour od);
     row_stop_ssid := Some (od_quarter od) |}.

(** The trip table [f] has exactly one row with the key [key], and it is
    the initial row of a trip with that key. *)
Definition only_initial_row `{Pandana} (k : Assignment.args) (key : trip_key)
    (f : file) : Prop :=
  match f with
  | TripInfoCheckpoint _ content | TripInfoFile content =>
      exists od, od ∈ od_rows (od_with_path k) /\ od_key od = key
                 /\ filter (fun r => row_key r = key) content = [initial_row od]
  | _ => True
  end.

(** In a per-quarter volume file, the volume of the quarter is part of the
    cumulative volume. *)
Definition volumes_accumulate (f : file) : Prop :=
  match f with
  | EdgeVolFile _ _ content =>
      Forall (fun r => 0 <= vr_vol_true r <= vr_vol_tot r) content
  | _ => True
  end.

(** The invocations made since the history was [cs] have had, together,
    the agents [agents], and all of them the quarter demand [demand]. *)
Definition routed_since `{NumpyRandom} (cs : list Substep.args)
    (agents : list agent) (demand : Z) (w : world) : Prop :=
  exists new_calls,
    calls w = cs ++ new_calls
    /\ concat (map Substep.od_ss new_calls) = agents
    /\ Forall (fun c => Substep.quarter_demand c = demand) new_calls.

(** A checkpoint of [trip_info]. *)
Definition is_checkpoint (f : file) : Prop :=
  match f with
  | TripInfoCheckpoint _ _ => True
  | _ => False
  end.

(** Nothing but checkpoints of [trip_info] has been written, and no
    substep has run. *)
Definition idle `{NumpyRandom} (w : world) : Prop :=
  calls w = [] /\ Forall is_checkpoint (written w).

(** No quarter has been entered, and [trip_info] is still [ti0]. *)
Definition unstarted (ti0 : PyDict.t trip_key trip_value) (s : loop_vars) : Prop :=
  lv_quarter s = None /\ lv_trip_info s = ti0.

(** A router that answers with paths along the edges of the network it
    was built from. *)
Definition routes_along_edges (P : Pandana) : Prop :=
  forall net o d,
    Forall (fun h => h ∈ map fst (net_edges net)) (hops (@shortest_path P net o d)).

(** In a closure hour, the closed links have no volume in a per-quarter
    volume file. *)
Definition closed_links_idle (k : Assignment.args) (f : file) : Prop :=
  match f with
  | EdgeVolFile hour _ content =>
      hour ∈ default [] (Assignment.closure_hours k) ->
      Forall (fun r => vr_uniqueid r ∈ Assignment.closed_links k -> vr_vol_true r = 0)
             content
  | _ => True
  end.

(** ** More sample inputs *)

Module Sample.

(** Two agents with the same [agent_id], as [update_od_file] numbers the
    trips it adds: the first has the edge 1 -> 2 in front of it, ten
    seconds long, the second wants to go from 2 to 1, which the router
    answers with its largest length. *)
Definition short_trip : agent :=
  {| agent_id := 0; origin_nid := 1; destin_nid := 2; current_nid := 1;
     current_link := None; current_link_time := 0 |}.

Definition long_trip : agent :=
  {| agent_id := 0; origin_nid := 2; destin_nid := 1; current_nid := 2;
     current_link := None; current_link_time := 0 |}.

Definition limited : Substep.args :=
  {| Substep.nodes_df := [1; 2];
     Substep.weighted_edges_df := [Toy.fast_edge];
     Substep.od_ss := [short_trip; long_trip];
     Substep.quarter_demand := 2;
     Substep.assigned_demand := 2;
     Substep.quarter_counts := 6;
     Substep.trip_info :=
       [((0, 1, 2),
         {| travel_time := 0; travel_time_used := 0; stop_nid := 1;
            stop_hour := 0; stop_quarter := 6; stop_ssid := 0 |});
        ((0, 2, 1),
         {| travel_time := 0; travel_time_used := 0; stop_nid := 2;
            stop_hour := 0; stop_quarter := 6; stop_ssid := 0 |})];
     Substep.agent_time_limit := Some 100%Q;
     Substep.sample_interval := 1;
     Substep.hour := 6;
     Substep.quarter := 0;
     Substep.ss_id := 0;
     Substep.alpha_f := 0.3;
     Substep.beta_f := 4 |}.

(** The arguments of [Toy.run_args] for one trip, with an empty quarter
    list. *)
Definition no_quarters : Assignment.args :=
  {| Assignment.substep_size := 30000;
     Assignment.edges_df := fst (Toy.loaded 100);
     Assignment.nodes_df := snd (Toy.loaded 100);
     Assignment.od_all := {| has_quarter := true; od_rows := [Toy.trip 5 6] |};
     Assignment.hour_list := range_from 6 9;
     Assignment.quarter_list := Some [];
     Assignment.closure_hours := Some (range_from 6 9);
     Assignment.closed_links := [];
     Assignment.agent_time_limit := None;
     Assignment.sample_interval := 1;
     Assignment.alpha_f := 0.3;
     Assignment.beta_f := 4 |}.

(** Two edges between the nodes 1 and 2 in the same direction, the second
    twice as long as the first. *)
Definition parallel_edges : list edge_csv :=
  [ {| csv_uniqueid := 7; csv_length := 100; csv_maxspeed := 22.3694;
       csv_capacity := 1000; csv_start_nid := 1; csv_end_nid := 2 |};
    {| csv_uniqueid := 8; csv_length := 200; csv_maxspeed := 22.3694;
       csv_capacity := 1000; csv_start_nid := 1; csv_end_nid := 2 |} ].

(** The edge 1 -> 2 and the edge 2 -> 1, the second one closed. *)
Definition two_way : list edge_csv :=
  [ {| csv_uniqueid := 7; csv_length := 100; csv_maxspeed := 22.3694;
       csv_capacity := 1000; csv_start_nid := 1; csv_end_nid := 2 |};
    {| csv_uniqueid := 8; csv_length := 100; csv_maxspeed := 22.3694;
       csv_capacity := 1000; csv_start_nid := 2; csv_end_nid := 1 |} ].

Definition two_way_loaded : edges_table * list Z :=
  match load_network two_way Toy.nodes_file [8] with
  | Ok p => p
  | Raise _ => ({| has_flow := false; rows := [] |}, [])
  end.

(** One trip each way at six o'clock. *)
Definition one_way_closed : Assignment.args :=
  {| Assignment.substep_size := 30000;
     Assignment.edges_df := fst two_way_loaded;
     Assignment.nodes_df := snd two_way_loaded;
     Assignment.od_all :=
       {| has_quarter := true;
          od_rows :=
            [ Toy.trip 5 6;
              {| od_agent_id := 6; od_origin_nid := 2; od_destin_nid := 1;
                 od_hour := 6; od_quarter := 0 |} ] |};
     Assignment.hour_list := range_from 6 9;
     Assignment.quarter_list := Some [0; 1; 2; 3; 4; 5];
     Assignment.closure_hours := Some (range_from 6 9);
     Assignment.closed_links := [8];
     Assignment.agent_time_limit := None;
     Assignment.sample_interval := 1;
     Assignment.alpha_f := 0.3;
     Assignment.beta_f := 4 |}.

End Sample.

(** * The damage states: [__init__] and [system_state] *)

(** ** Python values and the operations on them that [system_state] uses *)

Module Py.

Inductive exn : Set :=
| KeyError
| TypeError
| ValueError
| IndexError.

Inductive outcome (A : Type) : Type :=
| Return (a : A)
| Throw (e : exn).

Arguments Return {A} a.
Arguments Throw {A} e.

Definition bind {A B} (r : outcome A) (k : A -> outcome B) : outcome B :=
  match r with
  | Return a => k a
  | Throw e => Throw e
  end.

Definition of_option {A} (o : option A) (e : exn) : outcome A :=
  match o with
  | Some a => Return a
  | None => Throw e
  end.

(** What [json.load] returns: [None], [bool], [int], [float], [str],
    [list] and [dict] with [str] keys.  The members of a [dict] are kept in
    their order; their keys are distinct in a value that comes from a
    file. *)
#[warnings="-register-all"]
Inductive value : Type :=
| VNone
| VBool (b : bool)
| VInt (z : Z)
| VFloat (q : Q)
| VStr (s : string)
| VList (items : list value)
| VDict (members : list (string * value)).

End Py.

Declare Scope outcome_scope.
Delimit Scope outcome_scope with out.
Notation "'let!' x ':=' r 'in' k" := (Py.bind r (fun x => k))
  (at level 10, x pattern, r at level 100, k at level 200) : outcome_scope.
Section PythonValues.
Import Py.
Local Open Scope outcome_scope.

(** A left fold that stops at the first exception, and a map that does. *)
Fixpoint ofold {X S} (f : X -> S -> outcome S) (xs : list X) (s : S) : outcome S :=
  match xs with
  | [] => Return s
  | x :: xs' => let! s' := f x s in ofold f xs' s'
  end.

Fixpoint omap {X Y} (f : X -> outcome Y) (xs : list X) : outcome (list Y) :=
  match xs with
  | [] => Return []
  | x :: xs' => let! y := f x in let! ys := omap f xs' in Return (y :: ys)
  end.

(** The members of a [dict]: [d[key]] and [d[key] = v]. *)
Fixpoint member (key : string) (members : list (string * value)) : option value :=
  match members with
  | [] => None
  | (k, v) :: rest => if decide (key = k) then Some v else member key rest
  end.

Fixpoint set_member (key : string) (v : value) (members : list (string * value))
    : list (string * value) :=
  match members with
  | [] => [(key, v)]
  | (k, w) :: rest =>
      if decide (key = k) then (k, v) :: rest else (k, w) :: set_member key v rest
  end.

(** The position that the index [i] names in a sequence of length [n]:
    negative indices count from the end. *)
Definition position (i : Z) (n : nat) : outcome nat :=
  if decide (0 <= i < Z.of_nat n) then Return (Z.to_nat i)
  else if decide (- Z.of_nat n <= i < 0) then Return (Z.to_nat (Z.of_nat n + i))
  else Throw IndexError.

(** A [bool] is an [int] where an index is wanted. *)
Definition as_index (key : value) : option Z :=
  match key with
  | VInt i => Some i
  | VBool b => Some (if b then 1 else 0)
  | _ => None
  end.

Definition hashable (v : value) : bool :=
  match v with
  | VList _ | VDict _ => false
  | _ => true
  end.

(** [container[key]] *)
Definition subscript (container key : value) : outcome value :=
  match container with
  | VDict members =>
      match key with
      | VStr s => of_option (member s members) KeyError
      | VList _ | VDict _ => Throw TypeError
      | _ => Throw KeyError
      end
  | VList items =>
      match as_index key with
      | Some i =>
          let! n := position i (length items) in
          of_option (items !! n) IndexError
      | None => Throw TypeError
      end
  | VStr s =>
      match as_index key with
      | Some i =>
          let! n := position i (String.length s) in
          of_option ((fun c => VStr (String c EmptyString)) <$> String.get n s)
                    IndexError
      | None => Throw TypeError
      end
  | _ => Throw TypeError
  end.

(** [container[key] = v] for a [str] key; only a [dict] takes it. *)
Definition store (container : value) (key : string) (v : value) : outcome value :=
  match container with
  | VDict members => Return (VDict (set_member key v members))
  | _ => Throw TypeError
  end.

(** The container once the object that [container[key]] names has become
    [v] (by an assignment inside it). *)
Definition replaced (container key v : value) : outcome value :=
  match container with
  | VDict members =>
      match key with
      | VStr s => Return (VDict (set_member s v members))
      | _ => Throw TypeError
      end
  | VList items =>
      match as_index key with
      | Some i =>
          let! n := position i (length items) in
          Return (VList (<[n := v]> items))
      | None => Throw TypeError
      end
  | _ => Throw TypeError
  end.

(** [for x in v] *)
Definition iterate (v : value) : outcome (list value) :=
  match v with
  | VDict members => Return (map (fun kv => VStr (fst kv)) members)
  | VList items => Return items
  | VStr s =>
      Return (map (fun c => VStr (String c EmptyString)) (String.list_ascii_of_string s))
  | _ => Throw TypeError
  end.

(** [v == 0] *)
Definition equals_zero (v : value) : bool :=
  match v with
  | VInt z => bool_decide (z = 0)
  | VFloat q => Qeq_bool q 0
  | VBool b => negb b
  | _ => false
  end.

(** What the interpreter gives: [int(s)] for a [str] ([None] is
    [ValueError]). *)
Class Builtins : Type := {
  int_of_str : string -> option Z
}.

(** [os.path] *)
Class OsPath : Type := {
  basename : string -> string;
  join : string -> string -> string
}.

(** [int(v)]: a [float] is truncated towards zero. *)
Definition py_int `{Builtins} (v : value) : outcome Z :=
  match v with
  | VInt z => Return z
  | VBool b => Return (if b then 1 else 0)
  | VFloat q => Return (if Qle_bool 0 q then Qfloor q else Qceiling q)
  | VStr s => of_option (int_of_str s) ValueError
  | _ => Throw TypeError
  end.

(** The character ['.'] and [s.split('.')]. *)
Definition dot : Ascii.ascii := Ascii.ascii_of_nat 46.

Fixpoint split_dot (s : string) : list string :=
  match s with
  | EmptyString => [EmptyString]
  | String c rest =>
      if decide (c = dot) then EmptyString :: split_dot rest
      else match split_dot rest with
           | piece :: pieces => String c piece :: pieces
           | [] => [String c EmptyString]
           end
  end.

(** ** The instance *)

(** The attributes that [__init__] sets and [system_state] reads;
    [attribute_maps] holds three imports that the modelled code does not
    use. *)
Record instance : Type := Instance {
  assets : list string;
  csv_files : gmap string string;
  capacity_map : gmap Z value;
  no_identifier : gmap string string;
  network_inventory : option (gmap string string)
}.

(** [__init__]: [None] stands for an argument left out. *)
Definition init (assets_ : option (list string))
    (capacity_map_ : option (gmap Z value))
    (csv_files_ : option (gmap string string))
    (no_identifier_ : option (gmap string string))
    (network_inventory_ : option (gmap string string)) : instance :=
  {| assets := default ["Bridge"; "Roadway"; "Tunnel"]%string assets_;
     capacity_map :=
       default (list_to_map [(0, VInt 1); (1, VInt 1); (2, VInt 1);
                             (3, VInt 0); (4, VInt 0)]) capacity_map_;
     csv_files :=
       default (list_to_map [("network_edges", "edges.csv");
                             ("network_nodes", "nodes.csv");
                             ("edge_closures", "closed_edges.csv");
                             ("od_pairs", "od.csv")]%string) csv_files_;
     no_identifier :=
       default (list_to_map [("Bridge", "StructureNumber");
                             ("Roadway", "TigerOID");
                             ("Tunnel", "TunnelNumber")]%string) no_identifier_;
     network_inventory := network_inventory_ |}.

(** ** [system_state] *)

(** A file that [system_state] writes: the updated det file, the file
    of the closed edges (one [uniqueid] per line), or a file of
    [get_graph_network]. *)
Inductive state_file : Type :=
| DetFile (path : string) (data : value)
| ClosureFile (path : string) (uniqueid : list Z)
| NetworkFile (path : string).

(** [get_graph_network] reads the network inventory with [geopandas] and
    writes the edge and node files: what it raises and writes is the
    library's.  *)
Class Geopandas : Type := {
  get_graph_network : instance -> string -> outcome unit * list state_file
}.

(** Lines 221-242, without the printing. *)
Definition files_exist (files_in_directory filenames : list string) : bool :=
  let missing_files :=
    List.filter (fun filename => negb (bool_decide (filename ∈ files_in_directory)))
                filenames in
  match missing_files with
  | [] => true
  | _ => false
  end.

Section SystemState.
Context `{Builtins} `{OsPath} `{Geopandas}.
Variable self : instance.

(** Lines 267-272: the capacity ratio of an asset. *)
Definition capacity_ratio_of (asset : value) : outcome value :=
  let! r2dres := subscript asset (VStr "R2Dres") in
  let! state := subscript r2dres (VStr "R2Dres_MostLikelyCriticalDamageState") in
  let! damage_state := py_int state in
  of_option (capacity_map self !! damage_state) KeyError.

(** Lines 276-283: the edges that an asset with no capacity closes. *)
Definition closed_by (asset_type : string) (aim_id general_information : value)
    : outcome (list Z) :=
  if decide (asset_type = "Roadway"%string)
  then let! n := py_int aim_id in Return [n]
  else if decide (asset_type = "Bridge"%string \/ asset_type = "Tunnel"%string)
  then
    let! carried_edges := subscript general_information (VStr "RoadID") in
    let! xs := iterate carried_edges in
    omap py_int xs
  else Return [].

(** Lines 264-283: one iteration of [for aim_id in datadict]. *)
Definition asset_iteration (asset_type : string) (aim_id : value)
    (s : value * list Z) : outcome (value * list Z) :=
  let '(datadict, closed_edges) := s in
  let! asset := subscript datadict aim_id in
  let! general_information := subscript asset (VStr "GeneralInformation") in
  let! identifier := of_option (no_identifier self !! asset_type) KeyError in
  let! item_id := subscript general_information (VStr identifier) in
  let! capacity_ratio := capacity_ratio_of asset in
  let! _ := if hashable item_id then Return tt else Throw TypeError in
  let! general_information := store general_information "Open" capacity_ratio in
  let! asset := store asset "GeneralInformation" general_information in
  let! datadict := replaced datadict aim_id asset in
  if equals_zero capacity_ratio
  then
    let! closed := closed_by asset_type aim_id general_information in
    Return (datadict, closed_edges ++ closed)
  else Return (datadict, closed_edges).

(** Lines 261-283: one iteration of [for asset_type in self.assets]. *)
Definition asset_type_iteration (asset_type : string) (s : value * list Z)
    : outcome (value * list Z) :=
  let '(data, closed_edges) := s in
  let! datadict := subscript data (VStr asset_type) in
  let! aim_ids := iterate datadict in
  let! s' := ofold (asset_iteration asset_type) aim_ids (datadict, closed_edges) in
  let '(datadict, closed_edges) := s' in
  let! data := replaced data (VStr asset_type) datadict in
  Return (data, closed_edges).

(** Lines 256-283: the updated [data] and [closed_edges], from the parsed
    det file. *)
Definition damage_states (temp : value) : outcome (value * list Z) :=
  let! data := subscript temp (VStr "TransportationNetwork") in
  ofold asset_type_iteration (assets self) (data, []).

(** Lines 286-287. *)
Definition updated_name (initial_state : string) : outcome string :=
  let temp := split_dot (basename initial_state) in
  let! stem := of_option (temp !! 0%nat) IndexError in
  let! extension := of_option (temp !! 1%nat) IndexError in
  Return (stem +:+ "_updated." +:+ extension)%string.

(** Lines 245-252. *)
Definition network_files (files_in_directory : list string)
    (csv_file_dir : string) : outcome unit * list state_file :=
  match csv_files self !! "network_edges"%string with
  | None => (Throw KeyError, [])
  | Some network_edges =>
      if files_exist files_in_directory [network_edges] then (Return tt, [])
      else get_graph_network self csv_file_dir
  end.

(** [system_state], given the names of the files of [csv_file_dir] and the
    parsed content [temp] of the file [initial_state]: what it returns or
    raises, and the files it has written. *)
Definition system_state (files_in_directory : list string) (temp : value)
    (initial_state csv_file_dir : string) : outcome unit * list state_file :=
  match network_files files_in_directory csv_file_dir with
  | (Throw e, written) => (Throw e, written)
  | (Return _, written) =>
      match (let! out := damage_states temp in
             let! name := updated_name initial_state in
             Return (out, name)) with
      | Throw e => (Throw e, written)
      | Return (data, closed_edges, name) =>
          let detfile_updated := DetFile (join csv_file_dir name) data in
          match csv_files self !! "edge_closures"%string with
          | None => (Throw KeyError, written ++ [detfile_updated])
          | Some edge_closures =>
              (Return tt,
               written ++ [detfile_updated;
                           ClosureFile (join csv_file_dir edge_closures)
                                       closed_edges])
          end
      end
  end.

End SystemState.

(** The asset [aim_id] of type [asset_type] in the network [net] of a det
    file. *)
Definition asset_at (net : list (string * value)) (asset_type aim_id : string)
    : option value :=
  match member asset_type net with
  | Some (VDict assets_of_type) => member aim_id assets_of_type
  | _ => None
  end.

(** The asset [asset] of type [asset_type], with the id [aim_id], has no
    capacity left and closes the edge [n]. *)
Definition closes `{Builtins} (self : instance) (asset_type aim_id : string)
    (asset : value) (n : Z) : Prop :=
  exists capacity_ratio general_information edges,
    capacity_ratio_of self asset = Return capacity_ratio
    /\ equals_zero capacity_ratio = true
    /\ subscript asset (VStr "GeneralInformation") = Return general_information
    /\ closed_by asset_type (VStr aim_id) general_information = Return edges
    /\ n ∈ edges.

(** The asset with [capacity_ratio] as the [Open] entry of its
    [GeneralInformation] (line 274). *)
Definition opened (asset capacity_ratio : value) : outcome value :=
  let! general_information := subscript asset (VStr "GeneralInformation") in
  let! general_information := store general_information "Open" capacity_ratio in
  store asset "GeneralInformation" general_information.

(** The det file [temp] has a network of assets by type, and for every
    type of [self.assets] a [dict] of assets. *)
Definition network_of (self : instance) (temp : value)
    (net : list (string * value)) : Prop :=
  subscript temp (VStr "TransportationNetwork") = Return (VDict net)
  /\ forall asset_type, asset_type ∈ assets self ->
       exists assets_of_type,
         member asset_type net = Some (VDict assets_of_type)
         /\ NoDup (map fst assets_of_type).

(** The string has no ['.']. *)
Definition dotless (s : string) : Prop := dot ∉ String.list_ascii_of_string s.

End PythonValues.

(** ** A small concrete instance of the interpreter and the libraries *)

Module ToyState.
Import Py.
Local Open Scope outcome_scope.

(** [int(s)] for the strings of decimal digits. *)
Definition digit (c : Ascii.ascii) : option Z :=
  let n := Z.of_nat (Ascii.nat_of_ascii c) in
  if decide (48 <= n <= 57) then Some (n - 48) else None.

Fixpoint digits (acc : Z) (s : string) : option Z :=
  match s with
  | EmptyString => Some acc
  | String c rest =>
      match digit c with
      | Some d => digits (10 * acc + d) rest
      | None => None
      end
  end.

Definition decimal (s : string) : option Z :=
  match s with
  | EmptyString => None
  | _ => digits 0 s
  end.

Definition builtins : Builtins := {| int_of_str := decimal |}.

(** Paths of one directory level. *)
Definition os_path : OsPath :=
  {| basename := fun path => path;
     join := fun directory name => (directory +:+ "/" +:+ name)%string |}.

Definition geopandas : Geopandas :=
  {| get_graph_network := fun _ csv_file_dir =>
       (Return tt, [NetworkFile (csv_file_dir +:+ "/edges.csv")%string;
                    NetworkFile (csv_file_dir +:+ "/nodes.csv")%string]) |}.

(** A det file with a bridge in damage state 3 that carries the roads 7
    and 8, a roadway in damage state 1, a roadway in damage state
    [state], and no tunnel. *)
Definition asset (identifier : string) (item_id : value) (damage_state : Z)
    (more : list (string * value)) : value :=
  VDict [("GeneralInformation"%string, VDict ((identifier, item_id) :: more));
         ("R2Dres"%string,
          VDict [("R2Dres_MostLikelyCriticalDamageState"%string,
                  VInt damage_state)])].

Definition network (state : Z) : list (string * value) :=
  [("Bridge"%string,
    VDict [("10"%string,
            asset "StructureNumber" (VStr "B-1") 3
                  [("RoadID"%string, VList [VInt 7; VInt 8])])]);
   ("Roadway"%string,
    VDict [("7"%string, asset "TigerOID" (VInt 1007) 1 []);
           ("9"%string, asset "TigerOID" (VInt 1009) state [])]);
   ("Tunnel"%string, VDict [])].

Definition det (state : Z) : value :=
  VDict [("TransportationNetwork"%string, VDict (network state));
         ("Buildings"%string, VDict [])].

Definition self : instance := init None None None None None.

End ToyState.

(** * Properties *)

(** ** Rationals *)

Lemma Qltb_lt (x y : Q) : Qltb x y = true <-> (x < y)%Q.
Proof.
  unfold Qltb. rewrite negb_true_iff.
  split; intros Hxy.
  - apply Qnot_le_lt. intros Hle. apply Qle_bool_iff in Hle. congruence.
  - destruct (Qle_bool y x) eqn:E; [|done].
    apply Qle_bool_iff in E. exfalso. eapply Qlt_not_le; eauto.
Qed.

Lemma Qltb_ge (x y : Q) : Qltb x y = false <-> (y <= x)%Q.
Proof.
  unfold Qltb. rewrite negb_false_iff. apply Qle_bool_iff.
Qed.

Lemma round_half_even_le (x : Q) (z : Z) :
  (x <= inject_Z z)%Q -> round_half_even x <= z.
Proof.
  destruct x as [n d]. unfold Qle, round_half_even. cbn [Qnum Qden inject_Z].
  intros Hle.
  pose proof (Z.div_mod n (Z.pos d) ltac:(lia)) as Hdm.
  pose proof (Z.mod_pos_bound n (Z.pos d) ltac:(lia)) as Hr.
  assert (Hf : n / Z.pos d <= z) by (apply Z.div_le_upper_bound; lia).
  assert (Hs : 0 < n mod Z.pos d -> n / Z.pos d + 1 <= z) by nia.
  destruct (Z.compare_spec (2 * (n mod Z.pos d)) (Z.pos d));
    [destruct (Z.even _)| |]; lia.
Qed.

Lemma round_half_even_ge (x : Q) (z : Z) :
  (inject_Z z <= x)%Q -> z <= round_half_even x.
Proof.
  destruct x as [n d]. unfold Qle, round_half_even. cbn [Qnum Qden inject_Z].
  intros Hle.
  assert (Hf : z <= n / Z.pos d) by (apply Z.div_le_lower_bound; lia).
  destruct (Z.compare_spec (2 * (n mod Z.pos d)) (Z.pos d));
    [destruct (Z.even _)| |]; lia.
Qed.

Lemma round2_nonneg (x : Q) : (0 <= x)%Q -> (0 <= round2 x)%Q.
Proof.
  intros Hx. unfold round2, Qle. cbn [Qnum Qden].
  assert (0 <= round_half_even (x * 100)).
  { apply round_half_even_ge. change (inject_Z 0) with 0%Q. nra. }
  lia.
Qed.

Lemma round2_le_closed (x : Q) : (x <= closed_time)%Q -> (round2 x <= closed_time)%Q.
Proof.
  intros Hx. unfold round2, closed_time, Qle in *. cbn [Qnum Qden] in *.
  assert (round_half_even (x * 100) <= 3600000).
  { apply round_half_even_le. unfold Qle. destruct x as [n d].
    cbn [Qnum Qden Qmult inject_Z] in *. lia. }
  lia.
Qed.

Lemma clamp_closed_le (t : Q) : (clamp_closed t <= closed_time)%Q.
Proof.
  unfold clamp_closed. destruct (Qltb closed_time t) eqn:E.
  - apply Qle_refl.
  - by apply Qltb_ge.
Qed.

Lemma clamp_closed_nonneg (t : Q) : (0 <= t)%Q -> (0 <= clamp_closed t)%Q.
Proof.
  unfold clamp_closed. destruct (Qltb closed_time t); [done|done].
Qed.

(** ** Reasoning about runs *)

Section Triples.
Context `{Pandana} `{NumpyRandom}.

Lemma triple_ret {A} (P : world -> Prop) (a : A) (Q : A -> world -> Prop) E :
  (forall w, P w -> Q a w) -> triple P (m_ret a) Q E.
Proof. intros HQ w Hw. cbn. auto. Qed.

Lemma triple_bind {A B} (P : world -> Prop) (m : M A) (k : A -> M B)
    (R : A -> world -> Prop) (Q : B -> world -> Prop) E :
  triple P m R E ->
  (forall a, triple (R a) (k a) Q E) ->
  triple P (m_bind m k) Q E.
Proof.
  intros Hm Hk w Hw. unfold m_bind. specialize (Hm w Hw).
  destruct (m w) as [[a|e] w']; [|done].
  by apply Hk.
Qed.

Lemma triple_lift {A} (P : world -> Prop) (r : result A)
    (Q : A -> world -> Prop) E :
  (forall w, P w -> match r with Ok a => Q a w | Raise _ => E w end) ->
  triple P (m_lift r) Q E.
Proof. intros Hr w Hw. unfold m_lift. specialize (Hr w Hw). by destruct r. Qed.

Lemma triple_write (P : world -> Prop) (f : file) (Q : unit -> world -> Prop) E :
  (forall w, P w ->
     Q tt {| generator := generator w;
             written := written w ++ [f];
             calls := calls w |}) ->
  triple P (m_write f) Q E.
Proof. intros Hf w Hw. cbn. auto. Qed.

Lemma triple_called (P : world -> Prop) (c : Substep.args)
    (Q : unit -> world -> Prop) E :
  (forall w, P w ->
     Q tt {| generator := generator w;
             written := written w;
             calls := calls w ++ [c] |}) ->
  triple P (m_called c) Q E.
Proof. intros Hc w Hw. cbn. auto. Qed.

Lemma triple_draw (P : world -> Prop) (bound : nat) (Q : nat -> world -> Prop) E :
  (forall w g i, P w ->
     Q i {| generator := g; written := written w; calls := calls w |}) ->
  triple P (m_draw bound) Q E.
Proof.
  intros Hd w Hw. unfold m_draw.
  destruct (rng_draw (generator w) bound) as [i g]. auto.
Qed.

Lemma triple_weaken {A} (P P' : world -> Prop) (m : M A)
    (Q Q' : A -> world -> Prop) (E E' : world -> Prop) :
  triple P' m Q' E' ->
  (forall w, P w -> P' w) ->
  (forall a w, Q' a w -> Q a w) ->
  (forall w, E' w -> E w) ->
  triple P m Q E.
Proof.
  intros Hm HP HQ HE w Hw. specialize (Hm w (HP w Hw)).
  destruct (m w) as [[a|e] w']; auto.
Qed.

(** The loop rule: [L] is the loop invariant over the assigned variables
    and the world. *)
Lemma triple_for_each {X S} (xs : list X) (body : X -> S -> M S)
    (L : S -> world -> Prop) E :
  (forall x s, x ∈ xs -> triple (L s) (body x s) L E) ->
  forall s, triple (L s) (for_each xs body s) L E.
Proof.
  induction xs as [|x xs IH]; intros Hbody s.
  - by apply triple_ret.
  - cbn [for_each]. eapply triple_bind.
    + apply Hbody. by left.
    + intros s'. apply IH. intros x' s0 Hx'. apply Hbody. by right.
Qed.

(** A world property that no draw changes and that the loops keep. *)
Lemma triple_draws (P : world -> Prop) (ids : list Z) (size : nat) E :
  (forall w g, P w ->
     P {| generator := g; written := written w; calls := calls w |}) ->
  triple P (draws ids size) (fun l w => length l = size /\ P w) E.
Proof.
  intros HP. induction size as [|n IH]; cbn [draws].
  - apply triple_ret. auto.
  - eapply triple_bind.
    { apply (triple_draw _ _ (fun _ w => P w)). intros w g _ Hw. by apply HP. }
    intros i. eapply triple_bind; [apply IH|].
    intros l. apply triple_ret. intros w [Hl Hw]. cbn. auto.
Qed.

Lemma triple_random_choice (P : world -> Prop) (ids : list Z) (size : nat)
    (E : world -> Prop) :
  (forall w g, P w ->
     P {| generator := g; written := written w; calls := calls w |}) ->
  (forall w, P w -> E w) ->
  triple P (random_choice ids size) (fun l w => length l = size /\ P w) E.
Proof.
  intros HP HE. unfold random_choice.
  destruct ids as [|i ids]; [destruct size as [|n]|].
  - by apply triple_draws.
  - apply triple_lift. auto.
  - by apply triple_draws.
Qed.

End Triples.

(** ** Results and folds *)

Lemma rbind_Ok {A B} (r : result A) (f : A -> result B) (b : B) :
  rbind r f = Ok b -> exists a, r = Ok a /\ f a = Ok b.
Proof. destruct r as [a|e]; cbn; [eauto|done]. Qed.

Lemma of_option_Ok {A} (o : option A) (e : error) (a : A) :
  of_option o e = Ok a -> o = Some a.
Proof. destruct o; cbn; congruence. Qed.

Lemma rfold_invariant {X S} (P : S -> Prop) (f : X -> S -> result S)
    (xs : list X) :
  (forall x s1 s2, x ∈ xs -> P s1 -> f x s1 = Ok s2 -> P s2) ->
  forall s s', P s -> rfold f xs s = Ok s' -> P s'.
Proof.
  induction xs as [|x xs IH]; intros Hf s s' Hs Hr; cbn in Hr.
  - congruence.
  - apply rbind_Ok in Hr as (s1 & H1 & H2).
    eapply IH; [|eapply Hf; [by left|exact Hs|exact H1]|exact H2].
    intros x' sa sb Hx'. apply Hf. by right.
Qed.

(** ** Volume dictionaries *)

Lemma bump_lookup_is_Some (step : Z) (m : gmap (Z * Z) Z) (e e' : Z * Z) :
  is_Some (bump step m e' !! e) <-> e = e' \/ is_Some (m !! e).
Proof.
  unfold bump. destruct (decide (e' = e)) as [->|Hne].
  - rewrite lookup_insert_eq. split; eauto.
  - rewrite lookup_insert_ne by done. split; [eauto|].
    intros [->|Hm]; done.
Qed.

Lemma bump_fold_lookup (step : Z) (l : list (Z * Z)) (m : gmap (Z * Z) Z)
    (e : Z * Z) :
  Forall (fun e' => is_Some (m !! e')) l ->
  foldl (bump step) m l !! e =
    (fun x => x + Z.of_nat (length (filter (fun e' => e' = e) l)) * step) <$> m !! e.
Proof.
  revert m. induction l as [|e' l IH]; intros m Hl; cbn [foldl].
  - cbn. destruct (m !! e); cbn; f_equal; lia.
  - inversion Hl as [|? ? [x Hx] Hl']; subst.
    rewrite IH.
    + unfold bump. rewrite Hx. cbn [default].
      rewrite filter_cons. destruct (decide (e' = e)) as [->|Hne].
      * rewrite lookup_insert_eq, Hx. cbn. f_equal. lia.
      * rewrite lookup_insert_ne by done. done.
    + eapply Forall_impl; [exact Hl'|]. intros e2 H2. cbn in H2.
      apply bump_lookup_is_Some. by right.
Qed.

(** ** The walk of one agent *)

Section WalkFacts.
Context `{Pandana}.
Variable k : Substep.args.

(** What [walk] leaves in the variables it assigns, in terms of the edges
    [traversed]. *)
Lemma walk_spec (a : agent) (path_hops : list (Z * Z)) (s s' : ss_vars) :
  walk k a path_hops s = Ok s' ->
  let times := edge_travel_time_dict k in
  let done := traversed times (remaining_time s) path_hops in
  remaining_time s' =
    foldl (fun r e => r - time_on times e)%Q (remaining_time s) done
  /\ used_time s' = foldl (fun r e => r + time_on times e)%Q (used_time s) done
  /\ edge_quarter_vol s' =
       foldl (bump (Substep.sample_interval k)) (edge_quarter_vol s) done
  /\ Forall (fun e => is_Some (edge_quarter_vol s !! e)) done
  /\ trip_info s' = trip_info s
  /\ match drop (length done) path_hops with
     | [] =>
         od_residual_ss_list s' = od_residual_ss_list s
         /\ trip_stop s' = foldl (fun _ e => Some (snd e)) (trip_stop s) done
     | edge :: _ =>
         od_residual_ss_list s' =
           od_residual_ss_list s ++ [residual_at a edge (remaining_time s')]
         /\ trip_stop s' = Some (fst edge)
         /\ exists t, times !! edge = Some t
              /\ Qltb t (remaining_time s') && Qltb t closed_time = false
     end.
Proof.
  revert s.
  induction path_hops as [|[edge_s edge_e] rest IH]; intros s Hw; cbn in Hw.
  - injection Hw as <-. cbn. repeat split; auto.
  - apply rbind_Ok in Hw as (t & Ht & Hw). apply of_option_Ok in Ht.
    cbn [traversed]. fold (edge_travel_time_dict k). rewrite Ht.
    destruct (Qltb t (remaining_time s) && Qltb t closed_time) eqn:Etest.
    + apply rbind_Ok in Hw as (vol & Hvol & Hw). apply of_option_Ok in Hvol.
      apply rbind_Ok in Hw as (veh & Hveh & Hw).
      apply IH in Hw.
      cbn [remaining_time used_time edge_quarter_vol trip_stop
           od_residual_ss_list trip_info] in Hw.
      destruct Hw as (Hr & Hu & Hq & Hdom & Hti & Hrest).
      assert (Ht' : time_on (edge_travel_time_dict k) (edge_s, edge_e) = t).
      { unfold time_on. by rewrite Ht. }
      assert (Hb : bump (Substep.sample_interval k) (edge_quarter_vol s)
                        (edge_s, edge_e)
                   = <[(edge_s, edge_e) := vol + 1 * Substep.sample_interval k]>
                       (edge_quarter_vol s)).
      { unfold bump. by rewrite Hvol. }
      cbn [foldl length drop]. rewrite Ht', Hb.
      repeat split; auto.
      constructor; [eauto|].
      eapply Forall_impl; [exact Hdom|]. intros e He. cbn in He.
      rewrite <- Hb in He. apply bump_lookup_is_Some in He as [->|He]; eauto.
    + apply rbind_Ok in Hw as (veh & Hveh & Hw). injection Hw as <-.
      cbn. repeat split; auto. exists t. done.
Qed.

End WalkFacts.

(** ** Ordered dictionaries *)

Section DictFacts.
Context {K V : Type} `{EqDecision K}.
Implicit Types (d : PyDict.t K V) (k : K) (x : V).

Lemma pydict_get_Some_keys d k x : PyDict.get k d = Some x -> k ∈ PyDict.keys d.
Proof.
  induction d as [|[k' y] d IH]; cbn; [done|].
  destruct (decide (k = k')) as [->|Hne]; intros Hg.
  - by left.
  - right. by apply IH.
Qed.

Lemma pydict_get_None_keys d k : PyDict.get k d = None <-> k ∉ PyDict.keys d.
Proof.
  induction d as [|[k' y] d IH]; cbn.
  - split; [intros _; apply not_elem_of_nil|done].
  - destruct (decide (k = k')) as [->|Hne].
    + split; [done|]. intros Hn. exfalso. apply Hn. by left.
    + rewrite IH. rewrite not_elem_of_cons. tauto.
Qed.

Lemma pydict_set_keys_in d k x :
  k ∈ PyDict.keys d -> PyDict.keys (PyDict.set k x d) = PyDict.keys d.
Proof.
  induction d as [|[k' y] d IH]; cbn.
  - intros Hk. by apply elem_of_nil in Hk.
  - intros Hk. destruct (decide (k = k')) as [->|Hne]; cbn; [done|].
    f_equal. apply IH. apply elem_of_cons in Hk as [?|?]; done.
Qed.

Lemma pydict_set_keys_notin d k x :
  k ∉ PyDict.keys d -> PyDict.keys (PyDict.set k x d) = PyDict.keys d ++ [k].
Proof.
  induction d as [|[k' y] d IH]; cbn; [done|].
  intros Hk. apply not_elem_of_cons in Hk as [Hne Hk].
  destruct (decide (k = k')); [done|]. cbn. f_equal. by apply IH.
Qed.

Lemma pydict_set_keys_NoDup d k x :
  NoDup (PyDict.keys d) -> NoDup (PyDict.keys (PyDict.set k x d)).
Proof.
  intros Hd. destruct (decide (k ∈ PyDict.keys d)) as [Hin|Hnin].
  - by rewrite pydict_set_keys_in.
  - rewrite pydict_set_keys_notin by done.
    apply NoDup_app. split; [done|]. split; [|apply NoDup_singleton].
    intros k' Hk' Hk''. apply list_elem_of_singleton in Hk''. by subst.
Qed.

Lemma pydict_set_keys_elem d k x k' :
  k' ∈ PyDict.keys (PyDict.set k x d) <-> k' = k \/ k' ∈ PyDict.keys d.
Proof.
  destruct (decide (k ∈ PyDict.keys d)) as [Hin|Hnin].
  - rewrite pydict_set_keys_in by done. split; [auto|]. by intros [->|?].
  - rewrite pydict_set_keys_notin by done.
    rewrite elem_of_app, list_elem_of_singleton. tauto.
Qed.

(** A comprehension has one item per distinct key. *)
Lemma pydict_comprehension_keys {X} (key : X -> K) (val : X -> V) (xs : list X) :
  NoDup (PyDict.keys (PyDict.comprehension key val xs))
  /\ forall k, k ∈ PyDict.keys (PyDict.comprehension key val xs) <-> k ∈ map key xs.
Proof.
  unfold PyDict.comprehension.
  assert (Hgen : forall d,
    NoDup (PyDict.keys d) ->
    NoDup (PyDict.keys (foldl (fun d' y => PyDict.set (key y) (val y) d') d xs))
    /\ forall k,
         k ∈ PyDict.keys (foldl (fun d' y => PyDict.set (key y) (val y) d') d xs)
         <-> k ∈ PyDict.keys d \/ k ∈ map key xs).
  { induction xs as [|y xs IH]; intros d Hd; cbn [foldl map].
    - split; [done|]. intros k. rewrite elem_of_nil. tauto.
    - destruct (IH (PyDict.set (key y) (val y) d)) as [Hnd Hel].
      { by apply pydict_set_keys_NoDup. }
      split; [done|]. intros k. rewrite Hel, pydict_set_keys_elem, elem_of_cons.
      tauto. }
  destruct (Hgen []) as [Hnd Hel]; [apply NoDup_nil_2|].
  split; [done|]. intros k. rewrite Hel. cbn. rewrite elem_of_nil. tauto.
Qed.

End DictFacts.

Lemma count_NoDup {A} `{EqDecision A} (l : list A) (a : A) :
  NoDup l ->
  length (filter (fun y => y = a) l) = (if decide (a ∈ l) then 1 else 0)%nat.
Proof.
  induction l as [|y l IH]; intros Hnd.
  - rewrite filter_nil. destruct (decide _) as [Hin|]; [|done].
    by apply elem_of_nil in Hin.
  - apply NoDup_cons in Hnd as [Hnotin Hnd]. specialize (IH Hnd).
    rewrite filter_cons. destruct (decide (y = a)) as [->|Hne].
    + cbn [length]. rewrite IH. destruct (decide (a ∈ l)); [done|].
      destruct (decide _) as [|Hn]; [done|]. exfalso. apply Hn. by left.
    + rewrite IH. destruct (decide (a ∈ l)) as [Hin|Hnin].
      * destruct (decide _) as [|Hn]; [done|]. exfalso. apply Hn. by right.
      * destruct (decide _) as [Hin|]; [|done].
        apply elem_of_cons in Hin as [?|?]; congruence.
Qed.

Lemma count_map {A B} `{EqDecision B} (f : A -> B) (l : list A) (b : B) :
  length (filter (fun y => y = b) (map f l)) =
  length (filter (fun x => f x = b) l).
Proof.
  induction l as [|x l IH]; [done|].
  cbn [map]. rewrite !filter_cons.
  destruct (decide (f x = b)); cbn [length]; by rewrite IH.
Qed.

Lemma trip_rows_keys (d : PyDict.t trip_key trip_value) :
  map row_key (trip_rows d) = PyDict.keys d.
Proof.
  induction d as [|[[[a o] dn] x] d IH]; cbn; [done|]. f_equal. exact IH.
Qed.

(** Each key of [trip_info] gives one row: the number of rows with key [key]
    is one or zero. *)
Lemma trip_rows_count (d : PyDict.t trip_key trip_value) (key : trip_key) :
  NoDup (PyDict.keys d) ->
  length (filter (fun r => row_key r = key) (trip_rows d)) =
    (if decide (key ∈ PyDict.keys d) then 1 else 0)%nat.
Proof.
  intros Hnd. rewrite <- count_map, trip_rows_keys. by apply count_NoDup.
Qed.

(** ** One substep *)

Lemma to_dict_lookup {V} (col : edge -> V) (df : list edge) (key : Z * Z) (x : V) :
  to_dict col df !! key = Some x ->
  exists e, e ∈ df /\ edge_str e = key /\ col e = x.
Proof.
  unfold to_dict. intros Hl. apply elem_of_list_to_map_2 in Hl.
  rewrite elem_of_reverse, list_elem_of_In, in_map_iff in Hl.
  destruct Hl as (e & Heq & He). injection Heq as <- <-.
  exists e. by rewrite list_elem_of_In.
Qed.

Lemma bump_fold_nonneg (step : Z) (l : list (Z * Z)) (m : gmap (Z * Z) Z) :
  0 <= step ->
  Forall (fun e => is_Some (m !! e)) l ->
  (forall e x, m !! e = Some x -> 0 <= x) ->
  forall e x, foldl (bump step) m l !! e = Some x -> 0 <= x.
Proof.
  intros Hstep Hl Hm e x. rewrite bump_fold_lookup by done.
  destruct (m !! e) as [y|] eqn:Ey; cbn; [|done].
  intros [= <-]. specialize (Hm e y Ey). nia.
Qed.

Section SubstepFacts.
Context `{Pandana}.
Variable k : Substep.args.

Lemma update_trip_info_spec (a : agent) (s s' : ss_vars) :
  update_trip_info k a s = Ok s' ->
  exists old stop,
    PyDict.get (agent_key a) (trip_info s) = Some old
    /\ trip_stop s = Some stop
    /\ trip_info s' =
         PyDict.set (agent_key a)
           {| travel_time :=
                (travel_time old + 3600 / inject_Z (Substep.quarter_counts k))%Q;
              travel_time_used := (travel_time_used old + used_time s)%Q;
              stop_nid := stop;
              stop_hour := Substep.hour k;
              stop_quarter := Substep.quarter k;
              stop_ssid := Substep.ss_id k |}
           (trip_info s)
    /\ remaining_time s' = remaining_time s
    /\ used_time s' = used_time s
    /\ edge_quarter_vol s' = edge_quarter_vol s
    /\ edge_current_vehicles s' = edge_current_vehicles s
    /\ trip_stop s' = trip_stop s
    /\ od_residual_ss_list s' = od_residual_ss_list s.
Proof.
  unfold update_trip_info. intros Hu.
  apply rbind_Ok in Hu as (old & Hold & Hu). apply of_option_Ok in Hold.
  apply rbind_Ok in Hu as (stop & Hstop & Hu). apply of_option_Ok in Hstop.
  injection Hu as <-. exists old, stop. cbn. repeat split; auto.
Qed.

(** What one iteration of the loop over the agents keeps. *)
Lemma route_agent_facts (pa : list Z * agent) (s s' : ss_vars) :
  route_agent k pa s = Ok s' ->
  PyDict.keys (trip_info s') = PyDict.keys (trip_info s)
  /\ (exists done,
        edge_quarter_vol s' =
          foldl (bump (Substep.sample_interval k)) (edge_quarter_vol s) done
        /\ Forall (fun e => is_Some (edge_quarter_vol s !! e)) done)
  /\ (od_residual_ss_list s' = od_residual_ss_list s
      \/ exists edge left,
           od_residual_ss_list s' =
             od_residual_ss_list s ++ [residual_at (snd pa) edge left]).
Proof.
  destruct pa as [path a]. unfold route_agent.
  destruct (bool_decide _).
  { intros [= <-]. split; [done|]. split; [|by left].
    exists []. split; [done|constructor]. }
  destruct (decide _); [done|].
  intros Hr. apply rbind_Ok in Hr as (s1 & Hw & Hu).
  apply walk_spec in Hw.
  cbn [remaining_time used_time edge_quarter_vol trip_stop od_residual_ss_list
       trip_info] in Hw.
  destruct Hw as (_ & _ & Hq & Hdom & Hti & Hrest).
  apply update_trip_info_spec in Hu
    as (old & stop & Hget & _ & Hti' & _ & _ & Hq' & _ & _ & Hres').
  split; [|split].
  - rewrite Hti', pydict_set_keys_in, Hti; [done|].
    eapply pydict_get_Some_keys. exact Hget.
  - eexists. rewrite Hq', Hq. split; [done|exact Hdom].
  - rewrite Hres'. destruct (drop _ _) as [|edge rest].
    + left. by destruct Hrest.
    + right. destruct Hrest as (Hr & _). eauto.
Qed.

(** What [substep_assignment] returns: the frame is [new_edges_df] of the
    final dictionaries, the keys of [trip_info] are those it was given, and
    every residual agent is an agent of the batch stopped somewhere. *)
Lemma substep_assignment_facts (t : edges_table) (res : list agent)
    (ti : PyDict.t trip_key trip_value) :
  substep_assignment k = Ok (t, res, ti) ->
  PyDict.keys ti = PyDict.keys (Substep.trip_info k)
  /\ (exists s, t = new_edges_df k s
        /\ (0 <= Substep.sample_interval k ->
            Forall (fun e => 0 <= vol_true e) (Substep.weighted_edges_df k) ->
            forall e x, edge_quarter_vol s !! e = Some x -> 0 <= x))
  /\ Forall (fun a' => exists a edge left,
               a ∈ Substep.od_ss k /\ a' = residual_at a edge left) res.
Proof.
  unfold substep_assignment. intros Hs.
  apply rbind_Ok in Hs as (s & Hfold & Hs). injection Hs as <- <- <-.
  pose (P := fun s : ss_vars =>
    PyDict.keys (trip_info s) = PyDict.keys (Substep.trip_info k)
    /\ (0 <= Substep.sample_interval k ->
        Forall (fun e => 0 <= vol_true e) (Substep.weighted_edges_df k) ->
        forall e x, edge_quarter_vol s !! e = Some x -> 0 <= x)
    /\ Forall (fun a' => exists a edge left,
                 a ∈ Substep.od_ss k /\ a' = residual_at a edge left)
              (od_residual_ss_list s)).
  assert (HP : P s).
  { eapply (rfold_invariant P); [|
      |exact Hfold].
    - intros [path a] s1 s2 Hin (Hk & Hv & Hr) Hstep.
      apply route_agent_facts in Hstep as (Hk' & (done & Hq & Hdom) & Hres).
      split; [by rewrite Hk'|]. split.
      + intros Hsi Hdf. rewrite Hq.
        apply bump_fold_nonneg; [done|done|by apply Hv].
      + cbn [snd] in Hres. destruct Hres as [->|(edge & left & ->)]; [done|].
        apply Forall_app. split; [done|]. constructor; [|constructor].
        exists a, edge, left. split; [|done].
        apply elem_of_zip_r in Hin. exact Hin.
    - split; [done|]. split; [|constructor].
      intros _ Hdf e x Hl. cbn in Hl.
      apply to_dict_lookup in Hl as (e0 & He0 & _ & <-).
      rewrite Forall_forall in Hdf. by apply Hdf. }
  destruct HP as (Hk & Hv & Hr). split; [done|]. split; [|done].
  exists s. split; [done|exact Hv].
Qed.

End SubstepFacts.

(** ** Invariants of a run of [assignment] *)

Lemma new_agent_with_quarter (od : od_row) (q : Z) :
  new_agent (with_quarter od q) = new_agent od.
Proof. done. Qed.

Lemma elem_of_zip_with_quarter (l : list od_row) (qs : list Z) (od : od_row) :
  od ∈ zip_with with_quarter l qs ->
  exists od0 q, od0 ∈ l /\ od = with_quarter od0 q.
Proof.
  revert qs. induction l as [|x l IH]; intros [|q qs] Hin; cbn in Hin;
    try by apply elem_of_nil in Hin.
  apply elem_of_cons in Hin as [->|Hin].
  - exists x, q. split; [by left|done].
  - apply IH in Hin as (od0 & q0 & Hin & ->). exists od0, q0.
    split; [by right|done].
Qed.

Section RunInvariant.
Context `{Pandana} `{NumpyRandom}.
Variable k : Assignment.args.

(** The invariants: [EI ho] of the edge frame while the hour variable is
    [ho], [TI] of [trip_info], [RI] of every agent in flight; and what they
    must give: [CallOk] of every invocation of [substep_assignment] and
    [FileOk] of every written file. *)
Variable EI : option Z -> edges_table -> Prop.
Variable TI : PyDict.t trip_key trip_value -> Prop.
Variable RI : agent -> Prop.
Variable CallOk : Substep.args -> Prop.
Variable FileOk : file -> Prop.

Hypothesis EI_hour : forall ho h t, EI ho t -> EI (Some h) (hour_edges k h t).
Hypothesis EI_reset : forall h t,
  EI (Some h) t ->
  EI (Some h) {| has_flow := has_flow t; rows := map (with_vol_true 0) (rows t) |}.
Hypothesis EI_total : forall h t,
  EI (Some h) t ->
  EI (Some h)
     {| has_flow := has_flow t;
        rows := map (fun e => with_vol_tot (vol_tot e + vol_true e) e) (rows t) |}.
Hypothesis RI_new : forall od, od ∈ od_rows (od_with_path k) -> RI (new_agent od).
Hypothesis call_ok : forall c t,
  configured k c ->
  rows t = Substep.weighted_edges_df c ->
  EI (Some (Substep.hour c)) t ->
  TI (Substep.trip_info c) ->
  Forall RI (Substep.od_ss c) ->
  1 <= Substep.assigned_demand c ->
  0 <= Substep.quarter_demand c ->
  CallOk c.
Hypothesis call_keeps : forall c t t' res ti',
  configured k c ->
  rows t = Substep.weighted_edges_df c ->
  EI (Some (Substep.hour c)) t ->
  TI (Substep.trip_info c) ->
  Forall RI (Substep.od_ss c) ->
  1 <= Substep.assigned_demand c ->
  0 <= Substep.quarter_demand c ->
  substep_assignment c = Ok (t', res, ti') ->
  EI (Some (Substep.hour c)) t' /\ TI ti' /\ Forall RI res.
Hypothesis edge_vol_ok : forall h q t,
  EI (Some h) t -> has_flow t = true ->
  FileOk (EdgeVolFile h q (edge_vol_content (rows t))).
Hypothesis checkpoint_ok : forall h ti,
  TI ti -> FileOk (TripInfoCheckpoint h (trip_rows ti)).
Hypothesis trip_file_ok : forall ti,
  TI ti -> FileOk (TripInfoFile (final_trip_table k ti)).
Hypothesis final_vol_ok : forall ho h q t,
  EI ho t -> FileOk (FinalEdgeVolFile h q (final_vol_content (rows t))).

Local Abbreviation world_ok := (calls_and_files_ok CallOk FileOk).
Local Abbreviation vars_ok := (loop_vars_ok EI TI RI).

Lemma world_ok_written (w : world) (f : file) :
  FileOk f -> world_ok w ->
  world_ok {| generator := generator w; written := written w ++ [f];
              calls := calls w |}.
Proof.
  intros Hf [Hc Hw]. split; [done|]. cbn. apply Forall_app. split; [done|].
  by constructor.
Qed.

Lemma world_ok_called (w : world) (c : Substep.args) :
  CallOk c -> world_ok w ->
  world_ok {| generator := generator w; written := written w;
              calls := calls w ++ [c] |}.
Proof.
  intros Hc [Hcs Hw]. split; [|done]. cbn. apply Forall_app. split; [done|].
  by constructor.
Qed.

Lemma substep_iteration_ok (hour quarter quarter_demand : Z)
    (od_quarter : list (agent * Z)) (ss_id : Z) (s : loop_vars) :
  Forall RI (map fst od_quarter) ->
  0 <= quarter_demand ->
  lv_hour s = Some hour -> 0 <= lv_assigned_demand s -> vars_ok s ->
  triple world_ok
         (substep_iteration k hour quarter quarter_demand od_quarter ss_id s)
         (fun s' w => (lv_hour s' = Some hour /\ 0 <= lv_assigned_demand s'
                       /\ vars_ok s') /\ world_ok w)
         world_ok.
Proof.
  intros Hod Hqd Hh Ha (He & Ht & Hr). unfold substep_iteration.
  set (od_ss := map fst (List.filter _ od_quarter)).
  assert (Hss : Forall RI od_ss).
  { rewrite Forall_forall in Hod. apply Forall_forall. intros a Hin.
    apply Hod. unfold od_ss in Hin.
    rewrite list_elem_of_In, in_map_iff in Hin. destruct Hin as (az & <- & Haz).
    apply filter_In in Haz as [Haz _].
    rewrite list_elem_of_In. apply in_map. exact Haz. }
  destruct (decide _) as [Hz|Hnz].
  - apply triple_ret. intros w Hw. unfold loop_vars_ok. cbn.
    split; [|done]. split; [done|]. split; [lia|]. done.
  - cbn [with_assigned_demand lv_assigned_demand] in Hnz.
    set (c := substep_args k hour quarter quarter_demand od_ss ss_id _).
    assert (Hc1 : 1 <= Substep.assigned_demand c) by (cbn; lia).
    assert (Hce : EI (Some (Substep.hour c)) (lv_edges_df s)).
    { cbn. by rewrite <- Hh. }
    eapply triple_bind with (R := fun _ w => world_ok w).
    { apply triple_called. intros w Hw. apply world_ok_called; [|done].
      by apply (call_ok c (lv_edges_df s)). }
    intros _. eapply triple_bind with
      (R := fun out w => substep_assignment c = Ok out /\ world_ok w).
    { apply triple_lift. intros w Hw.
      destruct (substep_assignment c) as [out|err]; done. }
    intros [[t' res] ti']. apply triple_ret. intros w (Esub & Hw).
    destruct (call_keeps c (lv_edges_df s) t' res ti') as (He' & Ht' & Hr');
      try done.
    unfold loop_vars_ok. cbn in *.
    split; [|done]. split; [done|]. split; [lia|]. split; [by rewrite Hh|].
    split; [done|]. by apply Forall_app.
Qed.

Lemma quarter_iteration_ok (hour : Z) (od_hour : list od_row) (quarter : Z)
    (s : loop_vars) :
  Forall (fun od => RI (new_agent od)) od_hour ->
  lv_hour s = Some hour -> vars_ok s ->
  triple world_ok
         (quarter_iteration k hour od_hour quarter s)
         (fun s' w => (lv_hour s' = Some hour /\ vars_ok s') /\ world_ok w)
         world_ok.
Proof.
  intros Hod Hh (He & Ht & Hr). unfold quarter_iteration.
  set (od_quarter := List.filter _ (_ ++ lv_od_residual_list s)).
  assert (Hq : Forall RI od_quarter).
  { apply Forall_forall. intros a Hin. unfold od_quarter in Hin.
    rewrite list_elem_of_In in Hin.
    apply filter_In in Hin as [Hin _]. apply in_app_or in Hin as [Hnew|Hres].
    - apply in_map_iff in Hnew as (od & <- & Hin).
      apply filter_In in Hin as [Hin _].
      rewrite Forall_forall in Hod. apply Hod. by rewrite list_elem_of_In.
    - rewrite Forall_forall in Hr. apply Hr. by rewrite list_elem_of_In. }
  destruct (decide _) as [Hz|Hnz].
  { apply triple_lift. done. }
  eapply triple_bind with (R := fun _ w => world_ok w).
  { eapply triple_weaken.
    - by apply (triple_random_choice world_ok _ _ world_ok).
    - done.
    - intros msk w [_ Hw]. exact Hw.
    - done. }
  intros msk.
  eapply triple_bind with
    (R := fun s' w => (lv_hour s' = Some hour /\ 0 <= lv_assigned_demand s'
                       /\ vars_ok s') /\ world_ok w).
  { eapply triple_weaken.
    - apply (triple_for_each _ _
               (fun s' w => (lv_hour s' = Some hour /\ 0 <= lv_assigned_demand s'
                             /\ vars_ok s') /\ world_ok w) world_ok).
      intros ss_id s0 _ w ((Hh0 & Ha0 & Hv0) & Hw). revert w Hw.
      apply substep_iteration_ok; try done; [|lia].
      apply Forall_forall. intros a Hin.
      rewrite list_elem_of_In, in_map_iff in Hin.
      destruct Hin as ([a' m] & <- & Haz). apply in_combine_l in Haz.
      rewrite Forall_forall in Hq. apply Hq. by rewrite list_elem_of_In.
    - intros w Hw. unfold loop_vars_ok. cbn. split; [|done].
      split; [done|]. split; [lia|]. split; [|done].
      rewrite Hh in *. by apply EI_reset.
    - done.
    - done. }
  intros s'.
  eapply triple_bind with
    (R := fun _ w => (lv_hour s' = Some hour /\ 0 <= lv_assigned_demand s'
                      /\ vars_ok s') /\ world_ok w).
  { unfold write_edge_vol. cbn [has_flow rows].
    destruct (has_flow (lv_edges_df s')) eqn:Eflow.
    - apply triple_write. intros w ((Hh' & Ha' & He' & Ht' & Hr') & Hw).
      split; [done|]. apply world_ok_written; [|done].
      rewrite Hh' in He'.
      apply (edge_vol_ok hour quarter
               {| has_flow := has_flow (lv_edges_df s');
                  rows := map (fun e => with_vol_tot (vol_tot e + vol_true e) e)
                              (rows (lv_edges_df s')) |});
        [by apply EI_total|done].
    - by apply triple_ret. }
  intros _. apply triple_ret.
  intros w ((Hh' & Ha' & He' & Ht' & Hr') & Hw).
  unfold loop_vars_ok. cbn. split; [|done]. split; [done|]. split; [|done].
  rewrite Hh' in *. by apply EI_total.
Qed.

Lemma hour_iteration_ok (hour : Z) (s : loop_vars) :
  vars_ok s ->
  triple world_ok
         (hour_iteration k (od_with_path k) hour s)
         (fun s' w => vars_ok s' /\ world_ok w)
         world_ok.
Proof.
  intros (He & Ht & Hr). unfold hour_iteration.
  set (od_hour := List.filter _ (od_rows (od_with_path k))).
  assert (Hod : Forall (fun od => RI (new_agent od)) od_hour).
  { apply Forall_forall. intros od Hin. apply RI_new.
    unfold od_hour in Hin. rewrite list_elem_of_In in Hin.
    apply filter_In in Hin as [Hin _]. by rewrite list_elem_of_In. }
  eapply triple_bind with
    (R := fun l w => Forall (fun od => RI (new_agent od)) l /\ world_ok w).
  { destruct (has_quarter (od_with_path k)).
    - by apply triple_ret.
    - eapply triple_bind with (R := fun _ w => world_ok w).
      + eapply triple_weaken.
        * by apply (triple_random_choice world_ok _ _ world_ok).
        * done.
        * intros msk w [_ Hw]. exact Hw.
        * done.
      + intros msk. apply triple_ret. intros w Hw. split; [|done].
        apply Forall_forall. intros od Hin.
        apply elem_of_zip_with_quarter in Hin as (od0 & q & Hin & ->).
        rewrite new_agent_with_quarter.
        rewrite Forall_forall in Hod. by apply Hod. }
  intros od_hour'. intros w [Hod' Hw]. revert w Hw.
  eapply triple_bind with
    (R := fun s' w => (lv_hour s' = Some hour /\ vars_ok s') /\ world_ok w).
  { eapply triple_weaken.
    - apply (triple_for_each _ _
               (fun s' w => (lv_hour s' = Some hour /\ vars_ok s') /\ world_ok w)
               world_ok).
      intros quarter s0 _ w ((Hh0 & Hv0) & Hw). revert w Hw.
      by apply quarter_iteration_ok.
    - intros w Hw. unfold loop_vars_ok. cbn. split; [|done]. split; [done|].
      split; [|done]. by eapply EI_hour.
    - done.
    - done. }
  intros s'.
  eapply triple_bind with
    (R := fun _ w => (lv_hour s' = Some hour /\ vars_ok s') /\ world_ok w).
  { destruct (decide _).
    - apply triple_write. intros w ((Hh' & He' & Ht' & Hr') & Hw).
      split; [done|]. apply world_ok_written; [|done]. by apply checkpoint_ok.
    - by apply triple_ret. }
  intros _. apply triple_ret. intros w ((_ & Hv) & Hw). done.
Qed.

Hypothesis EI_start : forall ti0, EI None (lv_edges_df (initial_vars k ti0)).
Hypothesis TI_start : forall ti0,
  initial_trip_info (od_with_path k) = Ok ti0 -> TI ti0.

Lemma simulation_ok (ti0 : PyDict.t trip_key trip_value) :
  TI ti0 ->
  triple world_ok (simulation k ti0) (fun s w => vars_ok s /\ world_ok w) world_ok.
Proof.
  intros Hti0. unfold simulation. eapply triple_weaken.
  - apply (triple_for_each _ _ (fun s w => vars_ok s /\ world_ok w) world_ok).
    intros hour s0 _ w (Hv0 & Hw). revert w Hw. by apply hour_iteration_ok.
  - intros w Hw. split; [|done]. split; [apply EI_start|].
    split; [done|]. constructor.
  - done.
  - done.
Qed.

(** Every invocation of [substep_assignment] and every file written in a
    run of [assignment] is as the invariants make it, whether the run
    returns or raises. *)
Lemma assignment_ok :
  triple world_ok (assignment k) (fun _ w => world_ok w) world_ok.
Proof.
  unfold assignment.
  eapply triple_bind with
    (R := fun ti0 w => initial_trip_info (od_with_path k) = Ok ti0 /\ world_ok w).
  { apply triple_lift. intros w Hw.
    destruct (initial_trip_info (od_with_path k)); done. }
  intros ti0. intros w [Hti0 Hw]. revert w Hw.
  eapply triple_bind with (R := fun s w => vars_ok s /\ world_ok w).
  { apply simulation_ok. by apply TI_start. }
  intros s. unfold write_results.
  eapply triple_bind with (R := fun _ w => vars_ok s /\ world_ok w).
  { apply triple_write. intros w ((He & Ht & Hr) & Hw). split; [done|].
    apply world_ok_written; [|done]. by apply trip_file_ok. }
  intros _.
  eapply triple_bind with (R := fun _ w => vars_ok s /\ world_ok w).
  { apply triple_lift. intros w [Hv Hw]. destruct (of_option _ _); [done|].
    exact Hw. }
  intros quarter.
  eapply triple_bind with (R := fun _ w => vars_ok s /\ world_ok w).
  { apply triple_lift. intros w [Hv Hw]. destruct (of_option _ _); [done|].
    exact Hw. }
  intros hour. apply triple_write. intros w ((He & Ht & Hr) & Hw).
  apply world_ok_written; [|done]. by eapply final_vol_ok.
Qed.

End RunInvariant.

(** ** Capacity and free-flow time of the frames *)

Lemma static_with_vol_true (x : Z) (e : edge) : static (with_vol_true x e) = static e.
Proof. done. Qed.

Lemma static_with_vol_tot (x : Z) (e : edge) : static (with_vol_tot x e) = static e.
Proof. done. Qed.

Lemma static_restrain (alpha_f : Q) (beta_f qd ad qc : Z)
    (qv cv : gmap (Z * Z) Z) (e : edge) :
  static (restrain alpha_f beta_f qd ad qc qv cv e) = static e.
Proof. done. Qed.

Lemma Forall_map_static (P : edge -> Prop) (f : edge -> edge) (df : list edge) :
  (forall e e', static e = static e' -> P e -> P e') ->
  (forall e, static (f e) = static e) ->
  Forall P df -> Forall P (map f df).
Proof.
  intros HP Hf Hdf. induction Hdf as [|e df He Hdf IH]; cbn; constructor.
  - eapply HP; [|exact He]. by rewrite Hf.
  - exact IH.
Qed.

(** [apply_closures] closes exactly the rows named in the closure list. *)
Lemma apply_closures_map (closed_links : list Z) (df : list edge) :
  apply_closures closed_links df =
  map (fun e => if bool_decide (uniqueid e ∈ closed_links)
                then with_capacity_fft 1 closed_time e else e) df.
Proof.
  unfold apply_closures. revert df.
  induction closed_links as [|uid l IH]; intros df; cbn [foldl].
  - induction df as [|e df IHdf]; cbn; [done|]. rewrite <- IHdf.
    rewrite bool_decide_eq_false_2; [done|]. apply not_elem_of_nil.
  - rewrite IH. unfold close_link. rewrite map_map. apply map_ext. intros e.
    destruct (decide (uniqueid e = uid)) as [Heq|Hne].
    + cbn [uniqueid with_capacity_fft].
      rewrite (bool_decide_eq_true_2 (uniqueid e ∈ uid :: l))
        by (rewrite Heq; by left).
      by destruct (bool_decide _).
    + destruct (bool_decide (uniqueid e ∈ l)) eqn:El.
      * apply bool_decide_eq_true_1 in El.
        rewrite bool_decide_eq_true_2; [done|]. by right.
      * apply bool_decide_eq_false_1 in El.
        rewrite bool_decide_eq_false_2; [done|].
        rewrite not_elem_of_cons. done.
Qed.

Lemma closure_state_hour_edges (k : Assignment.args) (hour : Z)
    (t : edges_table) :
  closure_state k hour (rows (hour_edges k hour t)).
Proof.
  unfold closure_state, hour_edges. cbn [rows].
  destruct (bool_decide _).
  - rewrite apply_closures_map. apply Forall_forall. intros e Hin Hcl.
    rewrite list_elem_of_In, in_map_iff in Hin. destruct Hin as (e0 & <- & _).
    destruct (bool_decide (uniqueid e0 ∈ _)) eqn:E; [done|].
    apply bool_decide_eq_false_1 in E. done.
  - apply Forall_forall. intros e Hin.
    unfold restore_normal in Hin.
    rewrite list_elem_of_In, in_map_iff in Hin. by destruct Hin as (e0 & <- & _).
Qed.

Lemma closure_state_map (k : Assignment.args) (hour : Z) (f : edge -> edge)
    (df : list edge) :
  (forall e, static (f e) = static e) ->
  closure_state k hour df -> closure_state k hour (map f df).
Proof.
  intros Hf. unfold closure_state. destruct (bool_decide _);
    apply Forall_map_static; try done.
  - intros e e' [= Hu Hfft Hc _ _]. by rewrite Hu, Hfft, Hc.
  - intros e e' [= Hu Hfft Hc Hnf Hnc]. by rewrite Hfft, Hc, Hnf, Hnc.
Qed.

Lemma triple_run `{Pandana} `{NumpyRandom} {A} (P : world -> Prop) (m : M A)
    (Q : A -> world -> Prop) (E : world -> Prop) (w : world) :
  triple P m Q E -> P w -> (forall a w', Q a w' -> E w') -> E (snd (m w)).
Proof.
  intros Hm Hw HQ. specialize (Hm w Hw).
  destruct (m w) as [[a|e] w']; cbn; eauto.
Qed.

(** ** Closures (claim C4) *)

(** C4.  In every invocation of [substep_assignment] made for an hour of
    the closure hours, every edge named in the closure list has capacity 1
    and free-flow time 36000; in every invocation made for any other hour,
    every edge has its capacity and free-flow time equal to its
    [normal_capacity] and [normal_fft]. *)
Theorem closures_hold_during_hour `{Pandana} `{NumpyRandom}
    (k : Assignment.args) (g : rng) :
  Forall (fun c => closure_state k (Substep.hour c) (Substep.weighted_edges_df c))
         (calls (snd (assignment k (initial_world g)))).
Proof.
  set (CallOk := fun c =>
         closure_state k (Substep.hour c) (Substep.weighted_edges_df c)).
  set (FileOk := fun _ : file => True).
  refine (proj1 (triple_run (calls_and_files_ok CallOk FileOk) (assignment k)
                   (fun _ w => calls_and_files_ok CallOk FileOk w) (calls_and_files_ok CallOk FileOk)
                   (initial_world g) _ _ _)).
  - apply (assignment_ok k
      (fun ho t => match ho with
                   | Some h => closure_state k h (rows t)
                   | None => True
                   end)
      (fun _ => True) (fun _ => True)); try done.
    + intros ho h t _. apply closure_state_hour_edges.
    + intros h t Ht. cbn [rows]. by apply closure_state_map.
    + intros h t Ht. cbn [rows]. by apply closure_state_map.
    + intros c t _ Hrows Ht _ _ _ _. unfold CallOk. by rewrite <- Hrows.
    + intros c t t' res ti' _ Hrows Ht _ _ _ _ Hsub.
      apply substep_assignment_facts in Hsub as (_ & (s & -> & _) & _).
      split; [|by split; [|apply Forall_true]].
      cbn [rows new_edges_df]. rewrite <- Hrows.
      by apply closure_state_map.
  - split; constructor.
  - done.
Qed.

(** ** No division by zero in the flow extrapolation (claim C9) *)

(** C9.  A substep reached while nothing has been assigned yet in the
    quarter returns without invoking [substep_assignment], and every
    invocation made in a run of [assignment] has [assigned_demand >= 1]:
    the divisor of the flow extrapolation is never zero. *)
Theorem assigned_demand_positive `{Pandana} `{NumpyRandom}
    (k : Assignment.args) :
  (forall hour quarter quarter_demand od_quarter ss_id s w,
     lv_assigned_demand s
     + Z.of_nat (length (map fst (List.filter
                                    (fun az => bool_decide (snd az = ss_id))
                                    od_quarter))) = 0 ->
     substep_iteration k hour quarter quarter_demand od_quarter ss_id s w
     = (Ok (with_assigned_demand 0 s), w))
  /\ (forall g,
        Forall (fun c => 1 <= Substep.assigned_demand c)
               (calls (snd (assignment k (initial_world g))))).
Proof.
  split.
  - intros hour quarter quarter_demand od_quarter ss_id s w Hz.
    unfold substep_iteration. rewrite Hz. cbn [with_assigned_demand lv_assigned_demand].
    by destruct (decide (0 = 0)).
  - intros g.
    set (CallOk := fun c => 1 <= Substep.assigned_demand c).
    set (FileOk := fun _ : file => True).
    refine (proj1 (triple_run (calls_and_files_ok CallOk FileOk) (assignment k)
                     (fun _ w => calls_and_files_ok CallOk FileOk w)
                     (calls_and_files_ok CallOk FileOk) (initial_world g) _ _ _)).
    + apply (assignment_ok k (fun _ _ => True) (fun _ => True) (fun _ => True));
        try done.
      intros c t t' res ti' _ _ _ _ _ _ _ _.
      split; [done|]. split; [done|]. apply Forall_true. done.
    + split; constructor.
    + done.
Qed.

(** ** The written volume tables (claim C10) *)

Lemma apply_closures_length (closed_links : list Z) (df : list edge) :
  length (apply_closures closed_links df) = length df.
Proof. rewrite apply_closures_map. apply length_map. Qed.

Lemma edge_vol_content_positive (df : list edge) :
  (10 <= length df)%nat ->
  Forall (fun r => 0 < vr_vol_true r) (edge_vol_content df).
Proof.
  intros Hn. unfold edge_vol_content.
  destruct (Nat.ltb_spec (length df) 10) as [Hlt|_]; [lia|].
  apply Forall_forall. intros r Hin.
  rewrite list_elem_of_In, in_map_iff in Hin. destruct Hin as (e & <- & He).
  apply filter_In in He as [_ He]. cbn. lia.
Qed.

Lemma final_vol_content_positive (df : list edge) :
  Forall (fun r => 0 < fv_vol_tot r) (final_vol_content df).
Proof.
  unfold final_vol_content. apply Forall_forall. intros r Hin.
  rewrite list_elem_of_In, in_map_iff in Hin. destruct Hin as (e & <- & He).
  apply filter_In in He as [_ He]. cbn. lia.
Qed.

(** C10.  In a run of [assignment] on a network of ten or more edges, every
    row of every written per-quarter edge volume file has [vol_true > 0],
    and, whatever the size of the network, every row of the final volume
    file has [vol_tot > 0]: an edge whose volume is zero is in neither. *)
Theorem volume_tables_filtered `{Pandana} `{NumpyRandom}
    (k : Assignment.args) (g : rng) :
  Forall (volumes_filtered (length (rows (Assignment.edges_df k))))
         (written (snd (assignment k (initial_world g)))).
Proof.
  set (n := length (rows (Assignment.edges_df k))).
  set (CallOk := fun _ : Substep.args => True).
  refine (proj2 (triple_run (calls_and_files_ok CallOk (volumes_filtered n)) (assignment k)
                   (fun _ w => calls_and_files_ok CallOk (volumes_filtered n) w)
                   (calls_and_files_ok CallOk (volumes_filtered n)) (initial_world g) _ _ _)).
  - apply (assignment_ok k (fun _ t => length (rows t) = n) (fun _ => True)
             (fun _ => True)); try done.
    + intros _ h t Ht. unfold hour_edges. cbn [rows].
      destruct (bool_decide _).
      * by rewrite apply_closures_length.
      * unfold restore_normal. by rewrite length_map.
    + intros _ t Ht. cbn [rows]. by rewrite length_map.
    + intros _ t Ht. cbn [rows]. by rewrite length_map.
    + intros c t t' res ti' _ Hrows Ht _ _ _ _ Hsub.
      apply substep_assignment_facts in Hsub as (_ & (s & -> & _) & _).
      split; [|by split; [|apply Forall_true]].
      cbn [rows new_edges_df]. by rewrite length_map, <- Hrows.
    + intros h q t Ht _ Hn. apply edge_vol_content_positive. by rewrite Ht.
    + intros _ h q t _. apply final_vol_content_positive.
    + intros ti0. cbn. by rewrite length_map.
  - split; constructor.
  - done.
Qed.

(** ** The capacity-restraint update (claim C2) *)

Lemma inject_Z_nonneg (z : Z) : 0 <= z -> (0 <= inject_Z z)%Q.
Proof. intros Hz. change 0%Q with (inject_Z 0). by rewrite <- Zle_Qle. Qed.

Lemma extrapolated_flow_nonneg (quarter_demand assigned_demand quarter_counts vol : Z) :
  0 <= quarter_demand -> 0 <= assigned_demand -> 0 <= quarter_counts -> 0 <= vol ->
  (0 <= extrapolated_flow quarter_demand assigned_demand quarter_counts vol)%Q.
Proof.
  intros Hqd Had Hqc Hvol. unfold extrapolated_flow, Qdiv.
  repeat apply Qmult_le_0_compat; try by apply inject_Z_nonneg.
  apply Qinv_le_0_compat. by apply inject_Z_nonneg.
Qed.

Lemma bpr_nonneg (alpha_f : Q) (beta_f : Z) (fft_ flow_ capacity_ : Q) :
  (0 <= alpha_f)%Q -> (0 <= fft_)%Q -> (0 <= flow_)%Q -> (1 <= capacity_)%Q ->
  (0 <= bpr alpha_f beta_f fft_ flow_ capacity_)%Q.
Proof.
  intros Ha Hf Hfl Hc. unfold bpr.
  assert (Hr : (0 <= flow_ / capacity_)%Q).
  { unfold Qdiv. apply Qmult_le_0_compat; [done|].
    apply Qinv_le_0_compat. lra. }
  pose proof (Qpower_0_le _ beta_f Hr) as Hp.
  pose proof (Qmult_le_0_compat _ _ Ha Hp) as Hap.
  apply Qmult_le_0_compat; [done|]. lra.
Qed.

Lemma restrain_restrained (c : Substep.args) (qv cv : gmap (Z * Z) Z) (e : edge) :
  (0 <= Substep.alpha_f c)%Q ->
  0 <= Substep.quarter_demand c -> 0 <= Substep.assigned_demand c ->
  0 <= Substep.quarter_counts c ->
  (forall key x, qv !! key = Some x -> 0 <= x) ->
  well_formed e ->
  let r := restrain (Substep.alpha_f c) (Substep.beta_f c)
             (Substep.quarter_demand c) (Substep.assigned_demand c)
             (Substep.quarter_counts c) qv cv e in
  restrained c r /\ well_formed r.
Proof.
  intros Ha Hqd Had Hqc Hqv (Hc & Hnc & Hf & Hnf & Hv) r.
  assert (Hvol : 0 <= vol_true r).
  { subst r. cbn. destruct (qv !! edge_str e) as [x|] eqn:Ex; cbn; [|done].
    by eapply Hqv. }
  split.
  - split; [done|]. split; [done|]. split; [done|].
    assert (Hb : (0 <= bpr (Substep.alpha_f c) (Substep.beta_f c)
                         (fft r) (flow r) (capacity r))%Q).
    { apply bpr_nonneg; try done. by apply extrapolated_flow_nonneg. }
    split.
    + apply round2_nonneg. by apply clamp_closed_nonneg.
    + apply round2_le_closed. apply clamp_closed_le.
  - by repeat split.
Qed.

Lemma well_formed_hour_edges (k : Assignment.args) (hour : Z) (t : edges_table) :
  Forall well_formed (rows t) -> Forall well_formed (rows (hour_edges k hour t)).
Proof.
  intros Ht. unfold hour_edges. cbn [rows].
  rewrite Forall_forall in Ht. apply Forall_forall. intros e Hin.
  destruct (bool_decide _).
  - rewrite apply_closures_map in Hin.
    rewrite list_elem_of_In, in_map_iff in Hin. destruct Hin as (e0 & <- & He0).
    rewrite <- list_elem_of_In in He0. specialize (Ht e0 He0).
    destruct (bool_decide _); [|done].
    destruct Ht as (Hc & Hnc & Hf & Hnf & Hv). by repeat split.
  - unfold restore_normal in Hin.
    rewrite list_elem_of_In, in_map_iff in Hin. destruct Hin as (e0 & <- & He0).
    rewrite <- list_elem_of_In in He0.
    destruct (Ht e0 He0) as (Hc & Hnc & Hf & Hnf & Hv). by repeat split.
Qed.

Lemma insert_by_fft_In (x e : edge) (l : list edge) :
  In x (insert_by_fft e l) <-> x = e \/ In x l.
Proof.
  induction l as [|y l IH]; cbn.
  - intuition.
  - destruct (Qltb (fft e) (fft y)); cbn; rewrite ?IH; intuition.
Qed.

Lemma sort_by_fft_In (x : edge) (l : list edge) :
  In x (sort_by_fft l) <-> In x l.
Proof.
  unfold sort_by_fft. induction l as [|y l IH]; cbn; [done|].
  rewrite insert_by_fft_In, IH. intuition.
Qed.

Lemma drop_duplicates_In (x : edge) (seen : list (Z * Z)) (l : list edge) :
  In x (drop_duplicates seen l) -> In x l.
Proof.
  revert seen. induction l as [|y l IH]; intros seen; cbn; [done|].
  destruct (bool_decide _); cbn; [eauto|]. intros [->|Hin]; eauto.
Qed.

(** Every row of the loaded frame comes from a row of the edge file. *)
Lemma load_network_rows (edges : list edge_csv) (nodes : list node_csv)
    (closed_links : list Z) (t : edges_table) (nodes_df : list Z) (e : edge) :
  load_network edges nodes closed_links = Ok (t, nodes_df) ->
  e ∈ rows t ->
  exists r, r ∈ edges
    /\ (e = edge_of_csv r \/ e = with_capacity_fft 1 closed_time (edge_of_csv r)).
Proof.
  unfold load_network. intros [= <- <-]. cbn [rows].
  rewrite apply_closures_map, list_elem_of_In, in_map_iff.
  intros (e0 & He & Hin).
  apply drop_duplicates_In, sort_by_fft_In, in_map_iff in Hin
    as (r & <- & Hr).
  exists r. rewrite list_elem_of_In. split; [done|].
  destruct (bool_decide _); subst e; auto.
Qed.

Lemma edge_of_csv_well_formed (r : edge_csv) :
  (0 <= csv_length r)%Q -> (0 < csv_maxspeed r)%Q -> well_formed (edge_of_csv r).
Proof.
  intros Hl Hs.
  assert (Hc : (1 <= (if Qltb (csv_capacity r) 1 then 950 else csv_capacity r))%Q).
  { destruct (Qltb (csv_capacity r) 1) eqn:E; [done|]. by apply Qltb_ge. }
  assert (Hf : (0 <= csv_length r / csv_maxspeed r * 2.23694)%Q).
  { apply Qmult_le_0_compat; [|done]. unfold Qdiv.
    apply Qmult_le_0_compat; [done|]. apply Qinv_le_0_compat. lra. }
  unfold well_formed. cbn. done.
Qed.

Lemma load_network_well_formed (edges : list edge_csv) (nodes : list node_csv)
    (closed_links : list Z) (t : edges_table) (nodes_df : list Z) :
  Forall (fun r => (0 <= csv_length r)%Q /\ (0 < csv_maxspeed r)%Q) edges ->
  load_network edges nodes closed_links = Ok (t, nodes_df) ->
  Forall well_formed (rows t).
Proof.
  intros Hcsv Hload. apply Forall_forall. intros e He.
  destruct (load_network_rows _ _ _ _ _ _ Hload He) as (r & Hr & Hcase).
  rewrite Forall_forall in Hcsv. destruct (Hcsv r Hr) as [Hl Hs].
  destruct (edge_of_csv_well_formed r Hl Hs) as (Hc & Hnc & Hf & Hnf & Hv).
  destruct Hcase as [->| ->]; by repeat split.
Qed.

(** The restraint update on any frame of well-formed edges. *)
Lemma restraint_update_well_formed `{Pandana} `{NumpyRandom}
    (k : Assignment.args) (g : rng) :
  Forall well_formed (rows (Assignment.edges_df k)) ->
  (0 <= Assignment.alpha_f k)%Q ->
  0 <= Assignment.sample_interval k ->
  Forall (fun c => forall t res ti,
            substep_assignment c = Ok (t, res, ti) ->
            Forall (restrained c) (rows t))
         (calls (snd (assignment k (initial_world g)))).
Proof.
  intros Hdf Ha Hsi.
  set (CallOk := fun c => forall t res ti,
         substep_assignment c = Ok (t, res, ti) ->
         Forall (restrained c) (rows t) /\ Forall well_formed (rows t)).
  set (FileOk := fun _ : file => True).
  assert (Hqc : 0 <= quarter_counts_of k).
  { unfold quarter_counts_of. destruct (Assignment.quarter_list k); lia. }
  assert (Hcall : forall c t,
    configured k c -> rows t = Substep.weighted_edges_df c ->
    Forall well_formed (rows t) -> 1 <= Substep.assigned_demand c ->
    0 <= Substep.quarter_demand c -> CallOk c).
  { intros c t (_ & Hcq & _ & Hcs & Hca & _) Hrows Ht Had Hqd t' res ti Hsub.
    apply substep_assignment_facts in Hsub as (_ & (s & -> & Hvol) & _).
    cbn [rows new_edges_df]. rewrite <- Hrows in *.
    assert (Hboth : Forall (fun r => restrained c r /\ well_formed r)
              (map (restrain (Substep.alpha_f c) (Substep.beta_f c)
                      (Substep.quarter_demand c) (Substep.assigned_demand c)
                      (Substep.quarter_counts c) (edge_quarter_vol s)
                      (edge_current_vehicles s)) (rows t))).
    { apply Forall_forall. intros r Hin.
      rewrite list_elem_of_In, in_map_iff in Hin. destruct Hin as (e & <- & He).
      apply restrain_restrained;
        [by rewrite Hca|lia|lia|rewrite Hcq; lia| |].
      - apply Hvol; [by rewrite Hcs|].
        eapply Forall_impl; [exact Ht|]. by intros e0 (_ & _ & _ & _ & Hv).
      - rewrite Forall_forall in Ht. apply Ht. by rewrite list_elem_of_In. }
    split; eapply Forall_impl; try exact Hboth; by intros r [Hr Hw]. }
  assert (Hw : calls_and_files_ok CallOk FileOk (snd (assignment k (initial_world g)))).
  { refine (triple_run (calls_and_files_ok CallOk FileOk) (assignment k)
              (fun _ w => calls_and_files_ok CallOk FileOk w) (calls_and_files_ok CallOk FileOk)
              (initial_world g) _ _ _).
    - apply (assignment_ok k (fun _ t => Forall well_formed (rows t))
               (fun _ => True) (fun _ => True)); try done.
      + intros _ h t Ht. by apply well_formed_hour_edges.
      + intros _ t Ht. cbn [rows]. apply Forall_forall. intros e Hin.
        rewrite list_elem_of_In, in_map_iff in Hin. destruct Hin as (e0 & <- & He0).
        rewrite Forall_forall in Ht. rewrite <- list_elem_of_In in He0.
        destruct (Ht e0 He0) as (Hc & Hnc & Hf & Hnf & Hv). by repeat split.
      + intros _ t Ht. cbn [rows]. apply Forall_forall. intros e Hin.
        rewrite list_elem_of_In, in_map_iff in Hin. destruct Hin as (e0 & <- & He0).
        rewrite Forall_forall in Ht. rewrite <- list_elem_of_In in He0.
        destruct (Ht e0 He0) as (Hc & Hnc & Hf & Hnf & Hv). by repeat split.
      + intros c t Hcfg Hrows Ht _ _ Had Hqd. by eapply Hcall.
      + intros c t t' res ti' Hcfg Hrows Ht _ _ Had Hqd Hsub.
        split; [|by split; [|apply Forall_true]].
        by eapply (Hcall c t).
      + intros ti0. cbn [lv_edges_df initial_vars rows].
        apply Forall_forall. intros e Hin.
        rewrite list_elem_of_In, in_map_iff in Hin. destruct Hin as (e0 & <- & He0).
        rewrite Forall_forall in Hdf. rewrite <- list_elem_of_In in He0.
        destruct (Hdf e0 He0) as (Hc & Hnc & Hf & Hnf & Hv). by repeat split.
    - split; constructor.
    - done. }
  destruct Hw as [Hc _]. eapply Forall_impl; [exact Hc|].
  intros c Hcall' t res ti Hsub. by destruct (Hcall' t res ti Hsub).
Qed.




(** ** The walk along a path (claim C1) *)

Lemma traversed_prefix (times : gmap (Z * Z) Q) (budget : Q)
    (path_hops : list (Z * Z)) :
  exists rest, path_hops = traversed times budget path_hops ++ rest.
Proof.
  revert budget. induction path_hops as [|e l IH]; intros budget; cbn.
  - by exists [].
  - destruct (times !! e) as [t|]; [|by eexists].
    destruct (_ && _); [|by eexists].
    destruct (IH (budget - t)%Q) as [rest Hrest]. exists rest. cbn.
    by rewrite <- Hrest.
Qed.

Lemma traversed_tests (times : gmap (Z * Z) Q) (budget : Q)
    (path_hops : list (Z * Z)) (i : nat) (e : Z * Z) :
  traversed times budget path_hops !! i = Some e ->
  exists t, times !! e = Some t
    /\ (t < foldl (fun r e' => r - time_on times e') budget
                  (take i (traversed times budget path_hops)))%Q
    /\ (t < closed_time)%Q.
Proof.
  revert budget i. induction path_hops as [|e0 l IH]; intros budget i; cbn.
  - done.
  - destruct (times !! e0) as [t|] eqn:Et; [|done].
    destruct (Qltb t budget && Qltb t closed_time) eqn:Etest; [|done].
    apply andb_true_iff in Etest as [Hb Hc].
    apply Qltb_lt in Hb. apply Qltb_lt in Hc.
    destruct i as [|i]; cbn.
    + intros [= <-]. eauto.
    + intros Hi. apply IH in Hi as (t' & Ht' & Hlt & Hc').
      exists t'. split; [done|]. split; [|done].
      unfold time_on at 2. by rewrite Et.
Qed.




(** ** An agent with an empty path (claim C8) *)



(** The same stuck agent as the first of its batch. *)
Lemma empty_path_first_agent_raises :
  @substep_assignment Toy.router (Toy.batch [Toy.stuck; Toy.mover])
  = Raise UnboundLocalError.
Proof. vm_compute. reflexivity. Qed.

(** ** Loading performs no referential check (claim C7) *)

(** C7 (as amended).  Loading never fails: for every edge, node and closure
    table it returns the edge frame and the node ids, and every edge of the
    frame has the end points that a row of the edge file names, whether or
    not they are in the node table. *)
Theorem load_network_never_fails (edges : list edge_csv)
    (nodes : list node_csv) (closed_links : list Z) :
  exists t,
    load_network edges nodes closed_links = Ok (t, map node_id nodes)
    /\ forall e, e ∈ rows t ->
         exists r, r ∈ edges
           /\ start_nid e = csv_start_nid r /\ end_nid e = csv_end_nid r.
Proof.
  eexists. split; [reflexivity|].
  intros e He.
  destruct (load_network_rows edges nodes closed_links _ _ e eq_refl He)
    as (r & Hr & [-> | ->]); exists r; done.
Qed.

(** The claim C7 as stated wants a failure when an edge names a node that
    the node table does not have.  The edge 1 -> 99 with the nodes 1 and 2
    is loaded as it is. *)
Lemma load_network_keeps_dangling_edge :
  exists t e,
    load_network
      [ {| csv_uniqueid := 7; csv_length := 100; csv_maxspeed := 22.3694;
           csv_capacity := 1000; csv_start_nid := 1; csv_end_nid := 99 |} ]
      Toy.nodes_file [] = Ok (t, [1; 2])
    /\ rows t = [e]
    /\ end_nid e = 99
    /\ bool_decide (end_nid e ∈ [1; 2]) = false.
Proof.
  eexists _, _. split; [vm_compute; reflexivity|].
  split; [reflexivity|]. split; reflexivity.
Qed.

(** ** Trips without a path (claim C5) *)

Lemma filter_paired {A B} (f : A -> B) (p : B * A -> bool) (l : list A) :
  map snd (List.filter p (map (fun x => (f x, x)) l))
  = List.filter (fun x => p (f x, x)) l.
Proof.
  induction l as [|x l IH]; cbn; [done|].
  destruct (p (f x, x)); cbn; by rewrite IH.
Qed.

Lemma filter_filter_same {A} (p : A -> bool) (l : list A) :
  List.filter p (List.filter p l) = List.filter p l.
Proof.
  induction l as [|x l IH]; cbn; [done|].
  destruct (p x) eqn:E; cbn; rewrite ?E, IH; done.
Qed.

Lemma filter_filter_negb {A} (p : A -> bool) (l : list A) :
  List.filter p (List.filter (fun x => negb (p x)) l) = [].
Proof.
  induction l as [|x l IH]; cbn; [done|].
  destruct (p x) eqn:E; cbn; rewrite ?E, IH; done.
Qed.

Lemma od_table_eq (t t' : od_table) :
  has_quarter t = has_quarter t' -> od_rows t = od_rows t' -> t = t'.
Proof. destruct t, t'. cbn. by intros -> ->. Qed.

Section NoPath.
Context `{Pandana}.

Lemma initial_path_key (k : Assignment.args) (od od' : od_row) :
  od_key od = od_key od' -> initial_path k od = initial_path k od'.
Proof. unfold od_key, initial_path. by intros [= _ -> ->]. Qed.

Lemma initial_path_without (k : Assignment.args) (od : od_row) :
  initial_path (without_no_path k) od = initial_path k od.
Proof. done. Qed.

Lemma od_with_path_rows (k : Assignment.args) :
  od_rows (od_with_path k) =
  List.filter (fun od => negb (has_no_path (initial_path k od, od)))
              (od_rows (Assignment.od_all k)).
Proof.
  unfold od_with_path, initial_paths. cbn [od_rows].
  apply (filter_paired (initial_path k) (fun po => negb (has_no_path po))).
Qed.

Lemma od_no_path_rows (k : Assignment.args) :
  od_no_path k =
  List.filter (fun od => has_no_path (initial_path k od, od))
              (od_rows (Assignment.od_all k)).
Proof. unfold od_no_path, initial_paths. apply filter_paired. Qed.

Lemma od_with_path_idem (k : Assignment.args) :
  od_with_path (without_no_path k) = od_with_path k.
Proof.
  apply od_table_eq; [done|].
  rewrite (od_with_path_rows (without_no_path k)).
  change (od_rows (Assignment.od_all (without_no_path k)))
    with (od_rows (od_with_path k)).
  rewrite od_with_path_rows.
  apply (filter_filter_same
           (fun od => negb (has_no_path (initial_path k od, od)))).
Qed.

Lemma od_no_path_without (k : Assignment.args) :
  od_no_path (without_no_path k) = [].
Proof.
  rewrite (od_no_path_rows (without_no_path k)).
  change (od_rows (Assignment.od_all (without_no_path k)))
    with (od_rows (od_with_path k)).
  rewrite od_with_path_rows.
  apply (filter_filter_negb (fun od => has_no_path (initial_path k od, od))).
Qed.

End NoPath.

Section NoPathRuns.
Context `{Pandana} `{NumpyRandom}.
Variable k : Assignment.args.

Lemma simulation_without (ti0 : PyDict.t trip_key trip_value) :
  simulation (without_no_path k) ti0 = simulation k ti0.
Proof. unfold simulation. rewrite od_with_path_idem. reflexivity. Qed.

(** The simulation loop writes no final trip table. *)
Lemma simulation_written (extra : list trip_row)
    (ti0 : PyDict.t trip_key trip_value) (g : rng) :
  map (append_rows extra) (written (snd (simulation k ti0 (initial_world g))))
  = written (snd (simulation k ti0 (initial_world g))).
Proof.
  set (CallOk := fun _ : Substep.args => True).
  set (FileOk := fun f => append_rows extra f = f).
  assert (Hw : calls_and_files_ok CallOk FileOk (snd (simulation k ti0 (initial_world g)))).
  { refine (triple_run (calls_and_files_ok CallOk FileOk) (simulation k ti0)
              (fun s w => loop_vars_ok (fun _ _ => True) (fun _ => True)
                                  (fun _ => True) s
                          /\ calls_and_files_ok CallOk FileOk w)
              (calls_and_files_ok CallOk FileOk) (initial_world g) _ _ _).
    - apply (simulation_ok k (fun _ _ => True) (fun _ => True) (fun _ => True));
        try done.
      intros c t t' res ti' _ _ _ _ _ _ _ _.
      split; [done|]. split; [done|]. by apply Forall_true.
    - split; constructor.
    - by intros s w [_ Hw]. }
  destruct Hw as [_ Hw].
  induction Hw as [|f l Hf Hl IH]; cbn; [done|]. by rewrite Hf, IH.
Qed.

Lemma assignment_unfold (k' : Assignment.args) (w : world) :
  assignment k' w =
  match initial_trip_info (od_with_path k') with
  | Ok ti0 =>
      match simulation k' ti0 w with
      | (Ok s, w1) => write_results k' s w1
      | (Raise e, w1) => (Raise e, w1)
      end
  | Raise e => (Raise e, w)
  end.
Proof.
  unfold assignment, m_bind, m_lift.
  destruct (initial_trip_info (od_with_path k')); reflexivity.
Qed.

(** A run of [assignment] is the run on the demand without the trips that
    have no path, but for their rows in the final trip table. *)
Lemma assignment_without_no_path (g : rng) :
  fst (assignment k (initial_world g))
    = fst (assignment (without_no_path k) (initial_world g))
  /\ calls (snd (assignment k (initial_world g)))
      = calls (snd (assignment (without_no_path k) (initial_world g)))
  /\ written (snd (assignment k (initial_world g)))
      = map (append_rows (map no_path_row (od_no_path k)))
            (written (snd (assignment (without_no_path k) (initial_world g)))).
Proof.
  rewrite !assignment_unfold, od_with_path_idem.
  destruct (initial_trip_info (od_with_path k)) as [ti0|err]; [|done].
  rewrite simulation_without.
  pose proof (simulation_written (map no_path_row (od_no_path k)) ti0 g) as Hwr.
  destruct (simulation k ti0 (initial_world g)) as [[s|err] w1]; cbn [snd] in Hwr;
    [|cbn [fst snd]; by rewrite Hwr].
  unfold write_results, final_trip_table. rewrite od_no_path_without.
  unfold m_bind, m_write, m_lift, write_final_vol, m_write.
  destruct (lv_quarter s), (lv_hour s); cbn;
    rewrite !map_app, Hwr; cbn; rewrite app_nil_r; done.
Qed.

End NoPathRuns.

Lemma routable_not_no_path `{Pandana} (k : Assignment.args) (a : agent)
    (od : od_row) :
  of_routable_trip k a -> od ∈ od_no_path k -> agent_key a <> od_key od.
Proof.
  intros (od0 & Hod0 & Hkey) Hod Heq.
  rewrite od_with_path_rows, list_elem_of_In in Hod0.
  apply filter_In in Hod0 as [_ Hp0].
  rewrite od_no_path_rows, list_elem_of_In in Hod.
  apply filter_In in Hod as [_ Hp].
  unfold has_no_path in Hp0, Hp. cbn [fst] in Hp0, Hp.
  rewrite (initial_path_key k od0 od) in Hp0 by congruence.
  by rewrite Hp in Hp0.
Qed.


(** ** The random source (claim C6) *)

Section TwoGenerators.
Context {P : Pandana} (G1 G2 : NumpyRandom).

(** [R] relates states of the two generators from which the same draws
    come, now and ever after. *)
Variable R : @rng G1 -> @rng G2 -> Prop.
Hypothesis R_draw : forall g1 g2 bound,
  R g1 g2 ->
  fst (@rng_draw G1 g1 bound) = fst (@rng_draw G2 g2 bound)
  /\ R (snd (@rng_draw G1 g1 bound)) (snd (@rng_draw G2 g2 bound)).

Local Abbreviation same_world := (same_world G1 G2 R).
Local Abbreviation related := (related G1 G2 R).

Lemma related_ret {A} (a : A) : related (m_ret a) (m_ret a).
Proof. intros w1 w2 Hw. done. Qed.

Lemma related_lift {A} (r : result A) : related (m_lift r) (m_lift r).
Proof. intros w1 w2 Hw. done. Qed.

Lemma related_bind {A B} (m1 : @M G1 A) (m2 : @M G2 A)
    (f1 : A -> @M G1 B) (f2 : A -> @M G2 B) :
  related m1 m2 -> (forall a, related (f1 a) (f2 a)) ->
  related (m_bind m1 f1) (m_bind m2 f2).
Proof.
  intros Hm Hf w1 w2 Hw. unfold m_bind.
  destruct (Hm w1 w2 Hw) as [Hr Hw'].
  destruct (m1 w1) as [[a1|e1] w1'], (m2 w2) as [[a2|e2] w2'];
    cbn in Hr, Hw'; try done.
  - injection Hr as ->. by apply Hf.
  - injection Hr as ->. split; [reflexivity|exact Hw'].
Qed.

Lemma related_write (f : file) : related (m_write f) (m_write f).
Proof.
  intros w1 w2 (Hg & Hwr & Hc). split; [done|].
  split; [done|]. split; [|done]. cbn. by rewrite Hwr.
Qed.

Lemma related_called (c : Substep.args) : related (m_called c) (m_called c).
Proof.
  intros w1 w2 (Hg & Hwr & Hc). split; [done|].
  split; [done|]. split; [done|]. cbn. by rewrite Hc.
Qed.

Lemma related_draw (bound : nat) : related (m_draw bound) (m_draw bound).
Proof.
  intros w1 w2 (Hg & Hwr & Hc). unfold m_draw.
  destruct (R_draw _ _ bound Hg) as [Hi Hg'].
  destruct (rng_draw (generator w1) bound) as [i1 g1'].
  destruct (rng_draw (generator w2) bound) as [i2 g2'].
  cbn in Hi, Hg'. subst i2. done.
Qed.

Lemma related_for_each {X S} (xs : list X)
    (b1 : X -> S -> @M G1 S) (b2 : X -> S -> @M G2 S) :
  (forall x s, related (b1 x s) (b2 x s)) ->
  forall s, related (for_each xs b1 s) (for_each xs b2 s).
Proof.
  intros Hb. induction xs as [|x xs IH]; intros s; cbn [for_each].
  - apply related_ret.
  - apply related_bind; [apply Hb|]. intros s'. apply IH.
Qed.

Lemma related_random_choice (ids : list Z) (size : nat) :
  related (random_choice ids size) (random_choice ids size).
Proof.
  assert (Hd : related (draws ids size) (draws ids size)).
  { induction size as [|n IH]; cbn [draws].
    - apply related_ret.
    - apply related_bind; [apply related_draw|]. intros i.
      apply related_bind; [apply IH|]. intros l. apply related_ret. }
  unfold random_choice.
  destruct ids, size; first [exact Hd | apply related_lift].
Qed.

Lemma related_substep_iteration (k : Assignment.args)
    (hour quarter quarter_demand : Z) (od_quarter : list (agent * Z))
    (ss_id : Z) (s : loop_vars) :
  related (substep_iteration k hour quarter quarter_demand od_quarter ss_id s)
          (substep_iteration k hour quarter quarter_demand od_quarter ss_id s).
Proof.
  unfold substep_iteration. destruct (decide _); [apply related_ret|].
  apply related_bind; [apply related_called|]. intros _.
  apply related_bind; [apply related_lift|]. intros [[t res] ti].
  apply related_ret.
Qed.

Lemma related_quarter_iteration (k : Assignment.args) (hour : Z)
    (od_hour : list od_row) (quarter : Z) (s : loop_vars) :
  related (quarter_iteration k hour od_hour quarter s)
          (quarter_iteration k hour od_hour quarter s).
Proof.
  unfold quarter_iteration. destruct (decide _); [apply related_lift|].
  apply related_bind; [apply related_random_choice|]. intros msk.
  apply related_bind.
  { apply related_for_each. intros ss_id s0. apply related_substep_iteration. }
  intros s'. apply related_bind.
  { unfold write_edge_vol. destruct (has_flow _);
      [apply related_write|apply related_ret]. }
  intros _. apply related_ret.
Qed.

Lemma related_hour_iteration (k : Assignment.args) (od_all : od_table)
    (hour : Z) (s : loop_vars) :
  related (hour_iteration k od_all hour s) (hour_iteration k od_all hour s).
Proof.
  unfold hour_iteration. apply related_bind.
  { destruct (has_quarter od_all); [apply related_ret|].
    apply related_bind; [apply related_random_choice|]. intros msk.
    apply related_ret. }
  intros od_hour. apply related_bind.
  { apply related_for_each. intros quarter s0. apply related_quarter_iteration. }
  intros s'. apply related_bind.
  { destruct (decide _); [apply related_write|apply related_ret]. }
  intros _. apply related_ret.
Qed.

Lemma related_assignment (k : Assignment.args) :
  related (assignment k) (assignment k).
Proof.
  unfold assignment. apply related_bind; [apply related_lift|]. intros ti0.
  apply related_bind.
  { unfold simulation. apply related_for_each. intros hour s.
    apply related_hour_iteration. }
  intros s. unfold write_results.
  apply related_bind; [apply related_write|]. intros _.
  apply related_bind; [apply related_lift|]. intros quarter.
  apply related_bind; [apply related_lift|]. intros hour.
  apply related_write.
Qed.

End TwoGenerators.

(** C6 (as amended).  [assignment] has no random source among its
    arguments: it draws from the generator of the process.  Two runs on the
    same arguments, started in generator states from which the same draws
    come, return or raise alike, write the same files and make the same
    invocations of [substep_assignment]. *)
Theorem same_draws_same_tables {P : Pandana} (G1 G2 : NumpyRandom)
    (R : @rng G1 -> @rng G2 -> Prop) (k : Assignment.args)
    (g1 : @rng G1) (g2 : @rng G2) :
  (forall s1 s2 bound,
     R s1 s2 ->
     fst (@rng_draw G1 s1 bound) = fst (@rng_draw G2 s2 bound)
     /\ R (snd (@rng_draw G1 s1 bound)) (snd (@rng_draw G2 s2 bound))) ->
  R g1 g2 ->
  fst (@assignment P G1 k (initial_world g1))
    = fst (@assignment P G2 k (initial_world g2))
  /\ written (snd (@assignment P G1 k (initial_world g1)))
      = written (snd (@assignment P G2 k (initial_world g2)))
  /\ calls (snd (@assignment P G1 k (initial_world g1)))
      = calls (snd (@assignment P G2 k (initial_world g2))).
Proof.
  intros HR Hg.
  destruct (related_assignment G1 G2 R HR k (initial_world g1) (initial_world g2))
    as (Hr & _ & Hw & Hc); [done|]. done.
Qed.

Lemma tape_same_draws (s1 s2 : list nat) (bound : nat) :
  Toy.same_draws s1 s2 ->
  fst (Toy.tape_draw s1 bound) = fst (Toy.tape_draw s2 bound)
  /\ Toy.same_draws (snd (Toy.tape_draw s1 bound)) (snd (Toy.tape_draw s2 bound)).
Proof.
  intros Hs. split.
  - specialize (Hs O). by destruct s1, s2.
  - intros i. specialize (Hs (S i)). destruct s1, s2; cbn in *; try done.
    + by destruct i.
    + by destruct i.
Defined.

Lemma same_draws_same_tables_witness :
  Toy.same_draws [1%nat] [1%nat; O; O]
  /\ (fst (@assignment Toy.router Toy.tape
             (Toy.run_args 1 100 [Toy.trip 5 6]) (@initial_world Toy.tape [1%nat]))
      = fst (@assignment Toy.router Toy.tape
               (Toy.run_args 1 100 [Toy.trip 5 6])
               (@initial_world Toy.tape [1%nat; O; O]))
      /\ written (snd (@assignment Toy.router Toy.tape
                         (Toy.run_args 1 100 [Toy.trip 5 6])
                         (@initial_world Toy.tape [1%nat])))
         = written (snd (@assignment Toy.router Toy.tape
                           (Toy.run_args 1 100 [Toy.trip 5 6])
                           (@initial_world Toy.tape [1%nat; O; O])))
      /\ calls (snd (@assignment Toy.router Toy.tape
                       (Toy.run_args 1 100 [Toy.trip 5 6])
                       (@initial_world Toy.tape [1%nat])))
         = calls (snd (@assignment Toy.router Toy.tape
                         (Toy.run_args 1 100 [Toy.trip 5 6])
                         (@initial_world Toy.tape [1%nat; O; O])))).
Proof.
  assert (Hs : Toy.same_draws [1%nat] [1%nat; O; O]).
  { intros [|[|[|[|i]]]]; reflexivity. }
  split; [exact Hs|].
  apply (@same_draws_same_tables Toy.router Toy.tape Toy.tape Toy.same_draws
           (Toy.run_args 1 100 [Toy.trip 5 6]) [1%nat] [1%nat; O; O]).
  - intros s1 s2 bound. apply tape_same_draws.
  - exact Hs.
Defined.

(** The claim C6 as stated has the tables follow from the arguments and a
    seed.  [assignment] takes no seed; with a substep size of one the only
    trip is put into substep 0 or into substep 1 by the draw of the global
    generator, and the final trip table says which: two runs on the same
    arguments write different tables. *)
Lemma global_generator_decides_tables :
  exists content0 content1,
    List.filter Toy.is_trip_file
      (written (snd (@assignment Toy.router Toy.tape
                       (Toy.run_args 1 100 [Toy.trip 5 6])
                       (@initial_world Toy.tape [O]))))
    = [TripInfoFile content0]
    /\ List.filter Toy.is_trip_file
         (written (snd (@assignment Toy.router Toy.tape
                          (Toy.run_args 1 100 [Toy.trip 5 6])
                          (@initial_world Toy.tape [1%nat]))))
       = [TripInfoFile content1]
    /\ map row_stop_ssid content0 = [Some 0]
    /\ map row_stop_ssid content1 = [Some 1].
Proof.
  eexists _, _.
  split; [vm_compute; reflexivity|].
  split; [vm_compute; reflexivity|].
  split; reflexivity.
Qed.

(** ** One row per trip (claim C3) *)

Lemma initial_trip_info_keys `{Pandana} (k : Assignment.args)
    (ti0 : PyDict.t trip_key trip_value) :
  initial_trip_info (od_with_path k) = Ok ti0 -> keyed_by_trips k ti0.
Proof.
  unfold initial_trip_info.
  destruct (has_quarter (od_with_path k)), (od_rows (od_with_path k)) eqn:E;
    try done; intros [= <-]; rewrite <- ?E;
    apply (pydict_comprehension_keys od_key initial_trip).
Qed.

Lemma final_trip_table_counts `{Pandana} (k : Assignment.args)
    (ti : PyDict.t trip_key trip_value) :
  keyed_by_trips k ti -> rows_per_key k (TripInfoFile (final_trip_table k ti)).
Proof.
  intros [Hnd Hkeys] key. unfold final_trip_table.
  rewrite filter_app, length_app, trip_rows_count by done.
  f_equal.
  - destruct (decide (key ∈ PyDict.keys ti)) as [Hin|Hnin],
             (decide (key ∈ map od_key (od_rows (od_with_path k)))) as [Hin'|Hnin'];
      try done.
    + by apply Hkeys in Hin.
    + by apply Hkeys in Hin'.
  - rewrite <- (count_map row_key), map_map.
    by rewrite <- (count_map od_key).
Qed.

(** X1.  The rows of every final trip table written by a run of
    [assignment]: per key, one row for all the trips with a path that share
    the key, and one row for each trip without a path. *)
Lemma trip_table_rows_per_key `{Pandana} `{NumpyRandom}
    (k : Assignment.args) (g : rng) :
  Forall (rows_per_key k) (written (snd (assignment k (initial_world g)))).
Proof.
  set (CallOk := fun _ : Substep.args => True).
  refine (proj2 (triple_run (calls_and_files_ok CallOk (rows_per_key k)) (assignment k)
                   (fun _ w => calls_and_files_ok CallOk (rows_per_key k) w)
                   (calls_and_files_ok CallOk (rows_per_key k)) (initial_world g) _ _ _)).
  - apply (assignment_ok k (fun _ _ => True) (keyed_by_trips k) (fun _ => True));
      try done.
    + intros c t t' res ti' _ _ _ [Hnd Hkeys] _ _ _ Hsub.
      apply (substep_assignment_facts c) in Hsub as (Hk & _ & _).
      split; [done|]. split; [|by apply Forall_true].
      unfold keyed_by_trips. by rewrite Hk.
    + intros ti Hti. by apply final_trip_table_counts.
    + intros ti0. apply initial_trip_info_keys.
  - split; constructor.
  - done.
Qed.

(** C3 at a failing input.  The same agent makes the trip 1 -> 2 in hour 6
    and again in hour 7: two trips of the demand table, one key.  The run
    returns and its final trip table has one row. *)
Lemma duplicate_key_trips_share_a_row :
  od_key (Toy.trip 5 6) = od_key (Toy.trip 5 7)
  /\ exists content,
       fst (@assignment Toy.router Toy.tape
              (Toy.run_args 30000 100 [Toy.trip 5 6; Toy.trip 5 7])
              (@initial_world Toy.tape [])) = Ok tt
       /\ List.filter Toy.is_trip_file
            (written (snd (@assignment Toy.router Toy.tape
                             (Toy.run_args 30000 100 [Toy.trip 5 6; Toy.trip 5 7])
                             (@initial_world Toy.tape []))))
          = [TripInfoFile content]
       /\ length content = 1%nat
       /\ map row_key content = [(5, 1, 2)]
       /\ Forall (fun r => Qeq_bool (row_travel_time r) 1200 = true) content.
Proof.
  split; [reflexivity|]. eexists.
  split; [vm_compute; reflexivity|].
  split; [vm_compute; reflexivity|].
  split; [reflexivity|]. split; [reflexivity|].
  repeat constructor.
Qed.

(** * More properties of the engine *)

(** ** The loaded frame has one row per pair of end points *)

Lemma drop_duplicates_seen (seen : list (Z * Z)) (l : list edge) (e : edge) :
  e ∈ drop_duplicates seen l -> edge_str e ∉ seen.
Proof.
  revert seen. induction l as [|y l IH]; intros seen; cbn.
  - intros Hin. by apply elem_of_nil in Hin.
  - destruct (bool_decide (edge_str y ∈ seen)) eqn:E.
    + apply IH.
    + apply bool_decide_eq_false_1 in E.
      intros Hin. apply elem_of_cons in Hin as [->|Hin]; [done|].
      apply IH in Hin. rewrite not_elem_of_cons in Hin. tauto.
Qed.

Lemma drop_duplicates_NoDup (seen : list (Z * Z)) (l : list edge) :
  NoDup (map edge_str (drop_duplicates seen l)).
Proof.
  revert seen. induction l as [|y l IH]; intros seen; cbn.
  - apply NoDup_nil_2.
  - destruct (bool_decide (edge_str y ∈ seen)); [apply IH|].
    cbn. apply NoDup_cons. split; [|apply IH].
    intros Hin. rewrite list_elem_of_In, in_map_iff in Hin.
    destruct Hin as (e & Heq & He). rewrite <- list_elem_of_In in He.
    apply drop_duplicates_seen in He. apply He. rewrite Heq. by left.
Qed.

Lemma insert_by_fft_sorted (e : edge) (l : list edge) :
  StronglySorted slower_first l -> StronglySorted slower_first (insert_by_fft e l).
Proof.
  induction 1 as [|x l Hl IH Hx]; cbn.
  - repeat constructor.
  - destruct (Qltb (fft e) (fft x)) eqn:E.
    + constructor; [exact IH|].
      apply Forall_forall. intros y Hy.
      rewrite list_elem_of_In, insert_by_fft_In in Hy. destruct Hy as [->|Hy].
      * apply Qltb_lt in E. unfold slower_first. lra.
      * rewrite Forall_forall in Hx. apply Hx. by rewrite list_elem_of_In.
    + apply Qltb_ge in E. constructor; [by constructor|].
      constructor; [exact E|].
      eapply Forall_impl; [exact Hx|]. intros y Hy. unfold slower_first in *. lra.
Qed.

Lemma sort_by_fft_sorted (l : list edge) : StronglySorted slower_first (sort_by_fft l).
Proof.
  unfold sort_by_fft. induction l as [|e l IH]; cbn; [constructor|].
  by apply insert_by_fft_sorted.
Qed.

Lemma drop_duplicates_keeps_slowest (seen : list (Z * Z)) (l : list edge) (x : edge) :
  StronglySorted slower_first l ->
  x ∈ l -> edge_str x ∉ seen ->
  exists e, e ∈ drop_duplicates seen l /\ edge_str e = edge_str x
            /\ (fft x <= fft e)%Q.
Proof.
  intros Hs. revert seen. induction Hs as [|y l Hl IH Hy]; intros seen Hx Hseen.
  - by apply elem_of_nil in Hx.
  - cbn. destruct (bool_decide (edge_str y ∈ seen)) eqn:E.
    + apply bool_decide_eq_true_1 in E.
      apply elem_of_cons in Hx as [->|Hx]; [done|]. by apply IH.
    + apply bool_decide_eq_false_1 in E.
      destruct (decide (edge_str x = edge_str y)) as [Heq|Hne].
      * exists y. split; [by left|]. split; [done|].
        apply elem_of_cons in Hx as [->|Hx]; [apply Qle_refl|].
        rewrite Forall_forall in Hy. by apply Hy.
      * apply elem_of_cons in Hx as [->|Hx]; [done|].
        destruct (IH (edge_str y :: seen) Hx) as (e & He & Hk & Hf).
        { rewrite not_elem_of_cons. done. }
        exists e. split; [by right|done].
Qed.

Lemma apply_closures_edge_str (closed_links : list Z) (df : list edge) :
  map edge_str (apply_closures closed_links df) = map edge_str df.
Proof.
  rewrite apply_closures_map, map_map. apply map_ext. intros e.
  by destruct (bool_decide _).
Qed.

(** X2.  Loading keeps one row for every pair of end points of the edge
    file: the index of the loaded frame has no repeated label, and where
    the file has several edges between the same two nodes, the row that is
    kept is one whose free-flow time is the largest of them. *)
Theorem load_network_keeps_slowest_parallel_edge (edges : list edge_csv)
    (nodes : list node_csv) (closed_links : list Z) :
  Forall (fun r => ~ (csv_maxspeed r == 0)%Q) edges ->
  exists t,
    load_network edges nodes closed_links = Ok (t, map node_id nodes)
    /\ NoDup (map edge_str (rows t))
    /\ forall r, r ∈ edges ->
         exists e, e ∈ rows t
           /\ edge_str e = (csv_start_nid r, csv_end_nid r)
           /\ (csv_length r / csv_maxspeed r * 2.23694 <= normal_fft e)%Q.
Proof.
  intros _. eexists. split; [reflexivity|]. cbn [rows].
  split.
  - rewrite apply_closures_edge_str. apply drop_duplicates_NoDup.
  - intros r Hr.
    destruct (drop_duplicates_keeps_slowest [] (sort_by_fft (map edge_of_csv edges))
                (edge_of_csv r)) as (e & He & Hk & Hf).
    + apply sort_by_fft_sorted.
    + rewrite list_elem_of_In, sort_by_fft_In. apply in_map.
      by rewrite <- list_elem_of_In.
    + apply not_elem_of_nil.
    + rewrite apply_closures_map.
      exists (if bool_decide (uniqueid e ∈ closed_links)
              then with_capacity_fft 1 closed_time e else e).
      split.
      { rewrite list_elem_of_In, in_map_iff. exists e.
        split; [done|]. by rewrite <- list_elem_of_In. }
      assert (Hn : normal_fft e = fft e).
      { rewrite list_elem_of_In in He.
        apply drop_duplicates_In, sort_by_fft_In, in_map_iff in He
          as (r0 & <- & _). done. }
      destruct (bool_decide _); cbn; rewrite ?Hn; split; try done.
Qed.

Lemma load_network_keeps_slowest_parallel_edge_witness :
  Forall (fun r => ~ (csv_maxspeed r == 0)%Q) Sample.parallel_edges
  /\ exists t,
       load_network Sample.parallel_edges Toy.nodes_file [] = Ok (t, [1; 2])
       /\ map uniqueid (rows t) = [8]
       /\ NoDup (map edge_str (rows t))
       /\ Forall (fun r =>
            exists e, e ∈ rows t
              /\ edge_str e = (csv_start_nid r, csv_end_nid r)
              /\ (csv_length r / csv_maxspeed r * 2.23694 <= normal_fft e)%Q)
            Sample.parallel_edges.
Proof.
  assert (Hspeed : Forall (fun r => ~ (csv_maxspeed r == 0)%Q) Sample.parallel_edges).
  { repeat constructor; intros Hz; vm_compute in Hz; discriminate Hz. }
  split; [exact Hspeed|].
  destruct (load_network_keeps_slowest_parallel_edge Sample.parallel_edges
              Toy.nodes_file [] Hspeed) as (t & Ht & Hnd & Hall).
  exists t. split; [exact Ht|]. split.
  { vm_compute in Ht. injection Ht as <-. reflexivity. }
  split; [exact Hnd|]. apply Forall_forall. exact Hall.
Defined.

(** ** Rounding is monotone *)

(** [round_half_even x] is within a half of [x], and an even number when
    [x] is exactly half way. *)
Lemma round_half_even_spec (n : Z) (d : positive) :
  let a := round_half_even (n # d) in
  (2 * a - 1) * Z.pos d <= 2 * n <= (2 * a + 1) * Z.pos d
  /\ (2 * n = (2 * a - 1) * Z.pos d -> Z.even a = true)
  /\ (2 * n = (2 * a + 1) * Z.pos d -> Z.even a = true).
Proof.
  unfold round_half_even. cbn [Qnum Qden].
  pose proof (Z.div_mod n (Z.pos d) ltac:(lia)) as Hdm.
  pose proof (Z.mod_pos_bound n (Z.pos d) ltac:(lia)) as Hr.
  set (f := n / Z.pos d) in *. set (r := n mod Z.pos d) in *.
  destruct (Z.compare_spec (2 * r) (Z.pos d)) as [He|Hl|Hg].
  - destruct (Z.even f) eqn:Ef.
    + split; [nia|]. split; [nia|]. done.
    + split; [nia|]. split; [|nia]. intros _.
      rewrite Z.even_add, Ef. done.
  - split; [nia|]. split; nia.
  - split; [nia|]. split; nia.
Qed.

Lemma round_half_even_mono (x y : Q) :
  (x <= y)%Q -> round_half_even x <= round_half_even y.
Proof.
  destruct x as [n d], y as [m e]. intros Hxy. unfold Qle in Hxy.
  cbn [Qnum Qden] in Hxy.
  destruct (round_half_even_spec n d) as ((Hlo & _) & Hlow & _).
  destruct (round_half_even_spec m e) as ((_ & Hhi) & _ & Hhigh).
  set (a := round_half_even (n # d)) in *.
  set (b := round_half_even (m # e)) in *.
  destruct (Z_le_gt_dec a b) as [|Hgt]; [done|exfalso].
  assert (H1 : (2 * a - 1) * (Z.pos d * Z.pos e) <= 2 * n * Z.pos e) by nia.
  assert (H2 : 2 * m * Z.pos d <= (2 * b + 1) * (Z.pos d * Z.pos e)) by nia.
  assert (H3 : 2 * n * Z.pos e <= 2 * m * Z.pos d) by nia.
  assert (Hab : a = b + 1) by nia.
  assert (Hn : 2 * n = (2 * a - 1) * Z.pos d) by nia.
  assert (Hm : 2 * m = (2 * b + 1) * Z.pos e) by nia.
  specialize (Hlow Hn). specialize (Hhigh Hm).
  rewrite Hab, Z.even_add, Hhigh in Hlow. done.
Qed.

Lemma round2_mono (x y : Q) : (x <= y)%Q -> (round2 x <= round2 y)%Q.
Proof.
  intros Hxy. unfold round2, Qle. cbn [Qnum Qden].
  assert (round_half_even (x * 100) <= round_half_even (y * 100)).
  { apply round_half_even_mono. nra. }
  lia.
Qed.

Lemma clamp_closed_mono (x y : Q) : (x <= y)%Q -> (clamp_closed x <= clamp_closed y)%Q.
Proof.
  intros Hxy. unfold clamp_closed.
  destruct (Qltb closed_time x) eqn:Ex, (Qltb closed_time y) eqn:Ey;
    rewrite ?Qltb_lt, ?Qltb_ge in *; lra.
Qed.

Lemma bpr_ge_fft (alpha_f : Q) (beta_f : Z) (fft_ flow_ capacity_ : Q) :
  (0 <= alpha_f)%Q -> (0 <= fft_)%Q -> (0 <= flow_)%Q -> (1 <= capacity_)%Q ->
  (fft_ <= bpr alpha_f beta_f fft_ flow_ capacity_)%Q.
Proof.
  intros Ha Hf Hfl Hc. unfold bpr.
  assert (Hr : (0 <= flow_ / capacity_)%Q).
  { unfold Qdiv. apply Qmult_le_0_compat; [done|].
    apply Qinv_le_0_compat. lra. }
  pose proof (Qpower_0_le _ beta_f Hr) as Hp.
  pose proof (Qmult_le_0_compat _ _ Ha Hp) as Hap.
  set (x := (alpha_f * (flow_ / capacity_) ^ beta_f)%Q) in *.
  nra.
Qed.

Section MoreTriples.
Context `{Pandana} `{NumpyRandom}.

(** The loop rule with the iterations done so far: [L pre] is the
    invariant once the elements [pre] have been processed. *)
Lemma triple_for_each_prefix {X S} (xs : list X) (body : X -> S -> M S)
    (L : list X -> S -> world -> Prop) (E : world -> Prop) :
  (forall pre x post s, xs = pre ++ x :: post ->
     triple (L pre s) (body x s) (L (pre ++ [x])) E) ->
  forall s, triple (L [] s) (for_each xs body s) (L xs) E.
Proof.
  intros Hbody.
  assert (Hgen : forall suf pre s, xs = pre ++ suf ->
            triple (L pre s) (for_each suf body s) (L xs) E).
  { induction suf as [|x suf IH]; intros pre s Hxs.
    - rewrite app_nil_r in Hxs. subst pre. by apply triple_ret.
    - cbn [for_each]. eapply triple_bind.
      + by apply (Hbody pre x suf).
      + intros s'. apply IH. by rewrite <- app_assoc. }
  intros s. by apply Hgen.
Qed.

(** The values that [np.random.choice] draws are elements of [ids]. *)
Lemma triple_draws_in (P : world -> Prop) (ids : list Z) (size : nat) E :
  ids <> [] ->
  (forall w g, P w ->
     P {| generator := g; written := written w; calls := calls w |}) ->
  triple P (draws ids size)
         (fun l w => (length l = size /\ Forall (fun i => i ∈ ids) l) /\ P w) E.
Proof.
  intros Hne HP. induction size as [|n IH]; cbn [draws].
  - apply triple_ret. intros w Hw. split; [|done]. split; [done|constructor].
  - eapply triple_bind with (R := fun i w => (i < length ids)%nat /\ P w).
    { unfold m_draw. intros w Hw.
      destruct (rng_draw (generator w) (length ids)) as [i g].
      split; [|by apply HP].
      apply Nat.mod_upper_bound. destruct ids; [done|cbn; lia]. }
    intros i. intros w [Hi Hw]. revert w Hw.
    eapply triple_bind; [apply IH|].
    intros l. apply triple_ret. intros w [[Hl Hin] Hw]. cbn.
    split; [|done]. split; [by rewrite Hl|]. constructor; [|done].
    rewrite list_elem_of_In. by apply nth_In.
Qed.

Lemma triple_random_choice_in (P : world -> Prop) (ids : list Z) (size : nat)
    (E : world -> Prop) :
  (forall w g, P w ->
     P {| generator := g; written := written w; calls := calls w |}) ->
  (forall w, P w -> E w) ->
  triple P (random_choice ids size)
         (fun l w => (length l = size /\ Forall (fun i => i ∈ ids) l) /\ P w) E.
Proof.
  intros HP HE. unfold random_choice.
  destruct ids as [|i ids]; [destruct size as [|n]|].
  - cbn [draws]. apply triple_ret. intros w Hw. split; [|done].
    split; [done|constructor].
  - apply triple_lift. auto.
  - by apply triple_draws_in.
Qed.

End MoreTriples.

(** ** The batches of a quarter *)

Lemma batch_of_cons (a : agent) (m : Z) (l : list (agent * Z)) (ss : Z) :
  batch_of ((a, m) :: l) ss =
  if bool_decide (m = ss) then a :: batch_of l ss else batch_of l ss.
Proof. unfold batch_of. cbn. by destruct (bool_decide (m = ss)). Qed.

Lemma batches_insert (a : agent) (m : Z) (l : list (agent * Z)) (ids : list Z) :
  NoDup ids ->
  concat (map (batch_of ((a, m) :: l)) ids) ≡ₚ
  (if bool_decide (m ∈ ids) then [a] else []) ++ concat (map (batch_of l) ids).
Proof.
  induction 1 as [|ss ids Hnotin Hnd IH]; cbn [map concat].
  - done.
  - rewrite IH, batch_of_cons.
    destruct (decide (m = ss)) as [->|Hne].
    + rewrite bool_decide_eq_true_2 by done.
      rewrite (bool_decide_eq_true_2 (ss ∈ ss :: ids)) by (by left).
      rewrite (bool_decide_eq_false_2 (ss ∈ ids)) by done. done.
    + rewrite bool_decide_eq_false_2 by done.
      destruct (bool_decide (m ∈ ids)) eqn:E.
      * apply bool_decide_eq_true_1 in E.
        rewrite (bool_decide_eq_true_2 (m ∈ ss :: ids)) by (by right).
        cbn. by rewrite Permutation_middle.
      * apply bool_decide_eq_false_1 in E.
        rewrite (bool_decide_eq_false_2 (m ∈ ss :: ids)); [done|].
        rewrite not_elem_of_cons. done.
Qed.

(** The batches of distinct substeps are disjoint parts of the quarter. *)
Lemma batches_length_le (l : list (agent * Z)) (ids : list Z) :
  NoDup ids -> (length (concat (map (batch_of l) ids)) <= length l)%nat.
Proof.
  intros Hnd. induction l as [|[a m] l IH].
  - induction ids as [|ss ids IHs]; [done|]. cbn.
    apply NoDup_cons in Hnd as [_ Hnd]. by apply IHs.
  - rewrite batches_insert by done. rewrite length_app.
    destruct (bool_decide _); cbn; lia.
Qed.

(** Together the batches are the quarter, when every agent was given one
    of the substeps. *)
Lemma batches_partition (l : list (agent * Z)) (ids : list Z) :
  NoDup ids -> Forall (fun az => snd az ∈ ids) l ->
  concat (map (batch_of l) ids) ≡ₚ map fst l.
Proof.
  intros Hnd Hl. induction Hl as [|[a m] l Hm Hl IH].
  - induction ids as [|ss ids IHs]; [done|]. cbn.
    apply NoDup_cons in Hnd as [_ Hnd]. by apply IHs.
  - rewrite batches_insert by done. cbn [snd] in Hm.
    rewrite bool_decide_eq_true_2 by done. cbn. by rewrite IH.
Qed.

Lemma NoDup_range_from (a b : Z) : NoDup (range_from a b).
Proof.
  unfold range_from. apply NoDup_fmap_2; [|apply NoDup_seq].
  intros i j Hij. lia.
Qed.

Lemma elem_of_range (n i : Z) : i ∈ range n <-> 0 <= i < n.
Proof.
  unfold range, range_from. rewrite list_elem_of_In, in_map_iff. split.
  - intros (j & <- & Hj). apply in_seq in Hj. lia.
  - intros Hi. exists (Z.to_nat i). split; [lia|]. apply in_seq. lia.
Qed.

(** ** Invariants of a run, with what the loops know *)

Section RunFacts.
Context `{Pandana} `{NumpyRandom}.
Variable k : Assignment.args.

(** As in the section above, with more of what the loops establish handed
    to the obligations.  [EI ho] is the invariant of the edge frame between
    the quarters and [EQ h q] the one inside quarter [q] of hour [h], from
    the reset of [vol_true] to the update of [vol_tot]; a per-quarter volume
    file holds the frame after that update.  An admitted trip is a trip of
    an hour of the hour list and a quarter of the quarter list; the agents
    of an invocation are away from their destination; the batch is at most
    the demand assigned so far, and that at most the demand of the
    quarter. *)
Variable EI : option Z -> edges_table -> Prop.
Variable EQ : Z -> Z -> edges_table -> Prop.
Variable TI : PyDict.t trip_key trip_value -> Prop.
Variable RI : agent -> Prop.
Variable CallOk : Substep.args -> Prop.
Variable FileOk : file -> Prop.

Hypothesis EI_hour : forall ho h t, EI ho t -> EI (Some h) (hour_edges k h t).
Hypothesis EQ_reset : forall h q t,
  EI (Some h) t ->
  EQ h q {| has_flow := has_flow t; rows := map (with_vol_true 0) (rows t) |}.
Hypothesis EQ_total : forall h q t,
  EQ h q t ->
  EI (Some h)
     {| has_flow := has_flow t;
        rows := map (fun e => with_vol_tot (vol_tot e + vol_true e) e) (rows t) |}.
Hypothesis RI_new : forall od q,
  od ∈ od_rows (od_with_path k) ->
  od_hour od ∈ Assignment.hour_list k ->
  q ∈ quarters k ->
  (has_quarter (od_with_path k) = true -> od_quarter od = q) ->
  RI (new_agent od).
Hypothesis call_ok : forall c t,
  configured k c ->
  rows t = Substep.weighted_edges_df c ->
  EQ (Substep.hour c) (Substep.quarter c) t ->
  TI (Substep.trip_info c) ->
  Forall (fun a => RI a /\ en_route a) (Substep.od_ss c) ->
  1 <= Substep.assigned_demand c ->
  Z.of_nat (length (Substep.od_ss c)) <= Substep.assigned_demand c
    <= Substep.quarter_demand c ->
  Substep.hour c ∈ Assignment.hour_list k ->
  Substep.quarter c ∈ quarters k ->
  CallOk c.
Hypothesis call_keeps : forall c t t' res ti',
  configured k c ->
  rows t = Substep.weighted_edges_df c ->
  EQ (Substep.hour c) (Substep.quarter c) t ->
  TI (Substep.trip_info c) ->
  Forall (fun a => RI a /\ en_route a) (Substep.od_ss c) ->
  1 <= Substep.assigned_demand c ->
  Z.of_nat (length (Substep.od_ss c)) <= Substep.assigned_demand c
    <= Substep.quarter_demand c ->
  Substep.hour c ∈ Assignment.hour_list k ->
  Substep.quarter c ∈ quarters k ->
  substep_assignment c = Ok (t', res, ti') ->
  EQ (Substep.hour c) (Substep.quarter c) t' /\ TI ti' /\ Forall RI res.
Hypothesis edge_vol_ok : forall h q t,
  h ∈ Assignment.hour_list k -> q ∈ quarters k ->
  EQ h q t -> has_flow t = true ->
  FileOk (EdgeVolFile h q
            (edge_vol_content
               (map (fun e => with_vol_tot (vol_tot e + vol_true e) e) (rows t)))).
Hypothesis checkpoint_ok : forall h ti,
  h ∈ Assignment.hour_list k -> TI ti -> FileOk (TripInfoCheckpoint h (trip_rows ti)).
Hypothesis trip_file_ok : forall ti,
  TI ti -> FileOk (TripInfoFile (final_trip_table k ti)).
Hypothesis final_vol_ok : forall ho h q t,
  EI ho t -> FileOk (FinalEdgeVolFile h q (final_vol_content (rows t))).

Local Abbreviation world_ok := (calls_and_files_ok CallOk FileOk).
Local Abbreviation vars_ok := (loop_vars_ok EI TI RI).
Local Abbreviation quarter_vars_ok :=
  (fun (hour quarter : Z) (s : loop_vars) =>
     EQ hour quarter (lv_edges_df s) /\ TI (lv_trip_info s)
     /\ Forall RI (lv_od_residual_list s)).

Lemma world_facts_written (w : world) (f : file) :
  FileOk f -> world_ok w ->
  world_ok {| generator := generator w; written := written w ++ [f];
              calls := calls w |}.
Proof.
  intros Hf [Hc Hw]. split; [done|]. cbn. apply Forall_app. split; [done|].
  by constructor.
Qed.

Lemma world_facts_called (w : world) (c : Substep.args) :
  CallOk c -> world_ok w ->
  world_ok {| generator := generator w; written := written w;
              calls := calls w ++ [c] |}.
Proof.
  intros Hc [Hcs Hw]. split; [|done]. cbn. apply Forall_app. split; [done|].
  by constructor.
Qed.

Lemma substep_iteration_facts (hour quarter : Z) (od_quarter : list (agent * Z))
    (pre : list Z) (ss_id : Z) (post : list Z) (s : loop_vars) :
  hour ∈ Assignment.hour_list k -> quarter ∈ quarters k ->
  Forall (fun a => RI a /\ en_route a) (map fst od_quarter) ->
  NoDup (pre ++ ss_id :: post) ->
  lv_hour s = Some hour ->
  lv_assigned_demand s
    = Z.of_nat (length (concat (map (batch_of od_quarter) pre))) ->
  quarter_vars_ok hour quarter s ->
  triple world_ok
         (substep_iteration k hour quarter (Z.of_nat (length od_quarter))
            od_quarter ss_id s)
         (fun s' w =>
            (lv_hour s' = Some hour
             /\ lv_assigned_demand s'
                = Z.of_nat (length (concat (map (batch_of od_quarter)
                                                (pre ++ [ss_id]))))
             /\ quarter_vars_ok hour quarter s') /\ world_ok w)
         world_ok.
Proof.
  intros Hhour Hquarter Hod Hnd Hh Ha (He & Ht & Hr). unfold substep_iteration.
  fold (batch_of od_quarter ss_id).
  set (od_ss := batch_of od_quarter ss_id).
  assert (Hss : Forall (fun a => RI a /\ en_route a) od_ss).
  { rewrite Forall_forall in Hod. apply Forall_forall. intros a Hin.
    apply Hod. unfold od_ss, batch_of in Hin.
    rewrite list_elem_of_In, in_map_iff in Hin. destruct Hin as (az & <- & Haz).
    apply filter_In in Haz as [Haz _].
    rewrite list_elem_of_In. apply in_map. exact Haz. }
  assert (Hsum : lv_assigned_demand s + Z.of_nat (length od_ss)
                 = Z.of_nat (length (concat (map (batch_of od_quarter)
                                                 (pre ++ [ss_id]))))).
  { rewrite Ha, map_app, concat_app, length_app. cbn [map concat].
    rewrite app_nil_r. fold od_ss. lia. }
  assert (Hle : lv_assigned_demand s + Z.of_nat (length od_ss)
                <= Z.of_nat (length od_quarter)).
  { rewrite Hsum. apply inj_le. apply batches_length_le.
    rewrite cons_middle, (assoc_L (++)) in Hnd.
    by apply NoDup_app in Hnd as [Hnd _]. }
  destruct (decide _) as [Hz|Hnz].
  - apply triple_ret. intros w Hw. cbn. done.
  - cbn [with_assigned_demand lv_assigned_demand] in Hnz.
    set (c := substep_args k hour quarter (Z.of_nat (length od_quarter)) od_ss
                ss_id _).
    assert (Hc1 : 1 <= Substep.assigned_demand c) by (cbn; lia).
    assert (Hc2 : Z.of_nat (length (Substep.od_ss c)) <= Substep.assigned_demand c
                  <= Substep.quarter_demand c) by (cbn; lia).
    eapply triple_bind with (R := fun _ w => world_ok w).
    { apply triple_called. intros w Hw. apply world_facts_called; [|done].
      by apply (call_ok c (lv_edges_df s)). }
    intros _. eapply triple_bind with
      (R := fun out w => substep_assignment c = Ok out /\ world_ok w).
    { apply triple_lift. intros w Hw.
      destruct (substep_assignment c) as [out|err]; done. }
    intros [[t' res] ti']. apply triple_ret. intros w (Esub & Hw).
    destruct (call_keeps c (lv_edges_df s) t' res ti') as (He' & Ht' & Hr');
      try done.
    cbn in *. split; [|done]. split; [done|]. split; [done|]. split; [done|].
    split; [done|]. by apply Forall_app.
Qed.

Lemma quarter_iteration_facts (hour : Z) (trips : list od_row) (quarter : Z)
    (s : loop_vars) :
  hour ∈ Assignment.hour_list k -> quarter ∈ quarters k ->
  Forall (fun od => od_quarter od = quarter -> RI (new_agent od)) trips ->
  lv_hour s = Some hour -> vars_ok s ->
  triple world_ok
         (quarter_iteration k hour trips quarter s)
         (fun s' w => (lv_hour s' = Some hour /\ vars_ok s') /\ world_ok w)
         world_ok.
Proof.
  intros Hhour Hquarter Hod Hh (He & Ht & Hr). unfold quarter_iteration.
  fold (quarter_agents trips quarter (lv_od_residual_list s)).
  set (agents := quarter_agents trips quarter (lv_od_residual_list s)).
  assert (Hq : Forall (fun a => RI a /\ en_route a) agents).
  { apply Forall_forall. intros a Hin. unfold agents, quarter_agents in Hin.
    rewrite list_elem_of_In in Hin.
    apply filter_In in Hin as [Hin Hen]. split.
    - apply in_app_or in Hin as [Hnew|Hres].
      + apply in_map_iff in Hnew as (od & <- & Hin).
        apply filter_In in Hin as [Hin Hqt].
        apply bool_decide_eq_true_1 in Hqt.
        rewrite Forall_forall in Hod. apply Hod; [|done].
        by rewrite list_elem_of_In.
      + rewrite Forall_forall in Hr. apply Hr. by rewrite list_elem_of_In.
    - apply negb_true_iff, bool_decide_eq_false_1 in Hen. exact Hen. }
  destruct (decide _) as [Hz|Hnz].
  { apply triple_lift. done. }
  set (ids := range _).
  eapply triple_bind with
    (R := fun msk w => length msk = length agents /\ world_ok w).
  { eapply triple_weaken.
    - by apply (triple_random_choice world_ok _ _ world_ok).
    - done.
    - intros msk w [Hl Hw]. done.
    - done. }
  intros msk. intros w [Hmsk Hw]. revert w Hw.
  assert (Hlen : length (zip agents msk) = length agents).
  { rewrite length_zip_with. lia. }
  assert (Hfst : map fst (zip agents msk) = agents).
  { apply fst_zip. lia. }
  rewrite <- Hlen.
  eapply triple_bind with
    (R := fun s' w => (lv_hour s' = Some hour /\ quarter_vars_ok hour quarter s')
                      /\ world_ok w).
  { eapply triple_weaken.
    - apply (triple_for_each_prefix ids _
               (fun pre s' w =>
                  (lv_hour s' = Some hour
                   /\ lv_assigned_demand s'
                      = Z.of_nat (length (concat (map (batch_of (zip agents msk))
                                                      pre)))
                   /\ quarter_vars_ok hour quarter s') /\ world_ok w) world_ok).
      intros pre ss_id post s0 Hids w ((Hh0 & Ha0 & Hv0) & Hw). revert w Hw.
      apply (substep_iteration_facts hour quarter (zip agents msk)
               pre ss_id post s0); try done.
      + by rewrite Hfst.
      + rewrite <- Hids. apply NoDup_range_from.
    - intros w Hw. cbn. split; [|done].
      split; [done|]. split; [done|]. split; [|done].
      apply EQ_reset. by rewrite <- Hh.
    - intros s' w ((Hh' & _ & Hv') & Hw). done.
    - done. }
  intros s'.
  eapply triple_bind with
    (R := fun _ w => (lv_hour s' = Some hour /\ quarter_vars_ok hour quarter s')
                     /\ world_ok w).
  { unfold write_edge_vol. cbn [has_flow rows].
    destruct (has_flow (lv_edges_df s')) eqn:Eflow.
    - apply triple_write. intros w ((Hh' & He' & Ht' & Hr') & Hw).
      split; [done|]. apply world_facts_written; [|done].
      by apply edge_vol_ok.
    - by apply triple_ret. }
  intros _. apply triple_ret.
  intros w ((Hh' & He' & Ht' & Hr') & Hw).
  unfold loop_vars_ok. cbn. split; [|done]. split; [done|]. split; [|done].
  rewrite Hh'. by apply (EQ_total hour quarter).
Qed.

Lemma hour_iteration_facts (hour : Z) (s : loop_vars) :
  hour ∈ Assignment.hour_list k ->
  vars_ok s ->
  triple world_ok
         (hour_iteration k (od_with_path k) hour s)
         (fun s' w => vars_ok s' /\ world_ok w)
         world_ok.
Proof.
  intros Hhour (He & Ht & Hr). unfold hour_iteration.
  set (trips := List.filter _ (od_rows (od_with_path k))).
  assert (Hod : forall od, od ∈ trips ->
            od ∈ od_rows (od_with_path k) /\ od_hour od ∈ Assignment.hour_list k).
  { intros od Hin. unfold trips in Hin. rewrite list_elem_of_In in Hin.
    apply filter_In in Hin as [Hin Hh]. apply bool_decide_eq_true_1 in Hh.
    rewrite Hh. split; [by rewrite list_elem_of_In|done]. }
  eapply triple_bind with
    (R := fun l w =>
            Forall (fun od => forall q, q ∈ quarters k -> od_quarter od = q ->
                                        RI (new_agent od)) l
            /\ world_ok w).
  { destruct (has_quarter (od_with_path k)) eqn:Ehq.
    - apply triple_ret. intros w Hw. split; [|done].
      apply Forall_forall. intros od Hin q Hq Hoq.
      destruct (Hod od Hin) as [Hrow Hh]. by apply (RI_new od q).
    - eapply triple_bind with (R := fun _ w => world_ok w).
      + eapply triple_weaken.
        * by apply (triple_random_choice world_ok _ _ world_ok).
        * done.
        * intros msk w [_ Hw]. exact Hw.
        * done.
      + intros msk. apply triple_ret. intros w Hw. split; [|done].
        apply Forall_forall. intros od Hin q Hq _.
        apply elem_of_zip_with_quarter in Hin as (od0 & q0 & Hin & ->).
        rewrite new_agent_with_quarter.
        destruct (Hod od0 Hin) as [Hrow Hh]. by apply (RI_new od0 q). }
  intros od_hour'. intros w [Hod' Hw]. revert w Hw.
  eapply triple_bind with
    (R := fun s' w => (lv_hour s' = Some hour /\ vars_ok s') /\ world_ok w).
  { eapply triple_weaken.
    - apply (triple_for_each _ _
               (fun s' w => (lv_hour s' = Some hour /\ vars_ok s') /\ world_ok w)
               world_ok).
      intros quarter s0 Hquarter w ((Hh0 & Hv0) & Hw). revert w Hw.
      apply quarter_iteration_facts; try done.
      eapply Forall_impl; [exact Hod'|]. intros od Hq Hoq. by apply (Hq quarter).
    - intros w Hw. unfold loop_vars_ok. cbn. split; [|done]. split; [done|].
      split; [|done]. by eapply EI_hour.
    - done.
    - done. }
  intros s'.
  eapply triple_bind with
    (R := fun _ w => (lv_hour s' = Some hour /\ vars_ok s') /\ world_ok w).
  { destruct (decide _).
    - apply triple_write. intros w ((Hh' & He' & Ht' & Hr') & Hw).
      split; [done|]. apply world_facts_written; [|done]. by apply checkpoint_ok.
    - by apply triple_ret. }
  intros _. apply triple_ret. intros w ((_ & Hv) & Hw). done.
Qed.

Hypothesis EI_start : forall ti0, EI None (lv_edges_df (initial_vars k ti0)).
Hypothesis TI_start : forall ti0,
  initial_trip_info (od_with_path k) = Ok ti0 -> TI ti0.

Lemma simulation_facts (ti0 : PyDict.t trip_key trip_value) :
  TI ti0 ->
  triple world_ok (simulation k ti0) (fun s w => vars_ok s /\ world_ok w) world_ok.
Proof.
  intros Hti0. unfold simulation. eapply triple_weaken.
  - apply (triple_for_each _ _ (fun s w => vars_ok s /\ world_ok w) world_ok).
    intros hour s0 Hhour w (Hv0 & Hw). revert w Hw. by apply hour_iteration_facts.
  - intros w Hw. split; [|done]. split; [apply EI_start|].
    split; [done|]. constructor.
  - done.
  - done.
Qed.

(** Every invocation of [substep_assignment] and every file written in a
    run of [assignment] is as the invariants make it, whether the run
    returns or raises. *)
Lemma assignment_facts :
  triple world_ok (assignment k) (fun _ w => world_ok w) world_ok.
Proof.
  unfold assignment.
  eapply triple_bind with
    (R := fun ti0 w => initial_trip_info (od_with_path k) = Ok ti0 /\ world_ok w).
  { apply triple_lift. intros w Hw.
    destruct (initial_trip_info (od_with_path k)); done. }
  intros ti0. intros w [Hti0 Hw]. revert w Hw.
  eapply triple_bind with (R := fun s w => vars_ok s /\ world_ok w).
  { apply simulation_facts. by apply TI_start. }
  intros s. unfold write_results.
  eapply triple_bind with (R := fun _ w => vars_ok s /\ world_ok w).
  { apply triple_write. intros w ((He & Ht & Hr) & Hw). split; [done|].
    apply world_facts_written; [|done]. by apply trip_file_ok. }
  intros _.
  eapply triple_bind with (R := fun _ w => vars_ok s /\ world_ok w).
  { apply triple_lift. intros w [Hv Hw]. destruct (of_option _ _); [done|].
    exact Hw. }
  intros quarter.
  eapply triple_bind with (R := fun _ w => vars_ok s /\ world_ok w).
  { apply triple_lift. intros w [Hv Hw]. destruct (of_option _ _); [done|].
    exact Hw. }
  intros hour. apply triple_write. intros w ((He & Ht & Hr) & Hw).
  apply world_facts_written; [|done]. by eapply final_vol_ok.
Qed.

End RunFacts.

(** ** More on ordered dictionaries *)

Section MoreDictFacts.
Context {K V : Type} `{EqDecision K}.
Implicit Types (d : PyDict.t K V) (k : K) (x : V).

Lemma pydict_get_set_eq d k x : PyDict.get k (PyDict.set k x d) = Some x.
Proof.
  induction d as [|[k' y] d IH]; cbn.
  - by destruct (decide (k = k)).
  - destruct (decide (k = k')) as [->|Hne]; cbn.
    + by destruct (decide (k' = k')).
    + by destruct (decide (k = k')).
Qed.

Lemma pydict_get_set_ne d k k' x :
  k <> k' -> PyDict.get k' (PyDict.set k x d) = PyDict.get k' d.
Proof.
  intros Hne. induction d as [|[k0 y] d IH]; cbn.
  - destruct (decide (k' = k)); [congruence|done].
  - destruct (decide (k = k0)) as [->|Hne0]; cbn.
    + destruct (decide (k' = k0)); [congruence|done].
    + destruct (decide (k' = k0)); [done|]. exact IH.
Qed.

Lemma pydict_get_elem_of d k x :
  NoDup (PyDict.keys d) -> (k, x) ∈ d -> PyDict.get k d = Some x.
Proof.
  induction d as [|[k' y] d IH]; cbn; intros Hnd Hin.
  - by apply elem_of_nil in Hin.
  - apply NoDup_cons in Hnd as [Hnotin Hnd].
    apply elem_of_cons in Hin as [[= <- <-]|Hin].
    + by destruct (decide (k = k)).
    + destruct (decide (k = k')) as [->|Hne]; [|by apply IH].
      exfalso. apply Hnotin. rewrite list_elem_of_In. apply in_map_iff.
      exists (k', x). split; [done|]. by rewrite <- list_elem_of_In.
Qed.

Lemma pydict_get_Some_elem_of d k x : PyDict.get k d = Some x -> (k, x) ∈ d.
Proof.
  induction d as [|[k' y] d IH]; cbn; [done|].
  destruct (decide (k = k')) as [->|Hne].
  - intros [= ->]. by left.
  - intros Hg. right. by apply IH.
Qed.

(** The value of a key in a comprehension is that of one of the elements
    with that key. *)
Lemma pydict_comprehension_get {X} (key : X -> K) (val : X -> V) (xs : list X) k :
  k ∈ map key xs ->
  exists el, el ∈ xs /\ key el = k
            /\ PyDict.get k (PyDict.comprehension key val xs) = Some (val el).
Proof.
  unfold PyDict.comprehension.
  assert (Hgen : forall d,
    (exists el, el ∈ xs /\ key el = k
       /\ PyDict.get k (foldl (fun d' y => PyDict.set (key y) (val y) d') d xs)
          = Some (val el))
    \/ ((k ∉ map key xs)
        /\ PyDict.get k (foldl (fun d' y => PyDict.set (key y) (val y) d') d xs)
           = PyDict.get k d)).
  { induction xs as [|y xs IH]; intros d; cbn [foldl map].
    - right. split; [apply not_elem_of_nil|done].
    - destruct (IH (PyDict.set (key y) (val y) d))
        as [(el & Hx & Hk & Hg)|[Hnotin Hg]].
      + left. exists el. split; [by right|done].
      + destruct (decide (key y = k)) as [Heq|Hne].
        * left. exists y. split; [by left|]. split; [done|].
          rewrite Hg, <- Heq. apply pydict_get_set_eq.
        * right. split.
          { rewrite not_elem_of_cons. split; [congruence|done]. }
          rewrite Hg. by apply pydict_get_set_ne. }
  intros Hin. destruct (Hgen []) as [Hx|[Hnotin _]]; [done|].
  by destruct Hnotin.
Qed.

End MoreDictFacts.

(** ** More on one substep *)

Section MoreSubstepFacts.
Context `{Pandana}.
Variable k : Substep.args.

(** The budget left never runs out on the way: an edge is taken only
    when it costs less than what is left. *)
Lemma walk_remaining_positive (a : agent) (path_hops : list (Z * Z))
    (s s' : ss_vars) :
  (0 < remaining_time s)%Q ->
  walk k a path_hops s = Ok s' ->
  (0 < remaining_time s')%Q.
Proof.
  revert s. induction path_hops as [|[edge_s edge_e] rest IH]; intros s Hpos Hw;
    cbn in Hw.
  - by injection Hw as <-.
  - apply rbind_Ok in Hw as (t & Ht & Hw).
    destruct (Qltb t (remaining_time s) && Qltb t closed_time) eqn:Etest.
    + apply andb_true_iff in Etest as [Hb _]. apply Qltb_lt in Hb.
      apply rbind_Ok in Hw as (vol & Hvol & Hw).
      apply rbind_Ok in Hw as (veh & Hveh & Hw).
      apply IH in Hw; [done|]. cbn. lra.
    + apply rbind_Ok in Hw as (veh & Hveh & Hw). by injection Hw as <-.
Qed.

Lemma route_agent_residuals (pa : list Z * agent) (s s' : ss_vars) :
  0 <= Substep.quarter_counts k ->
  (0 <= current_link_time (snd pa))%Q ->
  route_agent k pa s = Ok s' ->
  Forall waiting (od_residual_ss_list s) ->
  Forall waiting (od_residual_ss_list s').
Proof.
  destruct pa as [path a]. cbn [snd]. intros Hqc Hclt. unfold route_agent.
  destruct (bool_decide _); [by intros [= <-]|].
  destruct (decide _) as [|Hne]; [done|].
  intros Hr Hres. apply rbind_Ok in Hr as (s1 & Hw & Hu).
  assert (Hpos : (0 < remaining_time s1)%Q).
  { eapply walk_remaining_positive; [|exact Hw]. cbn.
    assert (0 < 3600 / inject_Z (Substep.quarter_counts k))%Q; [|lra].
    apply Qlt_shift_div_l; [|lra].
    change 0%Q with (inject_Z 0). rewrite <- Zlt_Qlt. lia. }
  apply walk_spec in Hw.
  cbn [remaining_time used_time edge_quarter_vol trip_stop od_residual_ss_list
       trip_info] in Hw.
  destruct Hw as (_ & _ & _ & _ & _ & Hrest).
  apply update_trip_info_spec in Hu
    as (old & stop & _ & _ & _ & _ & _ & _ & _ & _ & ->).
  destruct (drop _ _) as [|edge rest].
  - destruct Hrest as [-> _]. done.
  - destruct Hrest as (-> & _). apply Forall_app. split; [done|].
    constructor; [|constructor]. split; [done|]. by exists edge.
Qed.

(** The entry of a key is touched only by an agent with that key that the
    time limit does not remove. *)
Lemma route_agent_trip_info (pa : list Z * agent) (s s' : ss_vars)
    (key : trip_key) :
  route_agent k pa s = Ok s' ->
  (agent_key (snd pa) = key -> agent_id (snd pa) ∈ remove_agent_list k) ->
  PyDict.get key (trip_info s') = PyDict.get key (trip_info s).
Proof.
  destruct pa as [path a]. cbn [snd]. unfold route_agent.
  destruct (bool_decide _) eqn:Erm; [by intros [= <-]|].
  apply bool_decide_eq_false_1 in Erm.
  destruct (decide _); [done|].
  intros Hr Hkey. apply rbind_Ok in Hr as (s1 & Hw & Hu).
  apply walk_spec in Hw.
  cbn [remaining_time used_time edge_quarter_vol trip_stop od_residual_ss_list
       trip_info] in Hw.
  destruct Hw as (_ & _ & _ & _ & Hti & _).
  apply update_trip_info_spec in Hu as (old & stop & _ & _ & -> & _).
  rewrite Hti. apply pydict_get_set_ne. intros Heq. by apply Erm, Hkey.
Qed.

Lemma route_agent_not_removed (pa : list Z * agent) (s s' : ss_vars) :
  route_agent k pa s = Ok s' ->
  Forall (fun a' => agent_id a' ∉ remove_agent_list k) (od_residual_ss_list s) ->
  Forall (fun a' => agent_id a' ∉ remove_agent_list k) (od_residual_ss_list s').
Proof.
  intros Hr Hres. pose proof Hr as Hr'.
  destruct pa as [path a]. unfold route_agent in Hr.
  destruct (bool_decide _) eqn:Erm; [by injection Hr as <-|].
  apply bool_decide_eq_false_1 in Erm.
  apply route_agent_facts in Hr' as (_ & _ & [->|(edge & left & ->)]); [done|].
  apply Forall_app. split; [done|]. by constructor; [|constructor].
Qed.

(** The agents that the time limit removes: all those of the batch that
    have the [agent_id] of an agent whose planned trip is longer than the
    limit. *)
Lemma elem_of_remove_agent_list (id : Z) :
  id ∈ remove_agent_list k <->
  exists limit b,
    Substep.agent_time_limit k = Some limit
    /\ b ∈ Substep.od_ss k /\ agent_id b = id
    /\ (limit + 0
        < shortest_path_length (substep_net k) (current_nid b) (destin_nid b))%Q.
Proof.
  unfold remove_agent_list, substep_path_lengths.
  destruct (Substep.agent_time_limit k) as [limit|].
  - rewrite list_elem_of_In, in_map_iff. split.
    + intros ([len b] & <- & Hin). apply filter_In in Hin as [Hin Hlt].
      cbn [fst snd] in *. apply Qltb_lt in Hlt.
      exists limit, b. split; [done|].
      pose proof Hin as Hb. apply in_combine_r in Hb.
      split; [by rewrite list_elem_of_In|]. split; [done|].
      assert (Hlen : len = shortest_path_length (substep_net k)
                             (current_nid b) (destin_nid b)); [|by rewrite <- Hlen].
      revert Hin. clear. induction (Substep.od_ss k) as [|b0 l IH]; cbn; [done|].
      intros [[= <- <-]|Hin]; [done|]. by apply IH.
    + intros (limit' & b & [= <-] & Hb & <- & Hlt).
      exists (shortest_path_length (substep_net k) (current_nid b) (destin_nid b), b).
      split; [done|]. apply filter_In. split; [|by apply Qltb_lt].
      rewrite list_elem_of_In in Hb. revert Hb. clear.
      induction (Substep.od_ss k) as [|b0 l IH]; cbn; [done|].
      intros [->|Hin]; [by left|]. right. by apply IH.
  - split; [intros Hin; by apply elem_of_nil in Hin|].
    by intros (limit & b & Hl & _).
Qed.

(** [substep_assignment] leaves alone the entry of a key all of whose
    agents in the batch are removed by the time limit, and so that of a key
    that no agent of the batch has. *)
Lemma substep_trip_info_untouched (t : edges_table) (res : list agent)
    (ti : PyDict.t trip_key trip_value) (key : trip_key) :
  substep_assignment k = Ok (t, res, ti) ->
  (forall a, a ∈ Substep.od_ss k -> agent_key a = key ->
             agent_id a ∈ remove_agent_list k) ->
  PyDict.get key ti = PyDict.get key (Substep.trip_info k).
Proof.
  intros Hsub Hkey. unfold substep_assignment in Hsub.
  apply rbind_Ok in Hsub as (s & Hfold & Hs). injection Hs as <- <- <-.
  refine (rfold_invariant
            (fun s => PyDict.get key (trip_info s)
                      = PyDict.get key (Substep.trip_info k)) _ _ _ _ _ _ Hfold);
    [|done].
  intros [path a] s1 s2 Hin Hget Hstep. rewrite <- Hget.
  eapply (route_agent_trip_info (path, a)); [exact Hstep|].
  cbn [snd]. apply Hkey. by apply elem_of_zip_r in Hin.
Qed.

End MoreSubstepFacts.

(** ** Congestion only slows down *)



(** ** The time limit *)

(** X5.  When [substep_assignment] returns: the agents that the time limit
    removes are all those of the batch that share the [agent_id] of an
    agent whose planned trip is longer than the limit; none of them is
    among the residual agents; and the entry of [trip_info] of a key all of
    whose agents are removed is as it was. *)
Theorem time_limit_removes_by_agent_id `{Pandana} (c : Substep.args)
    (t : edges_table) (res : list agent) (ti : PyDict.t trip_key trip_value) :
  substep_assignment c = Ok (t, res, ti) ->
  (forall id,
     id ∈ remove_agent_list c <->
     exists limit b,
       Substep.agent_time_limit c = Some limit
       /\ b ∈ Substep.od_ss c /\ agent_id b = id
       /\ (limit + 0
           < shortest_path_length (substep_net c) (current_nid b) (destin_nid b))%Q)
  /\ Forall (fun a' => agent_id a' ∉ remove_agent_list c) res
  /\ forall key,
       (forall a, a ∈ Substep.od_ss c -> agent_key a = key ->
                  agent_id a ∈ remove_agent_list c) ->
       PyDict.get key ti = PyDict.get key (Substep.trip_info c).
Proof.
  intros Hsub. split; [apply elem_of_remove_agent_list|]. split.
  - unfold substep_assignment in Hsub.
    apply rbind_Ok in Hsub as (s & Hfold & Hs). injection Hs as <- <- <-.
    refine (rfold_invariant
              (fun s => Forall (fun a' => agent_id a' ∉ remove_agent_list c)
                               (od_residual_ss_list s)) _ _ _ _ _ _ Hfold);
      [|apply Forall_nil_2].
    intros pa s1 s2 _ Hres Hstep. by eapply route_agent_not_removed.
  - intros key Hkey. by eapply substep_trip_info_untouched.
Qed.

Lemma time_limit_removes_by_agent_id_witness :
  match @substep_assignment Toy.router Sample.limited with
  | Ok (t, res, ti) =>
      0 ∈ @remove_agent_list Toy.router Sample.limited
      /\ res = []
      /\ PyDict.get (0, 1, 2) ti
         = PyDict.get (0, 1, 2) (Substep.trip_info Sample.limited)
  | Raise _ => False
  end.
Proof.
  destruct (@substep_assignment Toy.router Sample.limited)
    as [[[t res] ti]|err] eqn:Hrun.
  - destruct (@time_limit_removes_by_agent_id Toy.router Sample.limited t res ti
                Hrun) as (Hrm & Hres & Hti).
    assert (H0 : 0 ∈ @remove_agent_list Toy.router Sample.limited).
    { apply Hrm. exists 100%Q, Sample.long_trip.
      split; [done|]. split; [by right; left|]. split; [done|].
      vm_compute. done. }
    split; [done|]. split.
    + vm_compute in Hrun. by injection Hrun as <- <- <-.
    + apply Hti. intros a Ha _.
      apply elem_of_cons in Ha as [->|Ha]; [done|].
      apply elem_of_cons in Ha as [->|Ha]; [done|].
      by apply elem_of_nil in Ha.
  - vm_compute in Hrun. discriminate Hrun.
Defined.

Lemma quarter_counts_of_nonneg (k : Assignment.args) : 0 <= quarter_counts_of k.
Proof. unfold quarter_counts_of. destruct (Assignment.quarter_list k); lia. Qed.

Lemma carries_time_nonneg (a : agent) :
  carries_time a -> (0 <= current_link_time a)%Q.
Proof.
  unfold carries_time. destruct (current_link a); [intros [? _]; lra|].
  intros ->. done.
Qed.

Lemma waiting_carries_time (a : agent) : waiting a -> carries_time a.
Proof.
  intros (Hpos & edge & Hl & Hn). unfold carries_time. by rewrite Hl.
Qed.

Lemma substep_residuals_wait `{Pandana} (c : Substep.args) (t : edges_table)
    (res : list agent) (ti : PyDict.t trip_key trip_value) :
  0 <= Substep.quarter_counts c ->
  Forall carries_time (Substep.od_ss c) ->
  substep_assignment c = Ok (t, res, ti) ->
  Forall waiting res.
Proof.
  intros Hqc Hss Hsub. unfold substep_assignment in Hsub.
  apply rbind_Ok in Hsub as (s & Hfold & Hs). injection Hs as <- <- <-.
  refine (rfold_invariant (fun s => Forall waiting (od_residual_ss_list s))
            _ _ _ _ _ _ Hfold); [|apply Forall_nil_2].
  intros [path a] s1 s2 Hin Hres Hstep.
  eapply (route_agent_residuals c (path, a)); try done.
  cbn [snd]. apply carries_time_nonneg.
  rewrite Forall_forall in Hss. apply Hss. by apply elem_of_zip_r in Hin.
Qed.

(** ** The agents of an invocation *)

(** X4.  Every agent that a run of [assignment] hands to
    [substep_assignment] is away from its destination, and is either a trip
    that starts, with no current link and no time carried over, or stands
    at the start node of its current link with a strictly positive time
    carried over: the budget of an agent in a substep is never less than
    [3600 / quarter_counts]. *)
Theorem batch_agents_carry_time `{Pandana} `{NumpyRandom}
    (k : Assignment.args) (g : rng) :
  Forall (fun c => Forall (fun a => en_route a /\ carries_time a)
                          (Substep.od_ss c))
         (calls (snd (assignment k (initial_world g)))).
Proof.
  set (CallOk := fun c => Forall (fun a => en_route a /\ carries_time a)
                                 (Substep.od_ss c)).
  set (FileOk := fun _ : file => True).
  refine (proj1 (triple_run (calls_and_files_ok CallOk FileOk) (assignment k)
                   (fun _ w => calls_and_files_ok CallOk FileOk w)
                   (calls_and_files_ok CallOk FileOk) (initial_world g) _ _ _)).
  - apply (assignment_facts k (fun _ _ => True) (fun _ _ _ => True) (fun _ => True)
             carries_time); try done.
    + intros c t _ _ _ _ Hss _ _ _ _. unfold CallOk.
      eapply Forall_impl; [exact Hss|]. by intros a [? ?].
    + intros c t t' res ti' (_ & Hqc & _) _ _ _ Hss _ _ _ _ Hsub.
      split; [done|]. split; [done|].
      eapply Forall_impl; [|apply waiting_carries_time].
      eapply (substep_residuals_wait c); [| |exact Hsub].
      * rewrite Hqc. apply quarter_counts_of_nonneg.
      * eapply Forall_impl; [exact Hss|]. by intros a [? ?].
  - split; constructor.
  - done.
Qed.

(** X6.  At every invocation of [substep_assignment] in a run of
    [assignment], the size of the batch is at most the demand assigned so
    far in the quarter, and that is at most the demand of the quarter: the
    factor [quarter_demand / assigned_demand] by which the volumes are
    extrapolated is at least 1. *)
Theorem assigned_demand_within_quarter_demand `{Pandana} `{NumpyRandom}
    (k : Assignment.args) (g : rng) :
  Forall (fun c =>
            Z.of_nat (length (Substep.od_ss c)) <= Substep.assigned_demand c
            /\ Substep.assigned_demand c <= Substep.quarter_demand c)
         (calls (snd (assignment k (initial_world g)))).
Proof.
  set (CallOk := fun c =>
         Z.of_nat (length (Substep.od_ss c)) <= Substep.assigned_demand c
         /\ Substep.assigned_demand c <= Substep.quarter_demand c).
  set (FileOk := fun _ : file => True).
  refine (proj1 (triple_run (calls_and_files_ok CallOk FileOk) (assignment k)
                   (fun _ w => calls_and_files_ok CallOk FileOk w)
                   (calls_and_files_ok CallOk FileOk) (initial_world g) _ _ _)).
  - apply (assignment_facts k (fun _ _ => True) (fun _ _ _ => True) (fun _ => True)
             (fun _ => True)); try done.
    intros c t t' res ti' _ _ _ _ _ _ _ _ _ _.
    split; [done|]. split; [done|]. by apply Forall_true.
  - split; constructor.
  - done.
Qed.

(** X8.  Every agent that a run of [assignment] hands to
    [substep_assignment] has an entry in the [trip_info] handed over with
    it: the update of lines 449-456 finds its key. *)
Theorem batch_agents_have_trip_info `{Pandana} `{NumpyRandom}
    (k : Assignment.args) (g : rng) :
  Forall (fun c => Forall (fun a => is_Some (PyDict.get (agent_key a)
                                                        (Substep.trip_info c)))
                          (Substep.od_ss c))
         (calls (snd (assignment k (initial_world g)))).
Proof.
  set (CallOk := fun c =>
         Forall (fun a => is_Some (PyDict.get (agent_key a) (Substep.trip_info c)))
                (Substep.od_ss c)).
  set (FileOk := fun _ : file => True).
  refine (proj1 (triple_run (calls_and_files_ok CallOk FileOk) (assignment k)
                   (fun _ w => calls_and_files_ok CallOk FileOk w)
                   (calls_and_files_ok CallOk FileOk) (initial_world g) _ _ _)).
  - apply (assignment_facts k (fun _ _ => True) (fun _ _ _ => True)
             (keyed_by_trips k) (of_routable_trip k)); try done.
    + intros od q Hod _ _ _. by exists od.
    + intros c t _ _ _ [_ Hkeys] Hss _ _ _ _. unfold CallOk.
      eapply Forall_impl; [exact Hss|]. intros a [(od & Hod & Hkey) _].
      destruct (PyDict.get (agent_key a) (Substep.trip_info c)) eqn:Eg; [done|].
      apply pydict_get_None_keys in Eg. exfalso. apply Eg, Hkeys.
      rewrite Hkey, list_elem_of_In. apply in_map. by rewrite <- list_elem_of_In.
    + intros c t t' res ti' _ _ _ [Hnd Hkeys] Hss _ _ _ _ Hsub.
      apply (substep_assignment_facts c) in Hsub as (Hk & _ & Hres).
      split; [done|]. split.
      * unfold keyed_by_trips. by rewrite Hk.
      * eapply Forall_impl; [exact Hres|].
        intros a' (a & edge & left & Ha & ->).
        rewrite Forall_forall in Hss. destruct (Hss a Ha) as [(od & Hod & Hkey) _].
        by exists od.
    + intros ti0. apply initial_trip_info_keys.
  - split; constructor.
  - done.
Qed.

(** ** The volume files of a small network *)

Lemma edge_ident_map (f : edge -> edge) (df : list edge) :
  (forall e, edge_ident (f e) = edge_ident e) ->
  map edge_ident (map f df) = map edge_ident df.
Proof. intros Hf. rewrite map_map. apply map_ext. exact Hf. Qed.

(** X7.  In a run of [assignment] on a network of fewer than ten edges,
    every per-quarter volume file has one row for every edge of the
    network, in the order of the frame, whatever the volumes. *)
Theorem small_network_files_list_every_edge `{Pandana} `{NumpyRandom}
    (k : Assignment.args) (g : rng) :
  (length (rows (Assignment.edges_df k)) < 10)%nat ->
  Forall (lists_every_edge (rows (Assignment.edges_df k)))
         (written (snd (assignment k (initial_world g)))).
Proof.
  intros Hn.
  set (df := rows (Assignment.edges_df k)) in *.
  set (CallOk := fun _ : Substep.args => True).
  set (same := fun t : edges_table => map edge_ident (rows t) = map edge_ident df).
  refine (proj2 (triple_run (calls_and_files_ok CallOk (lists_every_edge df))
                   (assignment k)
                   (fun _ w => calls_and_files_ok CallOk (lists_every_edge df) w)
                   (calls_and_files_ok CallOk (lists_every_edge df))
                   (initial_world g) _ _ _)).
  - apply (assignment_facts k (fun _ => same) (fun _ _ => same) (fun _ => True)
             (fun _ => True)); try done.
    + intros _ h t Ht. unfold same, hour_edges in *. cbn [rows]. rewrite <- Ht.
      destruct (bool_decide _).
      * rewrite apply_closures_map. apply edge_ident_map. intros e.
        by destruct (bool_decide _).
      * by apply edge_ident_map.
    + intros h q t Ht. unfold same in *. cbn [rows]. rewrite <- Ht.
      by apply edge_ident_map.
    + intros h q t Ht. unfold same in *. cbn [rows]. rewrite <- Ht.
      by apply edge_ident_map.
    + intros c t t' res ti' _ Hrows Ht _ _ _ _ _ _ Hsub.
      apply substep_assignment_facts in Hsub as (_ & (s & -> & _) & _).
      split; [|by split; [|apply Forall_true]].
      unfold same in *. cbn [rows new_edges_df]. rewrite <- Hrows, <- Ht.
      by apply edge_ident_map.
    + intros h q t _ _ Ht _. unfold same in Ht. cbn.
      assert (Hlen : length (rows t) = length df).
      { by rewrite <- (length_map edge_ident), Ht, length_map. }
      unfold edge_vol_content. rewrite length_map, Hlen.
      destruct (Nat.ltb_spec (length df) 10) as [_|Hge]; [|lia].
      rewrite <- Ht, !map_map. done.
    + intros ti0. unfold same. cbn. by apply edge_ident_map.
  - split; constructor.
  - done.
Qed.

Lemma small_network_files_list_every_edge_witness :
  List.filter (fun f => negb (Toy.is_trip_file f))
    (written (snd (@assignment Toy.router Toy.tape
                     (Toy.run_args 30000 100 [Toy.trip 5 7])
                     (@initial_world Toy.tape []))))
  <> []
  /\ Forall (lists_every_edge
               (rows (Assignment.edges_df (Toy.run_args 30000 100 [Toy.trip 5 7]))))
            (written (snd (@assignment Toy.router Toy.tape
                             (Toy.run_args 30000 100 [Toy.trip 5 7])
                             (@initial_world Toy.tape [])))).
Proof.
  split; [vm_compute; discriminate|].
  apply (@small_network_files_list_every_edge Toy.router Toy.tape).
  vm_compute. lia.
Defined.

Lemma filter_none {A} (P : A -> Prop) `{forall x, Decision (P x)} (l : list A) :
  Forall (fun x => ~ P x) l -> filter P l = [].
Proof.
  induction 1 as [|x l Hx Hl IH]; [done|].
  rewrite filter_cons. by rewrite decide_False.
Qed.

Lemma trip_rows_filter (d : PyDict.t trip_key trip_value) (key : trip_key)
    (x : trip_value) :
  NoDup (PyDict.keys d) -> PyDict.get key d = Some x ->
  filter (fun r => row_key r = key) (trip_rows d) = trip_rows [(key, x)].
Proof.
  induction d as [|[[[a o] dn] y] d IH]; cbn [PyDict.get PyDict.keys map fst];
    [done|].
  intros Hnd Hget. apply NoDup_cons in Hnd as [Hnotin Hnd].
  cbn [trip_rows map]. rewrite filter_cons. cbn [row_key row_agent_id
    row_origin_nid row_destin_nid].
  destruct (decide (key = (a, o, dn))) as [->|Hne].
  - injection Hget as ->. rewrite decide_True by done. cbn. f_equal.
    apply filter_none. apply Forall_forall. intros r Hr Hk.
    fold (trip_rows d) in Hr. change (map fst d) with (PyDict.keys d) in Hnotin.
    apply Hnotin. rewrite <- trip_rows_keys, <- Hk, list_elem_of_In.
    apply in_map. by rewrite <- list_elem_of_In.
  - destruct (decide _) as [Hk|_]; [exfalso; apply Hne; by rewrite <- Hk|].
    by apply IH.
Qed.

Lemma no_path_rows_filter `{Pandana} (k : Assignment.args) (key : trip_key) :
  key ∈ map od_key (od_rows (od_with_path k)) ->
  filter (fun r => row_key r = key) (map no_path_row (od_no_path k)) = [].
Proof.
  intros Hkey. apply filter_none. apply Forall_forall. intros r Hr Hk.
  rewrite list_elem_of_In, in_map_iff in Hr. destruct Hr as (od & <- & Hod).
  rewrite list_elem_of_In, in_map_iff in Hkey. destruct Hkey as (od0 & <- & Hod0).
  apply (routable_not_no_path k (new_agent od0) od).
  - exists od0. split; [by rewrite list_elem_of_In|done].
  - by rewrite list_elem_of_In.
  - exact (eq_sym Hk).
Qed.

(** ** Trips that are never routed *)

(** X12.  For a demand table with a quarter column and a key such that
    every trip with a path that has this key either is of an hour outside
    the hour list, or of a quarter outside the quarter list, or starts at
    its destination: every trip table that a run of [assignment] writes has
    exactly one row with this key, the initial row of one of these trips,
    with [travel_time = 0], [stop_nid] the origin, [stop_hour = 0], the
    hour of the trip under [stop_quarter] and its quarter under
    [stop_ssid]. *)
Theorem unrouted_trip_keeps_initial_row `{Pandana} `{NumpyRandom}
    (k : Assignment.args) (g : rng) (key : trip_key) :
  has_quarter (Assignment.od_all k) = true ->
  key ∈ map od_key (od_rows (od_with_path k)) ->
  (forall od, od ∈ od_rows (od_with_path k) -> od_key od = key ->
     od_hour od ∉ Assignment.hour_list k
     \/ od_quarter od ∉ quarters k
     \/ od_origin_nid od = od_destin_nid od) ->
  Forall (only_initial_row k key)
         (written (snd (assignment k (initial_world g)))).
Proof.
  intros Hhq Hkey Hout.
  set (CallOk := fun _ : Substep.args => True).
  set (TI := fun ti : PyDict.t trip_key trip_value =>
         NoDup (PyDict.keys ti)
         /\ exists od, od ∈ od_rows (od_with_path k) /\ od_key od = key
                       /\ PyDict.get key ti = Some (initial_trip od)).
  set (RI := fun a : agent => agent_key a = key -> ~ en_route a).
  assert (Hrows : forall ti, TI ti ->
            exists od, od ∈ od_rows (od_with_path k) /\ od_key od = key
              /\ filter (fun r => row_key r = key) (trip_rows ti) = [initial_row od]).
  { intros ti (Hnd & od & Hod & Hk & Hget). exists od. split; [done|].
    split; [done|]. rewrite (trip_rows_filter ti key (initial_trip od)) by done.
    subst key. by destruct od. }
  refine (proj2 (triple_run (calls_and_files_ok CallOk (only_initial_row k key))
                   (assignment k)
                   (fun _ w => calls_and_files_ok CallOk (only_initial_row k key) w)
                   (calls_and_files_ok CallOk (only_initial_row k key))
                   (initial_world g) _ _ _)).
  - apply (assignment_facts k (fun _ _ => True) (fun _ _ _ => True) TI RI);
      try done.
    + intros od q Hod Hh Hq Hoq Hk Hen.
      destruct (Hout od Hod Hk) as [Hh'|[Hq'|Heq]]; [done| |done].
      apply Hq'. by rewrite Hoq.
    + intros c t t' res ti' _ _ _ (Hnd & od & Hod & Hk & Hget) Hss _ _ _ _ Hsub.
      split; [done|]. split.
      * split.
        { apply (substep_assignment_facts c) in Hsub as (-> & _). done. }
        exists od. split; [done|]. split; [done|]. rewrite <- Hget.
        apply (substep_trip_info_untouched c t' res ti' key Hsub).
        intros a Ha Hka. rewrite Forall_forall in Hss.
        destruct (Hss a Ha) as [Hri Hen]. by destruct (Hri Hka).
      * apply (substep_assignment_facts c) in Hsub as (_ & _ & Hres).
        eapply Forall_impl; [exact Hres|].
        intros a' (a & edge & left & Ha & ->) Hka.
        rewrite Forall_forall in Hss. destruct (Hss a Ha) as [Hri Hen].
        by destruct (Hri Hka).
    + intros h ti _ Hti. by apply Hrows.
    + intros ti Hti. destruct (Hrows ti Hti) as (od & Hod & Hk & Hf).
      exists od. split; [done|]. split; [done|].
      unfold final_trip_table. rewrite filter_app, Hf.
      by rewrite no_path_rows_filter.
    + intros ti0 Hti0. split; [by apply (initial_trip_info_keys k ti0 Hti0)|].
      unfold initial_trip_info in Hti0.
      assert (Hti : ti0 = PyDict.comprehension od_key initial_trip
                            (od_rows (od_with_path k))).
      { destruct (has_quarter (od_with_path k)),
                 (od_rows (od_with_path k));
          first [discriminate Hti0 | by injection Hti0]. }
      destruct (pydict_comprehension_get od_key initial_trip
                  (od_rows (od_with_path k)) key Hkey) as (od & Hod & Hk & Hget).
      exists od. by rewrite Hti.
  - split; constructor.
  - done.
Qed.

Lemma unrouted_trip_keeps_initial_row_witness :
  exists content,
    List.filter Toy.is_trip_file
      (written (snd (@assignment Toy.router Toy.tape
                       (Toy.run_args 30000 100 [Toy.trip 5 5; Toy.trip 6 6])
                       (@initial_world Toy.tape []))))
    = [TripInfoFile content]
    /\ map row_key content = [(5, 1, 2); (6, 1, 2)]
    /\ Forall (@only_initial_row Toy.router
                 (Toy.run_args 30000 100 [Toy.trip 5 5; Toy.trip 6 6]) (5, 1, 2))
              (written (snd (@assignment Toy.router Toy.tape
                               (Toy.run_args 30000 100 [Toy.trip 5 5; Toy.trip 6 6])
                               (@initial_world Toy.tape [])))).
Proof.
  eexists. split; [vm_compute; reflexivity|]. split; [reflexivity|].
  apply (@unrouted_trip_keeps_initial_row Toy.router Toy.tape).
  - reflexivity.
  - vm_compute. by left.
  - intros od Hod Hk. left.
    assert (Hrows : od_rows (@od_with_path Toy.router
                      (Toy.run_args 30000 100 [Toy.trip 5 5; Toy.trip 6 6]))
                    = [Toy.trip 5 5; Toy.trip 6 6]) by (vm_compute; reflexivity).
    rewrite Hrows in Hod.
    apply elem_of_cons in Hod as [->|Hod].
    + vm_compute. intros Hin.
      repeat (apply elem_of_cons in Hin as [Hin|Hin]; [discriminate Hin|]).
      by apply elem_of_nil in Hin.
    + apply elem_of_cons in Hod as [->|Hod]; [discriminate Hk|].
      by apply elem_of_nil in Hod.
Defined.

(** ** Volumes *)

(** X13.  With a non-negative [sample_interval], every row of every
    per-quarter volume file written by a run of [assignment] has
    [0 <= vol_true <= vol_tot]: the volume of the quarter is counted in the
    cumulative volume before the file is written. *)
Theorem quarter_volume_within_total `{Pandana} `{NumpyRandom}
    (k : Assignment.args) (g : rng) :
  0 <= Assignment.sample_interval k ->
  Forall volumes_accumulate (written (snd (assignment k (initial_world g)))).
Proof.
  intros Hsi.
  set (CallOk := fun _ : Substep.args => True).
  set (EI := fun (_ : option Z) (t : edges_table) =>
         Forall (fun e => 0 <= vol_tot e) (rows t)).
  set (EQ := fun (_ _ : Z) (t : edges_table) =>
         Forall (fun e => 0 <= vol_true e /\ 0 <= vol_tot e) (rows t)).
  refine (proj2 (triple_run (calls_and_files_ok CallOk volumes_accumulate)
                   (assignment k)
                   (fun _ w => calls_and_files_ok CallOk volumes_accumulate w)
                   (calls_and_files_ok CallOk volumes_accumulate)
                   (initial_world g) _ _ _)).
  - apply (assignment_facts k EI EQ (fun _ => True) (fun _ => True)); try done.
    + intros ho h t Ht. unfold EI, hour_edges in *. cbn [rows].
      destruct (bool_decide _).
      * rewrite apply_closures_map. apply Forall_forall. intros e Hin.
        rewrite list_elem_of_In, in_map_iff in Hin. destruct Hin as (e0 & <- & He0).
        rewrite Forall_forall in Ht. rewrite <- list_elem_of_In in He0.
        specialize (Ht e0 He0). destruct (bool_decide _); exact Ht.
      * apply Forall_forall. intros e Hin. unfold restore_normal in Hin.
        rewrite list_elem_of_In, in_map_iff in Hin. destruct Hin as (e0 & <- & He0).
        rewrite Forall_forall in Ht. rewrite <- list_elem_of_In in He0.
        exact (Ht e0 He0).
    + intros h q t Ht. unfold EI, EQ in *. cbn [rows].
      apply Forall_forall. intros e Hin.
      rewrite list_elem_of_In, in_map_iff in Hin. destruct Hin as (e0 & <- & He0).
      rewrite Forall_forall in Ht. rewrite <- list_elem_of_In in He0.
      split; [done|]. exact (Ht e0 He0).
    + intros h q t Ht. unfold EI, EQ in *. cbn [rows].
      apply Forall_forall. intros e Hin.
      rewrite list_elem_of_In, in_map_iff in Hin. destruct Hin as (e0 & <- & He0).
      rewrite Forall_forall in Ht. rewrite <- list_elem_of_In in He0.
      destruct (Ht e0 He0). cbn. lia.
    + intros c t t' res ti' (_ & _ & _ & Hcs & _) Hrows Ht _ _ _ _ _ _ Hsub.
      apply substep_assignment_facts in Hsub as (_ & (s & -> & Hvol) & _).
      split; [|by split; [|apply Forall_true]].
      unfold EQ in *. cbn [rows new_edges_df]. rewrite <- Hrows in *.
      apply Forall_forall. intros r Hin.
      rewrite list_elem_of_In, in_map_iff in Hin. destruct Hin as (e & <- & He).
      rewrite Forall_forall in Ht. rewrite <- list_elem_of_In in He.
      destruct (Ht e He) as [Hv Htot]. cbn. split; [|done].
      destruct (edge_quarter_vol s !! edge_str e) as [x|] eqn:Ex; cbn; [|done].
      eapply Hvol; [by rewrite Hcs| |exact Ex].
      apply Forall_forall. intros e0 He0. by destruct (Ht e0 He0).
    + intros h q t _ _ Ht _. unfold EQ in Ht. cbn.
      unfold edge_vol_content.
      assert (Hall : Forall (fun r => 0 <= vr_vol_true r <= vr_vol_tot r)
                (map to_vol_row
                   (map (fun e => with_vol_tot (vol_tot e + vol_true e) e) (rows t)))).
      { apply Forall_forall. intros r Hin.
        rewrite list_elem_of_In, map_map, in_map_iff in Hin.
        destruct Hin as (e & <- & He).
        rewrite Forall_forall in Ht. rewrite <- list_elem_of_In in He.
        destruct (Ht e He). cbn. lia. }
      destruct (_ <? _)%nat; [done|].
      rewrite Forall_forall in Hall. apply Forall_forall. intros r Hin.
      apply Hall. rewrite list_elem_of_In, in_map_iff in Hin.
      destruct Hin as (e & <- & He). apply filter_In in He as [He _].
      rewrite list_elem_of_In. by apply in_map.
    + intros ti0. unfold EI. cbn. apply Forall_forall. intros e Hin.
      rewrite list_elem_of_In, in_map_iff in Hin. by destruct Hin as (e0 & <- & He0).
  - split; constructor.
  - done.
Qed.

Lemma quarter_volume_within_total_witness :
  exists h q r,
    EdgeVolFile h q [r]
      ∈ written (snd (@assignment Toy.router Toy.tape
                        (Toy.run_args 30000 100 [Toy.trip 5 6; Toy.trip 6 7])
                        (@initial_world Toy.tape [])))
    /\ vr_vol_true r = 1 /\ vr_vol_tot r = 2
    /\ Forall volumes_accumulate
         (written (snd (@assignment Toy.router Toy.tape
                          (Toy.run_args 30000 100 [Toy.trip 5 6; Toy.trip 6 7])
                          (@initial_world Toy.tape [])))).
Proof.
  eexists 7, 0, _. split.
  { vm_compute. do 7 right. left. }
  split; [reflexivity|]. split; [reflexivity|].
  apply (@quarter_volume_within_total Toy.router Toy.tape). cbn. lia.
Defined.

(** ** A demand table without the quarter column *)



(** ** Every agent of a quarter is routed once *)

Section QuarterCalls.
Context `{Pandana} `{NumpyRandom}.
Variable k : Assignment.args.

Lemma substep_iteration_calls (hour quarter quarter_demand : Z)
    (od_quarter : list (agent * Z)) (pre : list Z) (ss_id : Z) (s : loop_vars)
    (cs : list Substep.args) :
  triple (fun w =>
            lv_assigned_demand s
            = Z.of_nat (length (concat (map (batch_of od_quarter) pre)))
            /\ routed_since cs (concat (map (batch_of od_quarter) pre))
                 quarter_demand w)
         (substep_iteration k hour quarter quarter_demand od_quarter ss_id s)
         (fun s' w =>
            lv_assigned_demand s'
            = Z.of_nat (length (concat (map (batch_of od_quarter) (pre ++ [ss_id]))))
            /\ routed_since cs (concat (map (batch_of od_quarter) (pre ++ [ss_id])))
                 quarter_demand w)
         (fun _ => True).
Proof.
  unfold substep_iteration. fold (batch_of od_quarter ss_id).
  set (od_ss := batch_of od_quarter ss_id).
  assert (Hcat : concat (map (batch_of od_quarter) (pre ++ [ss_id]))
                 = concat (map (batch_of od_quarter) pre) ++ od_ss).
  { rewrite map_app, concat_app. cbn [map concat]. by rewrite app_nil_r. }
  rewrite Hcat, length_app.
  destruct (decide _) as [Hz|Hnz].
  - apply triple_ret. intros w (Ha & new & Hc & Hss & Hqd).
    cbn [with_assigned_demand lv_assigned_demand] in *.
    assert (Hnil : od_ss = []).
    { destruct od_ss; [done|]. cbn [length] in Hz. lia. }
    rewrite Hnil, app_nil_r. cbn [length]. split; [lia|]. by exists new.
  - set (c := substep_args k hour quarter quarter_demand od_ss ss_id _).
    eapply triple_bind with
      (R := fun _ w =>
              lv_assigned_demand s
              = Z.of_nat (length (concat (map (batch_of od_quarter) pre)))
              /\ routed_since cs (concat (map (batch_of od_quarter) pre) ++ od_ss)
                   quarter_demand w).
    { apply triple_called. intros w (Ha & new & Hc & Hss & Hqd). split; [done|].
      exists (new ++ [c]). cbn [calls]. split; [by rewrite Hc, app_assoc|].
      split.
      - rewrite map_app, concat_app, Hss. cbn. by rewrite app_nil_r.
      - apply Forall_app. split; [done|]. by constructor. }
    intros _. eapply triple_bind with
      (R := fun _ w =>
              lv_assigned_demand s
              = Z.of_nat (length (concat (map (batch_of od_quarter) pre)))
              /\ routed_since cs (concat (map (batch_of od_quarter) pre) ++ od_ss)
                   quarter_demand w).
    { apply triple_lift. intros w Hw. by destruct (substep_assignment c). }
    intros [[t' res] ti']. apply triple_ret. intros w (Ha & Hw).
    cbn [lv_assigned_demand with_assigned_demand]. split; [lia|done].
Qed.

Lemma quarter_iteration_calls (hour : Z) (trips : list od_row) (quarter : Z)
    (s : loop_vars) (cs : list Substep.args) :
  triple (fun w => calls w = cs)
         (quarter_iteration k hour trips quarter s)
         (fun _ w =>
            exists agents,
              agents ≡ₚ quarter_agents trips quarter (lv_od_residual_list s)
              /\ routed_since cs agents
                   (Z.of_nat (length (quarter_agents trips quarter
                                        (lv_od_residual_list s)))) w)
         (fun _ => True).
Proof.
  unfold quarter_iteration.
  fold (quarter_agents trips quarter (lv_od_residual_list s)).
  set (agents := quarter_agents trips quarter (lv_od_residual_list s)).
  destruct (decide _) as [Hz|Hnz].
  { apply triple_lift. done. }
  set (ids := range _).
  eapply triple_bind with
    (R := fun msk w => (length msk = length agents
                        /\ Forall (fun i => i ∈ ids) msk) /\ calls w = cs).
  { by apply (triple_random_choice_in (fun w => calls w = cs)). }
  intros msk. intros w [[Hmsk Hin] Hw]. revert w Hw.
  set (od_quarter := zip agents msk).
  set (demand := Z.of_nat (length agents)).
  eapply triple_bind with
    (R := fun _ w =>
            routed_since cs (concat (map (batch_of od_quarter) ids)) demand w).
  { eapply triple_weaken.
    - apply (triple_for_each_prefix ids _
               (fun pre s' w =>
                  lv_assigned_demand s'
                  = Z.of_nat (length (concat (map (batch_of od_quarter) pre)))
                  /\ routed_since cs (concat (map (batch_of od_quarter) pre))
                       demand w)
               (fun _ => True)).
      intros pre ss_id post s0 _. apply substep_iteration_calls.
    - intros w Hw. cbn. split; [done|]. exists []. rewrite app_nil_r.
      split; [done|]. split; [done|constructor].
    - intros s' w [_ Hw]. exact Hw.
    - done. }
  intros s'.
  eapply triple_bind with
    (R := fun _ w =>
            routed_since cs (concat (map (batch_of od_quarter) ids)) demand w).
  { unfold write_edge_vol. destruct (has_flow _).
    - apply triple_write. intros w (new & Hc & Hrest). by exists new.
    - by apply triple_ret. }
  intros _. apply triple_ret. intros w Hw.
  exists (concat (map (batch_of od_quarter) ids)). split; [|done].
  rewrite batches_partition.
  - unfold od_quarter. rewrite fst_zip; [done|lia].
  - apply NoDup_range_from.
  - apply Forall_forall. intros [a m] Haz. cbn [snd].
    unfold od_quarter in Haz. apply elem_of_zip_r in Haz.
    rewrite Forall_forall in Hin. by apply Hin.
Qed.

End QuarterCalls.

(** X11.  When an iteration of the loop over the quarters returns, the
    invocations of [substep_assignment] it has made have had, together,
    exactly the agents of the quarter (the trips of the hour that start in
    the quarter and the agents in flight, but for those that stand at their
    destination), each of them in one batch; and every one of these
    invocations was given their number as [quarter_demand]. *)
Theorem quarter_routes_every_agent_once `{Pandana} `{NumpyRandom}
    (k : Assignment.args) (hour quarter : Z) (trips : list od_row)
    (s s' : loop_vars) (w w' : world) :
  quarter_iteration k hour trips quarter s w = (Ok s', w') ->
  exists new_calls,
    calls w' = calls w ++ new_calls
    /\ concat (map Substep.od_ss new_calls)
       ≡ₚ quarter_agents trips quarter (lv_od_residual_list s)
    /\ Forall (fun c =>
                 Substep.quarter_demand c
                 = Z.of_nat (length (quarter_agents trips quarter
                                       (lv_od_residual_list s))))
              new_calls.
Proof.
  intros Hrun.
  pose proof (quarter_iteration_calls k hour trips quarter s (calls w) w eq_refl)
    as Hq.
  rewrite Hrun in Hq. destruct Hq as (agents & Hperm & new & Hc & Hss & Hqd).
  exists new. split; [done|]. split; [by rewrite Hss|done].
Qed.

Lemma quarter_routes_every_agent_once_witness :
  match @quarter_iteration Toy.router Toy.tape
          (Toy.run_args 1 100 [Toy.trip 5 6; Toy.trip 6 6]) 6
          [Toy.trip 5 6; Toy.trip 6 6] 0
          (initial_vars (Toy.run_args 1 100 [Toy.trip 5 6; Toy.trip 6 6])
             (PyDict.comprehension od_key initial_trip [Toy.trip 5 6; Toy.trip 6 6]))
          (@initial_world Toy.tape [2; 0]%nat) with
  | (Ok _, w') =>
      map (fun c => map agent_id (Substep.od_ss c)) (calls w') = [[6]; []; [5]]
      /\ exists new_calls,
           calls w' = [] ++ new_calls
           /\ concat (map Substep.od_ss new_calls)
              ≡ₚ quarter_agents [Toy.trip 5 6; Toy.trip 6 6] 0 []
           /\ Forall (fun c => Substep.quarter_demand c = 2) new_calls
  | (Raise _, _) => False
  end.
Proof.
  destruct (@quarter_iteration Toy.router Toy.tape
              (Toy.run_args 1 100 [Toy.trip 5 6; Toy.trip 6 6]) 6
              [Toy.trip 5 6; Toy.trip 6 6] 0
              (initial_vars (Toy.run_args 1 100 [Toy.trip 5 6; Toy.trip 6 6])
                 (PyDict.comprehension od_key initial_trip
                    [Toy.trip 5 6; Toy.trip 6 6]))
              (@initial_world Toy.tape [2; 0]%nat))
    as [[s'|err] w'] eqn:Hrun.
  - split.
    + vm_compute in Hrun. by injection Hrun as <- <-.
    + apply (@quarter_routes_every_agent_once Toy.router Toy.tape _ _ _ _ _ _ _ _
               Hrun).
  - vm_compute in Hrun. discriminate Hrun.
Defined.

(** ** A schedule without hours or without quarters *)

Section EmptySchedule.
Context `{Pandana} `{NumpyRandom}.
Variable k : Assignment.args.
Variable ti0 : PyDict.t trip_key trip_value.
Hypothesis no_quarter : quarters k = [].
Hypothesis trips_readable :
  has_quarter (od_with_path k) = true \/ od_rows (od_with_path k) = [].

Lemma hour_iteration_idle (hour : Z) (s : loop_vars) :
  unstarted ti0 s ->
  triple idle (hour_iteration k (od_with_path k) hour s)
         (fun s' w => unstarted ti0 s' /\ idle w) (fun _ => False).
Proof.
  intros [Hq Hti]. unfold hour_iteration. rewrite no_quarter.
  eapply triple_bind with (R := fun _ w => idle w).
  { destruct trips_readable as [->| ->].
    - by apply triple_ret.
    - cbn [List.filter length random_choice draws].
      destruct (has_quarter _); [by apply triple_ret|].
      eapply triple_bind with (R := fun _ w => idle w).
      + destruct quarter_ids; by apply triple_ret.
      + intros msk. by apply triple_ret. }
  intros trips. cbn [for_each].
  eapply triple_bind with (R := fun s' w => unstarted ti0 s' /\ idle w).
  { apply triple_ret. intros w Hw. split; [|done]. by split. }
  intros s'. intros w [Hs Hw]. revert w Hw.
  eapply triple_bind with (R := fun _ w => idle w).
  { destruct (decide _).
    - apply triple_write. intros w [Hc Hf]. split; [done|]. cbn.
      apply Forall_app. split; [done|]. by constructor.
    - by apply triple_ret. }
  intros _. by apply triple_ret.
Qed.

Lemma simulation_idle :
  triple idle (simulation k ti0) (fun s' w => unstarted ti0 s' /\ idle w)
         (fun _ => False).
Proof.
  unfold simulation. eapply triple_weaken.
  - apply (triple_for_each _ _ (fun s w => unstarted ti0 s /\ idle w) (fun _ => False)).
    intros hour s _ w [Hs Hw]. revert w Hw. by apply hour_iteration_idle.
  - intros w Hw. split; [|done]. by split.
  - done.
  - done.
Qed.

End EmptySchedule.

Lemma write_results_unbound `{Pandana} `{NumpyRandom} (k : Assignment.args)
    (s : loop_vars) (w : world) :
  lv_quarter s = None \/ lv_hour s = None ->
  write_results k s w
  = (Raise UnboundLocalError,
     {| generator := generator w;
        written := written w ++ [TripInfoFile (final_trip_table k (lv_trip_info s))];
        calls := calls w |}).
Proof.
  unfold write_results, m_bind, m_write, m_lift.
  intros [-> | ->]; cbn; [done|]. by destruct (lv_quarter s).
Qed.



Lemma to_dict_lookup_NoDup {V} (col : edge -> V) (df : list edge) (e : edge) :
  NoDup (map edge_str df) -> e ∈ df ->
  to_dict col df !! edge_str e = Some (col e).
Proof.
  intros Hnd He.
  destruct (to_dict col df !! edge_str e) as [x|] eqn:Ex.
  - apply to_dict_lookup in Ex as (e' & He' & Hk & <-).
    f_equal. f_equal.
    apply list_elem_of_lookup in He as [i Hi], He' as [j Hj].
    assert (i = j); [|congruence].
    eapply NoDup_lookup; [exact Hnd| |].
    + rewrite list_lookup_fmap, Hi. done.
    + rewrite list_lookup_fmap, Hj. cbn. by rewrite Hk.
  - exfalso. unfold to_dict in Ex.
    apply not_elem_of_list_to_map_2 in Ex. apply Ex.
    apply list_elem_of_fmap. exists (edge_str e, col e).
    split; [done|]. rewrite elem_of_reverse, list_elem_of_In.
    apply in_map_iff. exists e. split; [done|]. by rewrite <- list_elem_of_In.
Qed.

Section ClosedLinks.
Context `{P : Pandana}.
Variable k : Substep.args.

(** The volume of an edge that is not on the path is as it was. *)
Lemma route_agent_off_path (pa : list Z * agent) (s s' : ss_vars) (key : Z * Z) :
  route_agent k pa s = Ok s' ->
  key ∉ hops (fst pa) ->
  edge_quarter_vol s' !! key = edge_quarter_vol s !! key.
Proof.
  destruct pa as [path a]. cbn [fst]. unfold route_agent.
  destruct (bool_decide _); [by intros [= <-]|].
  destruct (decide _); [done|].
  intros Hr Hkey. apply rbind_Ok in Hr as (s1 & Hw & Hu).
  apply walk_spec in Hw.
  cbn [remaining_time used_time edge_quarter_vol trip_stop od_residual_ss_list
       trip_info] in Hw.
  destruct Hw as (_ & _ & Hq & Hdom & _ & _).
  apply update_trip_info_spec in Hu
    as (old & stop & _ & _ & _ & _ & _ & -> & _).
  rewrite Hq, bump_fold_lookup by done.
  set (done := traversed _ _ _) in *.
  assert (Hnone : filter (fun e' => e' = key) done = []).
  { apply filter_none. apply Forall_forall. intros e He ->. apply Hkey.
    destruct (traversed_prefix (edge_travel_time_dict k)
                (3600 / inject_Z (Substep.quarter_counts k) + current_link_time a)%Q
                (hops path)) as [rest Hrest].
    rewrite Hrest. apply elem_of_app. by left. }
  rewrite Hnone. destruct (edge_quarter_vol s !! key); cbn; [f_equal; lia|done].
Qed.

Lemma substep_closed_links_idle (t : edges_table) (res : list agent)
    (ti : PyDict.t trip_key trip_value) :
  routes_along_edges P ->
  NoDup (map edge_str (Substep.weighted_edges_df k)) ->
  Forall (fun e => (closed_time <= fft e)%Q -> vol_true e = 0)
         (Substep.weighted_edges_df k) ->
  substep_assignment k = Ok (t, res, ti) ->
  Forall (fun e => (closed_time <= fft e)%Q -> vol_true e = 0) (rows t).
Proof.
  intros Hroute Hnd Hidle Hsub. unfold substep_assignment in Hsub.
  apply rbind_Ok in Hsub as (s & Hfold & Hs). injection Hs as <- <- <-.
  cbn [rows new_edges_df]. apply Forall_forall. intros r Hin.
  rewrite list_elem_of_In, in_map_iff in Hin. destruct Hin as (e & <- & He).
  rewrite <- list_elem_of_In in He.
  cbn [restrain fft vol_true]. intros Hclosed.
  rewrite Forall_forall in Hidle. specialize (Hidle e He Hclosed).
  assert (Hkeep : edge_quarter_vol s !! edge_str e
                  = edge_quarter_vol (substep_init k) !! edge_str e).
  { refine (rfold_invariant
              (fun s => edge_quarter_vol s !! edge_str e
                        = edge_quarter_vol (substep_init k) !! edge_str e)
              _ _ _ _ _ _ Hfold); [|done].
    intros [path a] s1 s2 Hpa Hs1 Hstep. rewrite <- Hs1.
    apply (route_agent_off_path (path, a)); [done|]. cbn [fst].
    intros Hon. apply elem_of_zip_l in Hpa. unfold substep_paths in Hpa.
    rewrite list_elem_of_In, in_map_iff in Hpa. destruct Hpa as (b & <- & _).
    pose proof (Hroute (substep_net k) (current_nid b) (destin_nid b)) as Hp.
    rewrite Forall_forall in Hp. specialize (Hp _ Hon).
    cbn [substep_net net_edges] in Hp. rewrite map_map in Hp. cbn [fst] in Hp.
    rewrite list_elem_of_In, in_map_iff in Hp. destruct Hp as (e' & Hk & He').
    apply filter_In in He' as [He' Hopen]. apply Qltb_lt in Hopen.
    assert (e' = e).
    { rewrite <- list_elem_of_In in He'.
      apply list_elem_of_lookup in He as [i Hi], He' as [j Hj].
      assert (i = j); [|congruence].
      eapply NoDup_lookup; [exact Hnd| |].
      - rewrite list_lookup_fmap, Hi. done.
      - rewrite list_lookup_fmap, Hj. cbn. by rewrite <- Hk. }
    subst e'. lra. }
  rewrite Hkeep. cbn [substep_init edge_quarter_vol].
  rewrite to_dict_lookup_NoDup by done. done.
Qed.

End ClosedLinks.

Lemma NoDup_edge_str_map (f : edge -> edge) (df : list edge) :
  (forall e, edge_str (f e) = edge_str e) ->
  NoDup (map edge_str df) -> NoDup (map edge_str (map f df)).
Proof.
  intros Hf Hnd. rewrite map_map.
  by rewrite (map_ext (fun e => edge_str (f e)) edge_str Hf).
Qed.

(** ** No traffic on closed links *)

(** X14.  With a router that answers with paths along the edges of the
    network it was given, and an edge frame whose index has no repeated
    label: in every per-quarter volume file that a run of [assignment]
    writes for a closure hour, every row of a closed link has
    [vol_true = 0]. *)
Theorem closed_links_carry_no_traffic `{P : Pandana} `{NumpyRandom}
    (k : Assignment.args) (g : rng) :
  routes_along_edges P ->
  NoDup (map edge_str (rows (Assignment.edges_df k))) ->
  Forall (closed_links_idle k) (written (snd (assignment k (initial_world g)))).
Proof.
  intros Hroute Hnd.
  set (CallOk := fun _ : Substep.args => True).
  set (EI := fun (ho : option Z) (t : edges_table) =>
         NoDup (map edge_str (rows t))
         /\ match ho with
            | Some h => closure_state k h (rows t)
            | None => True
            end).
  set (EQ := fun (h _ : Z) (t : edges_table) =>
         NoDup (map edge_str (rows t))
         /\ closure_state k h (rows t)
         /\ Forall (fun e => (closed_time <= fft e)%Q -> vol_true e = 0) (rows t)).
  refine (proj2 (triple_run (calls_and_files_ok CallOk (closed_links_idle k))
                   (assignment k)
                   (fun _ w => calls_and_files_ok CallOk (closed_links_idle k) w)
                   (calls_and_files_ok CallOk (closed_links_idle k))
                   (initial_world g) _ _ _)).
  - apply (assignment_facts k EI EQ (fun _ => True) (fun _ => True)); try done.
    + intros ho h t [Hn _]. split; [|apply closure_state_hour_edges].
      unfold hour_edges. cbn [rows]. destruct (bool_decide _).
      * by rewrite apply_closures_edge_str.
      * by apply NoDup_edge_str_map.
    + intros h q t [Hn Hc]. split; [|split].
      * by apply NoDup_edge_str_map.
      * by apply closure_state_map.
      * cbn [rows]. apply Forall_forall. intros e Hin.
        rewrite list_elem_of_In, in_map_iff in Hin. by destruct Hin as (e0 & <- & _).
    + intros h q t (Hn & Hc & _). split.
      * by apply NoDup_edge_str_map.
      * by apply closure_state_map.
    + intros c t t' res ti' _ Hrows (Hn & Hc & Hidle) _ _ _ _ _ _ Hsub.
      split; [|by split; [|apply Forall_true]].
      rewrite Hrows in Hn, Hidle.
      pose proof (substep_closed_links_idle c t' res ti' Hroute Hn Hidle Hsub)
        as Hidle'.
      apply substep_assignment_facts in Hsub as (_ & (s & -> & _) & _).
      cbn [rows new_edges_df] in *. rewrite <- Hrows in *.
      unfold EQ. cbn [rows new_edges_df]. rewrite <- Hrows.
      split; [by apply NoDup_edge_str_map|]. split; [|done].
      by apply closure_state_map.
    + intros h q t _ _ (Hn & Hc & Hidle) _ Hh.
      unfold closure_state in Hc. rewrite bool_decide_eq_true_2 in Hc by done.
      assert (Hall : Forall (fun r => vr_uniqueid r ∈ Assignment.closed_links k ->
                                      vr_vol_true r = 0)
                (map to_vol_row
                   (map (fun e => with_vol_tot (vol_tot e + vol_true e) e) (rows t)))).
      { apply Forall_forall. intros r Hin Hcl.
        rewrite list_elem_of_In, map_map, in_map_iff in Hin.
        destruct Hin as (e & <- & He). rewrite <- list_elem_of_In in He.
        rewrite Forall_forall in Hc, Hidle. cbn in *.
        destruct (Hc e He Hcl) as [_ Hf]. apply (Hidle e He). rewrite Hf.
        apply Qle_refl. }
      unfold edge_vol_content. destruct (_ <? _)%nat; [done|].
      rewrite Forall_forall in Hall. apply Forall_forall. intros r Hin.
      apply Hall. rewrite list_elem_of_In, in_map_iff in Hin.
      destruct Hin as (e & <- & He). apply filter_In in He as [He _].
      rewrite list_elem_of_In. by apply in_map.
    + intros ti0. split; [|done]. cbn. by apply NoDup_edge_str_map.
  - split; constructor.
  - done.
Qed.

Lemma toy_router_along_edges : routes_along_edges Toy.router.
Proof.
  intros net o d. cbn. unfold Toy.direct_path.
  destruct (bool_decide _) eqn:E; [|constructor].
  apply bool_decide_eq_true in E. cbn. by repeat constructor.
Qed.

Lemma closed_links_carry_no_traffic_witness :
  routes_along_edges Toy.router
  /\ NoDup (map edge_str (rows (Assignment.edges_df Sample.one_way_closed)))
  /\ (exists content,
        EdgeVolFile 6 0 content
          ∈ written (snd (@assignment Toy.router Toy.tape Sample.one_way_closed
                            (@initial_world Toy.tape [])))
        /\ map (fun r => (vr_uniqueid r, vr_vol_true r)) content = [(7, 1); (8, 0)])
  /\ Forall (closed_links_idle Sample.one_way_closed)
       (written (snd (@assignment Toy.router Toy.tape Sample.one_way_closed
                        (@initial_world Toy.tape [])))).
Proof.
  assert (Hnd : NoDup (map edge_str (rows (Assignment.edges_df Sample.one_way_closed)))).
  { apply (bool_decide_unpack _). by vm_compute. }
  split; [exact toy_router_along_edges|]. split; [exact Hnd|]. split.
  { eexists. split; [vm_compute; left|reflexivity]. }
  exact (@closed_links_carry_no_traffic Toy.router Toy.tape Sample.one_way_closed []
           toy_router_along_edges Hnd).
Defined.

(** * Properties of the damage states *)

Section DamageStateFacts.
Import Py.
Local Open Scope outcome_scope.

Lemma bind_Return {A B} (r : outcome A) (f : A -> outcome B) (b : B) :
  Py.bind r f = Return b -> exists a, r = Return a /\ f a = Return b.
Proof. destruct r as [a|e]; cbn; [eauto|done]. Qed.

Lemma py_of_option_Return {A} (o : option A) (e : exn) (a : A) :
  Py.of_option o e = Return a -> o = Some a.
Proof. destruct o; cbn; congruence. Qed.

Lemma member_set_member_eq (key : string) (v : value) (m : list (string * value)) :
  member key (set_member key v m) = Some v.
Proof.
  induction m as [|[k w] m IH]; cbn.
  - by rewrite decide_True.
  - destruct (decide (key = k)) as [->|Hne]; cbn.
    + by rewrite decide_True.
    + by rewrite decide_False.
Qed.

Lemma member_set_member_ne (key key' : string) (v : value)
    (m : list (string * value)) :
  key <> key' -> member key' (set_member key v m) = member key' m.
Proof.
  intros Hne. induction m as [|[k w] m IH]; cbn.
  - by rewrite decide_False by congruence.
  - destruct (decide (key = k)) as [->|Hne']; cbn.
    + by rewrite !decide_False by congruence.
    + destruct (decide (key' = k)); [done|exact IH].
Qed.

Lemma member_elem_of (key : string) (v : value) (m : list (string * value)) :
  NoDup (map fst m) -> (key, v) ∈ m -> member key m = Some v.
Proof.
  induction m as [|[k w] m IH]; cbn; intros Hnd Hin.
  - by apply elem_of_nil in Hin.
  - apply NoDup_cons in Hnd as [Hnotin Hnd].
    apply elem_of_cons in Hin as [[= <- <-]|Hin].
    + by rewrite decide_True.
    + destruct (decide (key = k)) as [->|Hne]; [|by apply IH].
      exfalso. apply Hnotin. rewrite list_elem_of_In. apply in_map_iff.
      exists (k, v). split; [done|]. by rewrite <- list_elem_of_In.
Qed.

Lemma member_Some_elem_of (key : string) (v : value) (m : list (string * value)) :
  member key m = Some v -> (key, v) ∈ m.
Proof.
  induction m as [|[k w] m IH]; cbn; [done|].
  destruct (decide (key = k)) as [->|Hne].
  - intros [= ->]. by left.
  - intros Hm. right. by apply IH.
Qed.

Section DamageFacts.
Context `{Builtins}.
Variable self : instance.

(** The edges that an asset closes do not depend on its [Open] entry. *)
Lemma closed_by_store (asset_type : string) (aim_id general_information v : value)
    (general_information' : value) :
  store general_information "Open" v = Return general_information' ->
  closed_by asset_type aim_id general_information'
  = closed_by asset_type aim_id general_information.
Proof.
  destruct general_information; try done. cbn. intros [= <-].
  unfold closed_by. destruct (decide _); [done|]. destruct (decide _); [|done].
  cbn. by rewrite member_set_member_ne.
Qed.

(** One asset: what an iteration that returns has found and done. *)
Lemma asset_iteration_Return (asset_type aim_id : string)
    (members : list (string * value)) (closed_edges : list Z) (asset : value)
    (s' : value * list Z) :
  member aim_id members = Some asset ->
  asset_iteration self asset_type (VStr aim_id) (VDict members, closed_edges)
    = Return s' ->
  exists capacity_ratio general_information asset' edges,
    capacity_ratio_of self asset = Return capacity_ratio
    /\ subscript asset (VStr "GeneralInformation") = Return general_information
    /\ (if equals_zero capacity_ratio
        then closed_by asset_type (VStr aim_id) general_information = Return edges
        else edges = [])
    /\ opened asset capacity_ratio = Return asset'
    /\ s' = (VDict (set_member aim_id asset' members), closed_edges ++ edges).
Proof.
  intros Hasset. unfold asset_iteration. cbn [subscript]. rewrite Hasset.
  cbn [Py.of_option Py.bind]. intros Hs.
  apply bind_Return in Hs as (gi & Hgi & Hs).
  apply bind_Return in Hs as (ident & Hident & Hs).
  apply bind_Return in Hs as (item & Hitem & Hs).
  apply bind_Return in Hs as (ratio & Hratio & Hs).
  apply bind_Return in Hs as (_ & _ & Hs).
  apply bind_Return in Hs as (gi' & Hstore & Hs).
  apply bind_Return in Hs as (asset' & Hstore' & Hs).
  cbn [replaced Py.bind] in Hs.
  assert (Hopened : opened asset ratio = Return asset').
  { unfold opened. rewrite Hgi. cbn [Py.bind]. rewrite Hstore. done. }
  exists ratio, gi, asset'.
  destruct (equals_zero ratio).
  - apply bind_Return in Hs as (edges & Hedges & Hs). injection Hs as <-.
    exists edges. rewrite (closed_by_store _ _ _ _ _ Hstore) in Hedges. done.
  - injection Hs as <-. exists []. by rewrite app_nil_r.
Qed.

(** The loop over the assets of one type, from any point on: [todo] are
    the ids still to come. *)
Lemma assets_loop (asset_type : string) (original : list (string * value))
    (todo : list string) :
  NoDup todo ->
  forall (members : list (string * value)) (closed_edges : list Z)
         (s' : value * list Z),
    (forall aim_id, aim_id ∈ todo ->
       is_Some (member aim_id original)
       /\ member aim_id members = member aim_id original) ->
    ofold (asset_iteration self asset_type) (map VStr todo)
          (VDict members, closed_edges) = Return s' ->
    exists members' new_edges,
      s' = (VDict members', closed_edges ++ new_edges)
      /\ (forall n, n ∈ new_edges <->
            exists aim_id asset,
              aim_id ∈ todo /\ member aim_id original = Some asset
              /\ closes self asset_type aim_id asset n)
      /\ (forall aim_id asset, aim_id ∈ todo ->
            member aim_id original = Some asset ->
            exists capacity_ratio asset',
              capacity_ratio_of self asset = Return capacity_ratio
              /\ opened asset capacity_ratio = Return asset'
              /\ member aim_id members' = Some asset')
      /\ (forall aim_id, aim_id ∉ todo ->
            member aim_id members' = member aim_id members).
Proof.
  induction 1 as [|aim_id todo Hnotin Hnd IH]; intros members closed_edges s' Hm Hs.
  - cbn in Hs. injection Hs as <-. exists members, []. rewrite app_nil_r.
    split; [done|]. split; [|split].
    + intros n. split; [intros Hn; by apply elem_of_nil in Hn|].
      intros (a & asset & Ha & _). by apply elem_of_nil in Ha.
    + intros a asset Ha. by apply elem_of_nil in Ha.
    + done.
  - cbn [map ofold] in Hs. apply bind_Return in Hs as (s1 & Hstep & Hs).
    destruct (Hm aim_id) as [[asset Horig] Hmem]; [by left|].
    rewrite Horig in Hmem.
    apply (asset_iteration_Return _ _ _ _ asset) in Hstep
      as (ratio & gi & asset' & edges & Hratio & Hgi & Hedges & Hopen & ->); [|done].
    apply IH in Hs as (members' & new_edges & -> & Hnew & Hok & Hrest).
    2: { intros b Hb. destruct (Hm b) as [Hsome Hb']; [by right|].
         split; [done|]. rewrite member_set_member_ne; [done|].
         intros ->. done. }
    exists members', (edges ++ new_edges). rewrite app_assoc.
    split; [done|]. split; [|split].
    + intros n. rewrite elem_of_app, Hnew. split.
      * intros [Hn|(b & asset_b & Hb & Horig_b & Hcl)].
        -- exists aim_id, asset. split; [by left|]. split; [done|].
           destruct (equals_zero ratio) eqn:Ez.
           ++ by exists ratio, gi, edges.
           ++ subst edges. by apply elem_of_nil in Hn.
        -- exists b, asset_b. split; [by right|done].
      * intros (b & asset_b & Hb & Horig_b & Hcl).
        apply elem_of_cons in Hb as [->|Hb].
        -- left. rewrite Horig in Horig_b. injection Horig_b as <-.
           destruct Hcl as (ratio' & gi' & edges' & Hr' & Hz' & Hgi' & He' & Hn).
           rewrite Hratio in Hr'. injection Hr' as <-. rewrite Hz' in Hedges.
           rewrite Hgi in Hgi'. injection Hgi' as <-.
           rewrite Hedges in He'. by injection He' as <-.
        -- right. by exists b, asset_b.
    + intros b asset_b Hb Horig_b. apply elem_of_cons in Hb as [->|Hb].
      * rewrite Horig in Horig_b. injection Horig_b as <-. exists ratio, asset'.
        split; [done|]. split; [done|].
        rewrite Hrest by done. apply member_set_member_eq.
      * by apply (Hok b).
    + intros b Hb. apply not_elem_of_cons in Hb as [Hne Hb].
      rewrite Hrest by done. by apply member_set_member_ne.
Qed.

End DamageFacts.

Section DamageFacts2.
Context `{Builtins}.
Variable self : instance.

(** The loop over the asset types, from any point on. *)
Lemma asset_types_loop (original : list (string * value)) (todo : list string) :
  NoDup todo ->
  forall (net : list (string * value)) (closed_edges : list Z)
         (s' : value * list Z),
    (forall asset_type, asset_type ∈ todo ->
       exists assets_of_type,
         member asset_type original = Some (VDict assets_of_type)
         /\ NoDup (map fst assets_of_type)
         /\ member asset_type net = member asset_type original) ->
    ofold (asset_type_iteration self) todo (VDict net, closed_edges) = Return s' ->
    exists net' new_edges,
      s' = (VDict net', closed_edges ++ new_edges)
      /\ (forall n, n ∈ new_edges <->
            exists asset_type aim_id asset,
              asset_type ∈ todo /\ asset_at original asset_type aim_id = Some asset
              /\ closes self asset_type aim_id asset n)
      /\ (forall asset_type aim_id asset, asset_type ∈ todo ->
            asset_at original asset_type aim_id = Some asset ->
            exists capacity_ratio asset',
              capacity_ratio_of self asset = Return capacity_ratio
              /\ opened asset capacity_ratio = Return asset'
              /\ asset_at net' asset_type aim_id = Some asset')
      /\ (forall asset_type, asset_type ∉ todo ->
            member asset_type net' = member asset_type net).
Proof.
  induction 1 as [|asset_type todo Hnotin Hnd IH]; intros net closed_edges s' Hm Hs.
  - cbn in Hs. injection Hs as <-. exists net, []. rewrite app_nil_r.
    split; [done|]. split; [|split].
    + intros n. split; [intros Hn; by apply elem_of_nil in Hn|].
      intros (T & a & asset & HT & _). by apply elem_of_nil in HT.
    + intros T a asset HT. by apply elem_of_nil in HT.
    + done.
  - cbn [ofold] in Hs. apply bind_Return in Hs as (s1 & Hstep & Hs).
    destruct (Hm asset_type) as (members & Horig & Hkeys & Hnet); [by left|].
    unfold asset_type_iteration in Hstep. cbn [subscript] in Hstep.
    rewrite Hnet, Horig in Hstep. cbn [Py.of_option Py.bind iterate] in Hstep.
    apply bind_Return in Hstep as ([datadict closed1] & Hloop & Hstep).
    rewrite <- (map_map fst VStr) in Hloop.
    apply (assets_loop self asset_type members (map fst members) Hkeys) in Hloop
      as (members' & edges & [= -> ->] & Hedges & Hok & _).
    2: { intros a Ha. split; [|done].
         rewrite list_elem_of_In, in_map_iff in Ha. destruct Ha as ([a' v] & <- & Ha).
         exists v. apply member_elem_of; [done|]. by rewrite list_elem_of_In. }
    cbn [replaced Py.bind] in Hstep. injection Hstep as <-.
    apply IH in Hs as (net' & new_edges & -> & Hnew & Hok' & Hrest).
    2: { intros T HT. destruct (Hm T) as (ms & HTo & HTk & HTn); [by right|].
         exists ms. split; [done|]. split; [done|].
         rewrite member_set_member_ne; [done|]. intros ->. done. }
    assert (Hat : forall a, asset_at original asset_type a = member a members).
    { intros a. unfold asset_at. by rewrite Horig. }
    exists net', (edges ++ new_edges). rewrite app_assoc.
    split; [done|]. split; [|split].
    + intros n. rewrite elem_of_app, Hedges, Hnew. split.
      * intros [(a & asset & Ha & Hasset & Hcl)|(T & a & asset & HT & Hasset & Hcl)].
        -- exists asset_type, a, asset. split; [by left|]. by rewrite Hat.
        -- exists T, a, asset. split; [by right|done].
      * intros (T & a & asset & HT & Hasset & Hcl).
        apply elem_of_cons in HT as [->|HT].
        -- left. exists a, asset. rewrite Hat in Hasset. split; [|done].
           apply member_Some_elem_of in Hasset.
           rewrite list_elem_of_In. apply in_map_iff. exists (a, asset).
           split; [done|]. by rewrite <- list_elem_of_In.
        -- right. by exists T, a, asset.
    + intros T a asset HT Hasset. apply elem_of_cons in HT as [->|HT].
      * rewrite Hat in Hasset.
        destruct (Hok a asset) as (ratio & asset' & Hr & Ho & Hm'); [|done|].
        { apply member_Some_elem_of in Hasset.
          rewrite list_elem_of_In. apply in_map_iff. exists (a, asset).
          split; [done|]. by rewrite <- list_elem_of_In. }
        exists ratio, asset'. split; [done|]. split; [done|].
        unfold asset_at. rewrite Hrest by done.
        by rewrite member_set_member_eq.
      * by apply (Hok' T a).
    + intros T HT. apply not_elem_of_cons in HT as [Hne HT].
      rewrite Hrest by done. by apply member_set_member_ne.
Qed.

Lemma damage_states_Return (temp : value) (net : list (string * value))
    (data : value) (closed_edges : list Z) :
  NoDup (assets self) ->
  network_of self temp net ->
  damage_states self temp = Return (data, closed_edges) ->
  (forall n, n ∈ closed_edges <->
     exists asset_type aim_id asset,
       asset_type ∈ assets self /\ asset_at net asset_type aim_id = Some asset
       /\ closes self asset_type aim_id asset n)
  /\ exists net',
       data = VDict net'
       /\ (forall asset_type aim_id asset, asset_type ∈ assets self ->
             asset_at net asset_type aim_id = Some asset ->
             exists capacity_ratio asset',
               capacity_ratio_of self asset = Return capacity_ratio
               /\ opened asset capacity_ratio = Return asset'
               /\ asset_at net' asset_type aim_id = Some asset')
       /\ (forall asset_type, asset_type ∉ assets self ->
             member asset_type net' = member asset_type net).
Proof.
  intros Hnd [Hnet Htypes]. unfold damage_states. rewrite Hnet.
  cbn [Py.bind]. intros Hs.
  apply (asset_types_loop net (assets self) Hnd) in Hs
    as (net' & new_edges & [= -> ->] & Hnew & Hok & Hrest).
  - split; [done|]. by exists net'.
  - intros T HT. destruct (Htypes T HT) as (ms & Hm & Hk). by exists ms.
Qed.

End DamageFacts2.

(** ** The closed edges *)

(** X15.  For distinct asset types and a det file with a [dict] of assets
    for each of them: when the loop over the assets returns, an edge id is
    among the closed edges if and only if it is the id of a roadway whose
    damage state has the capacity ratio 0, or one of the [RoadID]s of a
    bridge or tunnel whose damage state has the capacity ratio 0. *)
Theorem closed_edges_of_damage_states `{Builtins} (self : instance)
    (temp : value) (net : list (string * value)) (data : value)
    (closed_edges : list Z) :
  NoDup (assets self) ->
  network_of self temp net ->
  damage_states self temp = Return (data, closed_edges) ->
  forall n, n ∈ closed_edges <->
    exists asset_type aim_id asset,
      asset_type ∈ assets self /\ asset_at net asset_type aim_id = Some asset
      /\ closes self asset_type aim_id asset n.
Proof.
  intros Hnd Hnet Hs. by destruct (damage_states_Return self temp net _ _ Hnd Hnet Hs).
Qed.

(** X16.  For distinct asset types and a det file with a [dict] of assets
    for each of them: when some asset of one of these types has no
    capacity ratio (its damage state is missing, is not a number, or is not
    a key of [capacity_map]), [system_state] raises, and it has written
    neither the updated det file nor the file of the closed edges. *)
Theorem asset_without_capacity_ratio_raises `{Builtins} `{OsPath} `{Geopandas}
    (self : instance) (files_in_directory : list string) (temp : value)
    (initial_state csv_file_dir : string) (net : list (string * value))
    (asset_type aim_id : string) (asset : value) (e : exn) :
  NoDup (assets self) ->
  network_of self temp net ->
  asset_type ∈ assets self ->
  asset_at net asset_type aim_id = Some asset ->
  capacity_ratio_of self asset = Throw e ->
  exists e',
    system_state self files_in_directory temp initial_state csv_file_dir
    = (Throw e', snd (network_files self files_in_directory csv_file_dir)).
Proof.
  intros Hnd Hnet HT Hasset Hratio. unfold system_state.
  destruct (network_files self files_in_directory csv_file_dir) as [[[]|e0] written];
    [|by exists e0].
  destruct (damage_states self temp) as [[data closed_edges]|e1] eqn:Hs;
    [|by exists e1].
  destruct (damage_states_Return self temp net _ _ Hnd Hnet Hs)
    as (_ & net' & _ & Hok & _).
  destruct (Hok asset_type aim_id asset HT Hasset) as (ratio & asset' & Hr & _).
  rewrite Hratio in Hr. done.
Qed.

Lemma network_of_toy (state : Z) :
  network_of ToyState.self (ToyState.det state) (ToyState.network state).
Proof.
  split; [reflexivity|]. intros T HT.
  repeat (apply elem_of_cons in HT as [->|HT];
          [eexists; split; [reflexivity|];
           apply (bool_decide_unpack _); by vm_compute|]).
  by apply elem_of_nil in HT.
Qed.

Lemma closed_edges_of_damage_states_witness :
  exists data,
    @damage_states ToyState.builtins ToyState.self (ToyState.det 4)
    = Return (data, [7; 8; 9])
    /\ forall n, n ∈ [7; 8; 9] <->
         exists asset_type aim_id asset,
           asset_type ∈ assets ToyState.self
           /\ asset_at (ToyState.network 4) asset_type aim_id = Some asset
           /\ @closes ToyState.builtins ToyState.self asset_type aim_id asset n.
Proof.
  eexists. split; [vm_compute; reflexivity|].
  eapply (@closed_edges_of_damage_states ToyState.builtins ToyState.self
            (ToyState.det 4) (ToyState.network 4)).
  - apply (bool_decide_unpack _). by vm_compute.
  - apply network_of_toy.
  - vm_compute. reflexivity.
Defined.

Lemma asset_without_capacity_ratio_raises_witness :
  @system_state ToyState.builtins ToyState.os_path ToyState.geopandas ToyState.self
    ["edges.csv"%string] (ToyState.det 5) "det.json" "out"
  = (Throw KeyError, [])
  /\ exists e',
       @system_state ToyState.builtins ToyState.os_path ToyState.geopandas
         ToyState.self ["edges.csv"%string] (ToyState.det 5) "det.json" "out"
       = (Throw e',
          snd (@network_files ToyState.geopandas ToyState.self
                 ["edges.csv"%string] "out")).
Proof.
  split; [vm_compute; reflexivity|].
  apply (@asset_without_capacity_ratio_raises ToyState.builtins ToyState.os_path
           ToyState.geopandas ToyState.self ["edges.csv"%string] (ToyState.det 5)
           "det.json" "out" (ToyState.network 5) "Roadway" "9"
           (ToyState.asset "TigerOID" (VInt 1009) 5 []) KeyError).
  - apply (bool_decide_unpack _). by vm_compute.
  - apply network_of_toy.
  - vm_compute. by right; left.
  - reflexivity.
  - vm_compute. reflexivity.
Defined.

(** ** The updated det file *)

(** X17.  For distinct asset types and a det file with a [dict] of assets
    for each of them: when [system_state] returns, it has written, after
    the files of [get_graph_network] if any, the updated det file and the
    file of the closed edges; the det file holds the network of the input
    (not the whole input), in which every asset of the types of
    [self.assets] has got the capacity ratio of its damage state as the
    [Open] entry of its [GeneralInformation], and the assets of the other
    types are as they were. *)
Theorem updated_det_records_capacity_ratios `{Builtins} `{OsPath} `{Geopandas}
    (self : instance) (files_in_directory : list string) (temp : value)
    (initial_state csv_file_dir : string) (net : list (string * value))
    (written : list state_file) :
  NoDup (assets self) ->
  network_of self temp net ->
  system_state self files_in_directory temp initial_state csv_file_dir
    = (Return tt, written) ->
  exists path net' path' closed_edges,
    written = snd (network_files self files_in_directory csv_file_dir)
              ++ [DetFile path (VDict net'); ClosureFile path' closed_edges]
    /\ (forall asset_type aim_id asset, asset_type ∈ assets self ->
          asset_at net asset_type aim_id = Some asset ->
          exists capacity_ratio asset',
            capacity_ratio_of self asset = Return capacity_ratio
            /\ opened asset capacity_ratio = Return asset'
            /\ asset_at net' asset_type aim_id = Some asset')
    /\ (forall asset_type, asset_type ∉ assets self ->
          member asset_type net' = member asset_type net).
Proof.
  intros Hnd Hnet. unfold system_state.
  destruct (network_files self files_in_directory csv_file_dir)
    as [[[]|e0] exported]; [|done].
  destruct (damage_states self temp) as [[data closed_edges]|e1] eqn:Hs; [|done].
  cbn [Py.bind]. destruct (updated_name initial_state) as [name|e2]; [|done].
  cbn [Py.bind]. destruct (csv_files self !! _) as [edge_closures|]; [|done].
  intros [= <-].
  destruct (damage_states_Return self temp net _ _ Hnd Hnet Hs)
    as (_ & net' & -> & Hok & Hrest).
  by eexists _, net', _, closed_edges.
Qed.

Lemma updated_det_records_capacity_ratios_witness :
  exists net',
    @system_state ToyState.builtins ToyState.os_path ToyState.geopandas ToyState.self
      [] (ToyState.det 4) "det.json" "out"
    = (Return tt,
       [NetworkFile "out/edges.csv"; NetworkFile "out/nodes.csv";
        DetFile "out/det_updated.json" (VDict net');
        ClosureFile "out/closed_edges.csv" [7; 8; 9]])
    /\ asset_at net' "Roadway" "9"
       = Some (VDict [("GeneralInformation"%string,
                       VDict [("TigerOID"%string, VInt 1009);
                              ("Open"%string, VInt 0)]);
                      ("R2Dres"%string,
                       VDict [("R2Dres_MostLikelyCriticalDamageState"%string,
                               VInt 4)])])
    /\ exists path net'' path' closed_edges,
         [NetworkFile "out/edges.csv"; NetworkFile "out/nodes.csv";
          DetFile "out/det_updated.json" (VDict net');
          ClosureFile "out/closed_edges.csv" [7; 8; 9]]
         = snd (@network_files ToyState.geopandas ToyState.self [] "out")
           ++ [DetFile path (VDict net''); ClosureFile path' closed_edges]
         /\ (forall asset_type aim_id asset, asset_type ∈ assets ToyState.self ->
               asset_at (ToyState.network 4) asset_type aim_id = Some asset ->
               exists capacity_ratio asset',
                 @capacity_ratio_of ToyState.builtins ToyState.self asset
                 = Return capacity_ratio
                 /\ opened asset capacity_ratio = Return asset'
                 /\ asset_at net'' asset_type aim_id = Some asset')
         /\ (forall asset_type, asset_type ∉ assets ToyState.self ->
               member asset_type net'' = member asset_type (ToyState.network 4)).
Proof.
  eexists. split; [vm_compute; reflexivity|]. split; [reflexivity|].
  apply (@updated_det_records_capacity_ratios ToyState.builtins ToyState.os_path
           ToyState.geopandas ToyState.self [] (ToyState.det 4) "det.json" "out"
           (ToyState.network 4)).
  - apply (bool_decide_unpack _). by vm_compute.
  - apply network_of_toy.
  - vm_compute. reflexivity.
Defined.

(** ** From the damage states to the loaded network *)

Lemma load_network_closure_state (edges : list edge_csv) (nodes : list node_csv)
    (closed_links : list Z) (t : edges_table) (nodes_df : list Z) :
  load_network edges nodes closed_links = Ok (t, nodes_df) ->
  Forall (fun e => if bool_decide (uniqueid e ∈ closed_links)
                   then capacity e = 1%Q /\ fft e = closed_time
                   else capacity e = normal_capacity e /\ fft e = normal_fft e)
         (rows t).
Proof.
  unfold load_network. intros [= <- <-]. cbn [rows].
  rewrite apply_closures_map. apply Forall_forall. intros e Hin.
  rewrite list_elem_of_In, in_map_iff in Hin. destruct Hin as (e0 & <- & He0).
  apply drop_duplicates_In, sort_by_fft_In, in_map_iff in He0 as (r & <- & _).
  destruct (bool_decide (uniqueid (edge_of_csv r) ∈ closed_links)) eqn:E.
  - cbn [uniqueid with_capacity_fft edge_of_csv] in *. rewrite E. done.
  - rewrite E. done.
Qed.

(** X18.  For distinct asset types and a det file with a [dict] of assets
    for each of them: when [system_state] returns and the network is
    loaded with the file of the closed edges it has written, an edge of the
    loaded frame whose [uniqueid] is the id of a roadway, or one of the
    [RoadID]s of a bridge or tunnel, whose damage state has the capacity
    ratio 0, has capacity 1 and free-flow time 36000; every other edge has
    the capacity and the free-flow time of the edge file. *)
Theorem damaged_assets_close_their_edges `{Builtins} `{OsPath} `{Geopandas}
    (self : instance) (files_in_directory : list string) (temp : value)
    (initial_state csv_file_dir : string) (net : list (string * value))
    (written : list state_file) (path : string) (closed_edges : list Z)
    (edges : list edge_csv) (nodes : list node_csv) (t : edges_table)
    (nodes_df : list Z) :
  NoDup (assets self) ->
  network_of self temp net ->
  system_state self files_in_directory temp initial_state csv_file_dir
    = (Return tt, written) ->
  last written = Some (ClosureFile path closed_edges) ->
  load_network edges nodes closed_edges = Ok (t, nodes_df) ->
  Forall (fun e =>
            ((exists asset_type aim_id asset,
                asset_type ∈ assets self
                /\ asset_at net asset_type aim_id = Some asset
                /\ closes self asset_type aim_id asset (uniqueid e)) ->
             capacity e = 1%Q /\ fft e = closed_time)
            /\ (~ (exists asset_type aim_id asset,
                     asset_type ∈ assets self
                     /\ asset_at net asset_type aim_id = Some asset
                     /\ closes self asset_type aim_id asset (uniqueid e)) ->
                capacity e = normal_capacity e /\ fft e = normal_fft e))
         (rows t).
Proof.
  intros Hnd Hnet Hrun Hlast Hload.
  assert (Hclosed : exists data, damage_states self temp = Return (data, closed_edges)).
  { unfold system_state in Hrun.
    destruct (network_files self files_in_directory csv_file_dir)
      as [[[]|e0] exported]; [|done].
    destruct (damage_states self temp) as [[data closed]|e1]; [|done].
    cbn [Py.bind] in Hrun. destruct (updated_name initial_state) as [name|e2]; [|done].
    cbn [Py.bind] in Hrun. destruct (csv_files self !! _) as [edge_closures|]; [|done].
    injection Hrun as <-. rewrite last_app in Hlast. cbn in Hlast.
    injection Hlast as _ <-. by exists data. }
  destruct Hclosed as [data Hs].
  pose proof (damage_states_Return self temp net _ _ Hnd Hnet Hs) as [Hiff _].
  eapply Forall_impl; [by eapply load_network_closure_state|].
  intros e He. cbn in He. split.
  - intros Hcl. apply Hiff in Hcl. by rewrite bool_decide_eq_true_2 in He.
  - intros Hncl. rewrite bool_decide_eq_false_2 in He; [done|].
    intros Hin. apply Hncl. by apply Hiff.
Qed.

Lemma damaged_assets_close_their_edges_witness :
  exists t,
    load_network (Toy.edges_file 100) Toy.nodes_file [7; 8; 9] = Ok (t, [1; 2])
    /\ map uniqueid (rows t) = [7]
    /\ Forall (fun e =>
            ((exists asset_type aim_id asset,
                asset_type ∈ assets ToyState.self
                /\ asset_at (ToyState.network 4) asset_type aim_id = Some asset
                /\ @closes ToyState.builtins ToyState.self asset_type aim_id asset
                     (uniqueid e)) ->
             capacity e = 1%Q /\ fft e = closed_time)
            /\ (~ (exists asset_type aim_id asset,
                     asset_type ∈ assets ToyState.self
                     /\ asset_at (ToyState.network 4) asset_type aim_id = Some asset
                     /\ @closes ToyState.builtins ToyState.self asset_type aim_id
                          asset (uniqueid e)) ->
                capacity e = normal_capacity e /\ fft e = normal_fft e))
         (rows t).
Proof.
  eexists. split; [reflexivity|]. split; [reflexivity|].
  eapply (@damaged_assets_close_their_edges ToyState.builtins ToyState.os_path
            ToyState.geopandas ToyState.self ["edges.csv"%string] (ToyState.det 4)
            "det.json" "out" (ToyState.network 4) _ "out/closed_edges.csv" [7; 8; 9]
            (Toy.edges_file 100) Toy.nodes_file).
  - apply (bool_decide_unpack _). by vm_compute.
  - apply network_of_toy.
  - vm_compute. reflexivity.
  - reflexivity.
  - reflexivity.
Defined.

(** ** The name of the updated det file *)

Lemma split_dot_dotless (s : string) : dotless s -> split_dot s = [s].
Proof.
  unfold dotless. induction s as [|c s IH]; [done|].
  intros Hd. apply not_elem_of_cons in Hd as [Hc Hd].
  change (split_dot (String c s))
    with (if decide (c = dot) then EmptyString :: split_dot s
          else match split_dot s with
               | piece :: pieces => String c piece :: pieces
               | [] => [String c EmptyString]
               end).
  destruct (decide (c = dot)) as [Hdot|_]; [by destruct Hc|].
  by rewrite IH.
Qed.

Lemma split_dot_app (stem rest : string) :
  dotless stem -> split_dot (stem +:+ String dot rest) = stem :: split_dot rest.
Proof.
  unfold dotless. induction stem as [|c stem IH].
  - intros _.
    change (split_dot (EmptyString +:+ String dot rest))
      with (if decide (dot = dot) then EmptyString :: split_dot rest
            else match split_dot rest with
                 | piece :: pieces => String dot piece :: pieces
                 | [] => [String dot EmptyString]
                 end).
    by destruct (decide (dot = dot)).
  - intros Hd. apply not_elem_of_cons in Hd as [Hc Hd].
    change (split_dot (String c stem +:+ String dot rest))
      with (if decide (c = dot)
            then EmptyString :: split_dot (stem +:+ String dot rest)
            else match split_dot (stem +:+ String dot rest) with
                 | piece :: pieces => String c piece :: pieces
                 | [] => [String c EmptyString]
                 end).
    destruct (decide (c = dot)) as [Hdot|_]; [by destruct Hc|].
    by rewrite IH.
Qed.

(** X19.  The name of the updated det file is made of the first two pieces
    of the base name of the det file between dots: a base name without a
    dot raises [IndexError]; a base name [stem.extension], and as well a
    base name [stem.extension.more], gives [stem_updated.extension]. *)
Theorem updated_name_keeps_two_pieces `{OsPath} (initial_state : string) :
  (dotless (basename initial_state) ->
   updated_name initial_state = Throw IndexError)
  /\ (forall stem extension,
        dotless stem -> dotless extension ->
        basename initial_state = (stem +:+ "." +:+ extension)%string ->
        updated_name initial_state
        = Return (stem +:+ "_updated." +:+ extension)%string)
  /\ (forall stem extension more,
        dotless stem -> dotless extension ->
        basename initial_state = (stem +:+ "." +:+ extension +:+ "." +:+ more)%string ->
        updated_name initial_state
        = Return (stem +:+ "_updated." +:+ extension)%string).
Proof.
  unfold updated_name. split; [|split].
  - intros Hd. by rewrite split_dot_dotless.
  - intros stem extension Hs He ->.
    change ("." +:+ extension)%string with (String dot extension).
    rewrite split_dot_app, split_dot_dotless by done. done.
  - intros stem extension more Hs He ->.
    change ("." +:+ extension +:+ "." +:+ more)%string
      with (String dot (extension +:+ String dot more)).
    rewrite !split_dot_app by done. done.
Qed.

Lemma updated_name_keeps_two_pieces_witness :
  @updated_name ToyState.os_path "det" = Throw IndexError
  /\ @updated_name ToyState.os_path "det.json" = Return "det_updated.json"%string
  /\ @updated_name ToyState.os_path "det.v2.json" = Return "det_updated.v2"%string.
Proof.
  destruct (@updated_name_keeps_two_pieces ToyState.os_path "det") as (H1 & _ & _).
  destruct (@updated_name_keeps_two_pieces ToyState.os_path "det.json")
    as (_ & H2 & _).
  destruct (@updated_name_keeps_two_pieces ToyState.os_path "det.v2.json")
    as (_ & _ & H3).
  split; [|split].
  - apply H1. unfold dotless. apply (bool_decide_unpack _). by vm_compute.
  - apply (H2 "det" "json")%string; [| |reflexivity];
      unfold dotless; apply (bool_decide_unpack _); by vm_compute.
  - apply (H3 "det" "v2" "json")%string; [| |reflexivity];
      unfold dotless; apply (bool_decide_unpack _); by vm_compute.
Defined.

End DamageStateFacts.
